(** * Google-timeline-parser: day-by-day slicing of semantic segments

    A shallow embedding of [parse_timeline_by_day.py] and the properties
    of its day splitting, segment summaries and day buckets.

    The program, module by module:
    - [Calendar]  : the proleptic Gregorian calendar of Python's [datetime]
    - [Text]      : zero-padded numbers and the few string operations used
    - [Instant]   : [datetime] values, their comparison and [isoformat]
    - [Split]     : [split_segment_by_day]
    - [Float64]   : binary64 floats, correctly rounded
    - [Summary]   : JSON values and [build_segment_details]
    - [Partition] : [parse_by_day] and the output document of [main]
    - [Iso8601]   : one reader of timestamps, to run the program on samples

    What is to hold of it: [SplitSpec], [SummarySpec], [PartitionSpec],
    [Stated]; sample inputs: [Samples], [SampleRuns].  The facts follow,
    and with them the properties C1 to C10. *)

From Stdlib Require Import ZArith List String Ascii Bool Lia.
From Stdlib Require Import Sorting.Sorted Sorting.Permutation.
From Stdlib Require Import QArith Floats.SpecFloat.
From Stdlib Require OrderedTypeEx.
From Stdlib Require Import Qabs Lqa.
Import ListNotations.

Local Open Scope string_scope.
Local Open Scope Z_scope.

(* ================================================================== *)
(** * Exceptions and generators *)

(** The exceptions the program can raise.  [ValueError] carries its
    message; [KeyError] carries the missing key, as Python's does. *)
Inductive exn : Type :=
| ValueError (msg : string)
| KeyError (key : string)
| AttributeError
| TypeError
| OverflowError.

(** How a computation ended.  [OutOfFuel] is not a Python outcome: it
    marks a run of the model whose loop bound was too small. *)
Inductive completion : Type :=
| Returned
| Raised (e : exn)
| OutOfFuel.

(** A run of a generator to exhaustion: what it yielded, in order, and
    how it ended. *)
Record generated (A : Type) : Type := Gen {
  yielded : list A;
  ending : completion
}.
Arguments Gen {A} _ _.
Arguments yielded {A} _.
Arguments ending {A} _.

Definition gen_yield {A} (x : A) (g : generated A) : generated A :=
  Gen (x :: yielded g) (ending g).

(* ================================================================== *)
(** * The calendar *)

Module Calendar.

Definition MINYEAR : Z := 1.
Definition MAXYEAR : Z := 9999.

Definition is_leap (y : Z) : bool :=
  (y mod 4 =? 0) && (negb (y mod 100 =? 0) || (y mod 400 =? 0)).

Definition days_in_month (y m : Z) : Z :=
  match m with
  | 1 => 31 | 2 => if is_leap y then 29 else 28 | 3 => 31 | 4 => 30
  | 5 => 31 | 6 => 30 | 7 => 31 | 8 => 31 | 9 => 30 | 10 => 31
  | 11 => 30 | 12 => 31
  | _ => 0
  end.

Definition days_before_year (y : Z) : Z :=
  let p := y - 1 in p * 365 + p / 4 - p / 100 + p / 400.

Definition days_before_month (y m : Z) : Z :=
  match m with
  | 1 => 0 | 2 => 31 | 3 => 59 | 4 => 90 | 5 => 120 | 6 => 151
  | 7 => 181 | 8 => 212 | 9 => 243 | 10 => 273 | 11 => 304 | 12 => 334
  | _ => 0
  end + (if (2 <? m) && is_leap y then 1 else 0).

(** A [datetime.date]. *)
Record date : Type := Date { year : Z; month : Z; day : Z }.

Definition date_ok (d : date) : bool :=
  (MINYEAR <=? year d) && (year d <=? MAXYEAR) &&
  (1 <=? month d) && (month d <=? 12) &&
  (1 <=? day d) && (day d <=? days_in_month (year d) (month d)).

(** [date.toordinal()]: 0001-01-01 is day 1. *)
Definition toordinal (d : date) : Z :=
  days_before_year (year d) + days_before_month (year d) (month d) + day d.

Definition MAXORDINAL : Z := 3652059.

(** Dates compare as the tuples (year, month, day). *)
Definition date_compare (a b : date) : comparison :=
  match year a ?= year b with
  | Eq => match month a ?= month b with
          | Eq => day a ?= day b
          | c => c
          end
  | c => c
  end.

Definition date_ltb (a b : date) : bool :=
  match date_compare a b with Lt => true | _ => false end.

(** The day after [d] in the calendar. *)
Definition tomorrow (d : date) : date :=
  if day d <? days_in_month (year d) (month d)
  then Date (year d) (month d) (day d + 1)
  else if month d <? 12
       then Date (year d) (month d + 1) 1
       else Date (year d + 1) 1 1.

(** [d + timedelta(days=1)]: the date of ordinal [toordinal d + 1], or
    [OverflowError] beyond 9999-12-31. *)
Definition add_one_day (d : date) : option date :=
  if toordinal d + 1 <=? MAXORDINAL then Some (tomorrow d) else None.

End Calendar.

(* ================================================================== *)
(** * Text rendering of numbers *)

Module Text.

Definition digit (n : Z) : ascii := ascii_of_N (48 + Z.to_N (n mod 10)).

(** The lowest [w] decimal digits of [n], most significant first. *)
Fixpoint digits (w : nat) (n : Z) : string :=
  match w with
  | O => EmptyString
  | S w' => digits w' (n / 10) ++ String (digit n) EmptyString
  end.

Fixpoint ndigits_aux (fuel : nat) (n : Z) : nat :=
  match fuel with
  | O => 1
  | S f => if n <? 10 then 1%nat else S (ndigits_aux f (n / 10))
  end.

(** How many decimal digits the natural number [n] has. *)
Definition ndigits (n : Z) : nat := ndigits_aux (Z.to_nat n) n.

(** ["%0wd" % n] for [n >= 0]: at least [w] digits, zero padded. *)
Definition fmt_d (w : nat) (n : Z) : string :=
  digits (Nat.max w (ndigits n)) n.

(** [s.endswith("Z")] and [s[:-1]]. *)
Fixpoint endswith_Z (s : string) : bool :=
  match s with
  | EmptyString => false
  | String c EmptyString => Ascii.eqb c "Z"
  | String _ s' => endswith_Z s'
  end.

Fixpoint drop_last (s : string) : string :=
  match s with
  | EmptyString => EmptyString
  | String _ EmptyString => EmptyString
  | String c s' => String c (drop_last s')
  end.

End Text.

(* ================================================================== *)
(** * Instants: [datetime.datetime] *)

Module Instant.
Import Calendar Text.

(** A [datetime].  [tzinfo] is [None] for a naive value and the fixed
    UTC offset in microseconds for an aware one ([datetime.timezone]). *)
Record datetime : Type := Datetime {
  date_of : date;
  hour : Z;
  minute : Z;
  second : Z;
  microsecond : Z;
  tzinfo : option Z
}.

Definition US_PER_SECOND : Z := 1000000.
Definition US_PER_DAY : Z := 86400 * US_PER_SECOND.

Definition offset_ok (tz : option Z) : bool :=
  match tz with
  | None => true
  | Some off => (- US_PER_DAY <? off) && (off <? US_PER_DAY)
  end.

Definition time_ok (t : datetime) : bool :=
  (0 <=? hour t) && (hour t <? 24) &&
  (0 <=? minute t) && (minute t <? 60) &&
  (0 <=? second t) && (second t <? 60) &&
  (0 <=? microsecond t) && (microsecond t <? US_PER_SECOND).

(** The values Python's constructors accept. *)
Definition datetime_ok (t : datetime) : bool :=
  date_ok (date_of t) && time_ok t && offset_ok (tzinfo t).

(** Microseconds into the day, and since the start of ordinal 0, on the
    value's own clock. *)
Definition time_us (t : datetime) : Z :=
  ((hour t * 60 + minute t) * 60 + second t) * US_PER_SECOND + microsecond t.

Definition local_us (t : datetime) : Z :=
  toordinal (date_of t) * US_PER_DAY + time_us t.

(** The same count on the UTC clock, for an aware value. *)
Definition utc_us (t : datetime) (off : Z) : Z := local_us t - off.

(** [a - b] as a [timedelta], in microseconds; mixing a naive with an
    aware value is a [TypeError]. *)
Definition dt_sub (a b : datetime) : exn + Z :=
  match tzinfo a, tzinfo b with
  | None, None => inr (local_us a - local_us b)
  | Some oa, Some ob => inr (utc_us a oa - utc_us b ob)
  | _, _ => inl TypeError
  end.

(** The fields compared as a tuple, as for two naive values or two
    values of one offset. *)
Definition naive_compare (a b : datetime) : comparison :=
  match date_compare (date_of a) (date_of b) with
  | Eq => match hour a ?= hour b with
          | Eq => match minute a ?= minute b with
                  | Eq => match second a ?= second b with
                          | Eq => microsecond a ?= microsecond b
                          | c => c
                          end
                  | c => c
                  end
          | c => c
          end
  | c => c
  end.

(** Three-way comparison of two datetimes; [None] when one is naive and
    the other aware. *)
Definition dt_compare (a b : datetime) : option comparison :=
  match tzinfo a, tzinfo b with
  | None, None => Some (naive_compare a b)
  | Some oa, Some ob =>
      if oa =? ob then Some (naive_compare a b)
      else Some (utc_us a oa ?= utc_us b ob)
  | _, _ => None
  end.

(** [a < b]: raises [TypeError] on a naive/aware mix. *)
Definition dt_lt (a b : datetime) : exn + bool :=
  match dt_compare a b with
  | Some Lt => inr true
  | Some _ => inr false
  | None => inl TypeError
  end.

(** [a == b]: a naive/aware mix is unequal, not an error. *)
Definition dt_eq (a b : datetime) : bool :=
  match dt_compare a b with
  | Some Eq => true
  | _ => false
  end.

(** [datetime.combine(d, time.min, tzinfo=tz)]. *)
Definition combine_min (d : date) (tz : option Z) : datetime :=
  Datetime d 0 0 0 0 tz.

(** [date.isoformat()]: YYYY-MM-DD. *)
Definition date_isoformat (d : date) : string :=
  fmt_d 4 (year d) ++ "-" ++ fmt_d 2 (month d) ++ "-" ++ fmt_d 2 (day d).

(** The rendering of a UTC offset: sign, HH:MM, then seconds and
    microseconds only when they are not zero. *)
Definition offset_isoformat (off : Z) : string :=
  let sign := if off <? 0 then "-" else "+" in
  let a := Z.abs off in
  let hh := a / (3600 * US_PER_SECOND) in
  let r := a mod (3600 * US_PER_SECOND) in
  let mm := r / (60 * US_PER_SECOND) in
  let ss := r mod (60 * US_PER_SECOND) in
  sign ++ fmt_d 2 hh ++ ":" ++ fmt_d 2 mm ++
  (if ss =? 0 then ""
   else ":" ++ fmt_d 2 (ss / US_PER_SECOND) ++
        (if ss mod US_PER_SECOND =? 0 then ""
         else "." ++ fmt_d 6 (ss mod US_PER_SECOND))).

(** [datetime.isoformat()]. *)
Definition isoformat (t : datetime) : string :=
  date_isoformat (date_of t) ++ "T" ++
  fmt_d 2 (hour t) ++ ":" ++ fmt_d 2 (minute t) ++ ":" ++ fmt_d 2 (second t) ++
  (if microsecond t =? 0 then "" else "." ++ fmt_d 6 (microsecond t)) ++
  match tzinfo t with
  | None => ""
  | Some off => offset_isoformat off
  end.

End Instant.

(* ================================================================== *)
(** * [split_segment_by_day] *)

Module Split.
Import Calendar Instant.

Definition interval : Type := (datetime * datetime)%type.

(** The [while] loop and the final [yield], with the cursor [current].
    Every turn moves the cursor to the next midnight, so [fuel] bounds
    the number of midnights crossed. *)
Fixpoint split_loop (fuel : nat) (current end_ : datetime)
  : generated interval :=
  match fuel with
  | O => Gen [] OutOfFuel
  | S fuel' =>
      if date_ltb (date_of current) (date_of end_) then
        match add_one_day (date_of current) with
        | None => Gen [] (Raised OverflowError)
        | Some d =>
            let next_midnight := combine_min d (tzinfo current) in
            gen_yield (current, next_midnight)
                      (split_loop fuel' next_midnight end_)
        end
      else Gen [(current, end_)] Returned
  end.

(** One more than the number of days from [start]'s date to [end_]'s. *)
Definition loop_bound (start end_ : datetime) : nat :=
  S (Z.to_nat (toordinal (date_of end_) - toordinal (date_of start))).

Definition order_message (start end_ : datetime) : string :=
  "Segment end is before start: " ++ isoformat start ++ " -> " ++ isoformat end_.

Definition split_segment_by_day (start end_ : datetime) : generated interval :=
  match dt_lt end_ start with
  | inl e => Gen [] (Raised e)
  | inr true => Gen [] (Raised (ValueError (order_message start end_)))
  | inr false =>
      if dt_eq end_ start then Gen [(start, end_)] Returned
      else split_loop (loop_bound start end_) start end_
  end.

End Split.

(* ================================================================== *)
(** * Python floats: IEEE 754 binary64, correctly rounded *)

Module Float64.

Definition prec : Z := 53.
Definition emax : Z := 1024.
Definition emin : Z := 3 - emax - prec.

(** A float is a [spec_float]: a signed zero, an infinity, a NaN or
    [(-1)^s * m * 2^e]. *)
Definition float : Type := spec_float.

(** The quotient [n / d] rounded to the nearest integer, a tie going to
    the even neighbour; [0 <= n], [0 < d]. *)
Definition div_half_even (n d : Z) : Z :=
  let q := n / d in
  match 2 * (n mod d) ?= d with
  | Lt => q
  | Gt => q + 1
  | Eq => if Z.even q then q else q + 1
  end.

(** [n / d * 2^(-e)] as a fraction of integers. *)
Definition scaled (n d e : Z) : Z * Z :=
  if 0 <=? e then (n, d * 2 ^ e) else (n * 2 ^ (- e), d).

(** The exponent [e] at which [n / d] has a 53 bit integer part:
    [2^52 <= n / d / 2^e < 2^53], held up at [emin] for subnormals. *)
Definition exponent_of (n d : Z) : Z :=
  let e0 := Z.log2 n - Z.log2 d - (prec - 1) in
  let '(n0, d0) := scaled n d e0 in
  Z.max (if n0 / d0 <? 2 ^ (prec - 1) then e0 - 1 else e0) emin.

(** The binary64 nearest to [n / d] with sign [s], ties to even
    ([0 <= n], [0 < d]). *)
Definition nearest (s : bool) (n d : Z) : float :=
  if n =? 0 then S754_zero s
  else
    let e := exponent_of n d in
    let '(n1, d1) := scaled n d e in
    let m := div_half_even n1 d1 in
    let '(m', e') := if m =? 2 ^ prec then (2 ^ (prec - 1), e + 1) else (m, e) in
    match m' with
    | Zpos p => if e' <=? emax - prec then S754_finite s p e' else S754_infinity s
    | _ => S754_zero s
    end.

(** [a / b] for two ints, [0 < b]: Python rounds the exact quotient. *)
Definition int_true_divide (a b : Z) : float :=
  nearest (a <? 0) (Z.abs a) b.

(** [x / c] where the float [c] is the positive integer [c] exactly
    (here [60.0]). *)
Definition float_div_int (x : float) (c : Z) : float :=
  match x with
  | S754_finite s m e =>
      let '(n, d) := scaled (Zpos m) 1 (- e) in nearest s n (d * c)
  | _ => x
  end.

(** [round(x, 2)]: the decimal with two places nearest to the exact
    value of [x] (ties to even), then the float nearest to it. *)
Definition round2 (x : float) : float :=
  match x with
  | S754_finite s m e =>
      let '(n, d) := scaled (Zpos m * 100) 1 (- e) in
      nearest s (div_half_even n d) 100
  | _ => x
  end.

(** The exact value of a finite float. *)
Definition to_Q (x : float) : Q :=
  match x with
  | S754_finite s m e =>
      let v := if 0 <=? e then inject_Z (Zpos m * 2 ^ e)
               else Qmake (Zpos m) (Z.to_pos (2 ^ (- e))) in
      if s then Qopp v else v
  | _ => 0%Q
  end.

(** The size and the sign of a float, and whether it is finite. *)
Definition mag (x : float) : Q :=
  match x with
  | S754_finite _ m e =>
      if 0 <=? e then inject_Z (Zpos m * 2 ^ e)
      else Qmake (Zpos m) (Z.to_pos (2 ^ (- e)))
  | _ => 0%Q
  end.

Definition negative (x : float) : bool :=
  match x with
  | S754_zero s | S754_infinity s | S754_finite s _ _ => s
  | S754_nan => false
  end.

Definition finite (x : float) : bool :=
  match x with
  | S754_zero _ | S754_finite _ _ _ => true
  | _ => false
  end.

(** [x] is finite, has sign [s], and its size is within [err] of [q]. *)
Definition approx (x : float) (s : bool) (q err : Q) : Prop :=
  finite x = true /\ negative x = s /\ (Qabs (mag x - q) <= err)%Q.

End Float64.

(* ================================================================== *)
(** * Outcomes of a call *)

(** A call returns a value, raises, or (in the model only) runs out of
    loop fuel. *)
Inductive result (A : Type) : Type :=
| Ok (a : A)
| Raise (e : exn)
| NoFuel.
Arguments Ok {A} _.
Arguments Raise {A} _.
Arguments NoFuel {A}.

Definition bind {A B} (r : result A) (k : A -> result B) : result B :=
  match r with
  | Ok a => k a
  | Raise e => Raise e
  | NoFuel => NoFuel
  end.

Notation "x <- r ;; k" := (bind r (fun x => k))
  (at level 61, r at next level, right associativity).

(* ================================================================== *)
(** * JSON values and [build_segment_details] *)

Module Summary.

(** What [json.loads] produces.  An object is the list of its items in
    order; a key is looked up from the front. *)
#[warnings="-register-all"]
Inductive json : Type :=
| JNull
| JBool (b : bool)
| JInt (z : Z)
| JFloat (f : Float64.float)
| JStr (s : string)
| JArr (items : list json)
| JObj (fields : list (string * json)).

Definition dict : Type := list (string * json).

Fixpoint lookup (k : string) (d : dict) : option json :=
  match d with
  | [] => None
  | (k', v) :: d' => if String.eqb k' k then Some v else lookup k d'
  end.

(** [k in d]. *)
Definition contains (k : string) (d : dict) : bool :=
  match lookup k d with Some _ => true | None => false end.

(** [d.get(k, default)] on a dict. *)
Definition dict_get (d : dict) (k : string) (default : json) : json :=
  match lookup k d with Some v => v | None => default end.

(** [v.get(k, default)] on any value: only a dict has [get]. *)
Definition py_get (v : json) (k : string) (default : json) : result json :=
  match v with
  | JObj d => Ok (dict_get d k default)
  | _ => Raise AttributeError
  end.

(** [d[k]] on a dict. *)
Definition dict_getitem (d : dict) (k : string) : result json :=
  match lookup k d with Some v => Ok v | None => Raise (KeyError k) end.

Definition empty : json := JObj [].

(** The branch taken when ["activity" in segment]. *)
Definition activity_details (segment : dict) : result dict :=
  let activity := dict_get segment "activity" empty in
  top <- py_get activity "topCandidate" empty ;;
  activityType <- py_get top "type" JNull ;;
  activityProbability <- py_get top "probability" JNull ;;
  segmentProbability <- py_get activity "probability" JNull ;;
  distanceMeters <- py_get activity "distanceMeters" JNull ;;
  start <- py_get activity "start" empty ;;
  startPoint <- py_get start "latLng" JNull ;;
  end_ <- py_get activity "end" empty ;;
  endPoint <- py_get end_ "latLng" JNull ;;
  Ok [("segmentType", JStr "activity");
      ("activityType", activityType);
      ("activityProbability", activityProbability);
      ("segmentProbability", segmentProbability);
      ("distanceMeters", distanceMeters);
      ("startPoint", startPoint);
      ("endPoint", endPoint)].

(** The branch taken when ["visit" in segment]. *)
Definition visit_details (segment : dict) : result dict :=
  let visit := dict_get segment "visit" empty in
  top <- py_get visit "topCandidate" empty ;;
  visitProbability <- py_get visit "probability" JNull ;;
  placeId <- py_get top "placeId" JNull ;;
  semanticType <- py_get top "semanticType" JNull ;;
  placeLocation <- py_get top "placeLocation" empty ;;
  latLng <- py_get placeLocation "latLng" JNull ;;
  Ok [("segmentType", JStr "visit");
      ("visitProbability", visitProbability);
      ("placeId", placeId);
      ("semanticType", semanticType);
      ("placeLocation", latLng)].

(** [len(path)], [bool(path)], [path[0]] and [path[-1]] on any value. *)
Definition py_len (v : json) : result nat :=
  match v with
  | JStr s => Ok (String.length s)
  | JArr l => Ok (List.length l)
  | JObj d => Ok (List.length d)
  | _ => Raise TypeError
  end.

Definition first_char (s : string) : string :=
  match s with EmptyString => EmptyString | String c _ => String c EmptyString end.

Fixpoint last_char (s : string) : string :=
  match s with
  | EmptyString => EmptyString
  | String c EmptyString => String c EmptyString
  | String _ s' => last_char s'
  end.

(** Indexing a non-empty container with an integer: a dict from JSON
    has string keys only, so [path[0]] is a [KeyError]. *)
Definition py_first (v : json) : result json :=
  match v with
  | JStr s => Ok (JStr (first_char s))
  | JArr l => Ok (hd JNull l)
  | JObj _ => Raise (KeyError "0")
  | _ => Raise TypeError
  end.

Definition py_last (v : json) : result json :=
  match v with
  | JStr s => Ok (JStr (last_char s))
  | JArr l => Ok (last l JNull)
  | JObj _ => Raise (KeyError "-1")
  | _ => Raise TypeError
  end.

(** The fallback branch. *)
Definition path_details (segment : dict) (include_timeline_points : bool)
  : result dict :=
  let path := dict_get segment "timelinePath" (JArr []) in
  n <- py_len path ;;
  let details := [("segmentType", JStr "timelinePath");
                  ("pointCount", JInt (Z.of_nat n))] in
  details <-
    (if (0 <? n)%nat then
       p0 <- py_first path ;;
       firstPoint <- py_get p0 "point" JNull ;;
       pn <- py_last path ;;
       lastPoint <- py_get pn "point" JNull ;;
       Ok (details ++ [("firstPoint", firstPoint); ("lastPoint", lastPoint)])%list
     else Ok details) ;;
  Ok (if include_timeline_points
      then (details ++ [("timelinePath", path)])%list
      else details).

Definition build_segment_details (segment : dict) (include_timeline_points : bool)
  : result dict :=
  if contains "activity" segment then activity_details segment
  else if contains "visit" segment then visit_details segment
  else path_details segment include_timeline_points.

End Summary.

(* ================================================================== *)
(** * [parse_by_day] and the output document *)

Module Partition.
Import Calendar Text Instant Split Float64 Summary.

(** One entry of a day's list. *)
Record slice : Type := Slice {
  segmentIndex : nat;
  startTime : string;
  endTime : string;
  durationMinutes : float;
  originalStartTime : json;
  originalEndTime : json;
  details : dict
}.

(** [days]: day key to entries, keys in order of first use. *)
Definition buckets : Type := list (string * list slice).

(** [days[key].append(x)] on a [defaultdict(list)]. *)
Fixpoint bucket_append (key : string) (x : slice) (days : buckets) : buckets :=
  match days with
  | [] => [(key, [x])]
  | (k, entries) :: rest =>
      if String.eqb k key then (k, (entries ++ [x])%list) :: rest
      else (k, entries) :: bucket_append key x rest
  end.

(** A stable sort by a text key: [x] goes in front of the first entry
    whose key is not smaller, so equal keys keep their order. *)
Section Sorting.
Context {A : Type} (key : A -> string).

Fixpoint insert_by (x : A) (l : list A) : list A :=
  match l with
  | [] => [x]
  | y :: l' =>
      if String.leb (key x) (key y) then x :: l
      else y :: insert_by x l'
  end.

Definition sort_by (l : list A) : list A := fold_right insert_by [] l.
End Sorting.

(** The order the sort establishes. *)
Definition key_le {A : Type} (key : A -> string) (a b : A) : Prop :=
  String.leb (key a) (key b) = true.

(** [sorted(days)]: the keys in ascending text order. *)
Definition sorted_keys (days : buckets) : list string :=
  sort_by (fun k => k) (map fst days).

Fixpoint bucket_lookup (key : string) (days : buckets) : list slice :=
  match days with
  | [] => []
  | (k, entries) :: rest =>
      if String.eqb k key then entries else bucket_lookup key rest
  end.

(** [round((slice_end - slice_start).total_seconds() / 60.0, 2)] from
    the microseconds of the difference. *)
Definition duration_minutes (us : Z) : float :=
  round2 (float_div_int (int_true_divide us US_PER_SECOND) 60).

Definition lift_sum {A} (r : exn + A) : result A :=
  match r with inl e => Raise e | inr a => Ok a end.

Section WithParser.
(** [datetime.fromisoformat] reads the fields off the text, or fails;
    which texts it reads depends on the Python version.  The
    constructor then range-checks the fields. *)
Variable fromisoformat_fields : string -> option datetime.

Definition fromisoformat (value : string) : result datetime :=
  match fromisoformat_fields value with
  | Some t =>
      if datetime_ok t then Ok t
      else Raise (ValueError ("Invalid isoformat string: '" ++ value ++ "'"))
  | None => Raise (ValueError ("Invalid isoformat string: '" ++ value ++ "'"))
  end.

Definition parse_iso8601 (value : json) : result datetime :=
  match value with
  | JStr s =>
      let s := if endswith_Z s then drop_last s ++ "+00:00" else s in
      fromisoformat s
  | _ => Raise AttributeError
  end.

Variable include_timeline_points : bool.

(** The body of the inner [for]: one entry per yielded interval. *)
Fixpoint add_slices (index : nat) (segment details : dict)
         (ivs : list interval) (days : buckets) : result buckets :=
  match ivs with
  | [] => Ok days
  | (slice_start, slice_end) :: ivs' =>
      us <- lift_sum (dt_sub slice_end slice_start) ;;
      let duration := duration_minutes us in
      let day_key := date_isoformat (date_of slice_start) in
      original_start <- dict_getitem segment "startTime" ;;
      original_end <- dict_getitem segment "endTime" ;;
      let entry := Slice index (isoformat slice_start) (isoformat slice_end)
                         duration original_start original_end details in
      add_slices index segment details ivs' (bucket_append day_key entry days)
  end.

(** The body of the outer [for], for the segment at [index]. *)
Definition add_segment (index : nat) (segment : json) (days : buckets)
  : result buckets :=
  match segment with
  | JObj seg =>
      start_text <- dict_getitem seg "startTime" ;;
      start <- parse_iso8601 start_text ;;
      end_text <- dict_getitem seg "endTime" ;;
      end_ <- parse_iso8601 end_text ;;
      details <- build_segment_details seg include_timeline_points ;;
      let g := split_segment_by_day start end_ in
      days' <- add_slices index seg details (yielded g) days ;;
      match ending g with
      | Returned => Ok days'
      | Raised e => Raise e
      | OutOfFuel => NoFuel
      end
  | _ => Raise TypeError
  end.

(** The outer [for] over segments paired with their index. *)
Fixpoint add_segments (indexed : list (nat * json)) (days : buckets)
  : result buckets :=
  match indexed with
  | [] => Ok days
  | (index, segment) :: rest =>
      days' <- add_segment index segment days ;;
      add_segments rest days'
  end.

Definition enumerate {A} (l : list A) : list (nat * A) :=
  combine (seq 0 (List.length l)) l.

(** Sorting every list, then the dict in key order. *)
Definition finish (days : buckets) : buckets :=
  let days := map (fun '(k, entries) => (k, sort_by startTime entries)) days in
  map (fun day => (day, bucket_lookup day days)) (sorted_keys days).

(** The function run on any order of the indexed segments. *)
Definition parse_indexed (indexed : list (nat * json)) : result buckets :=
  days <- add_segments indexed [] ;;
  Ok (finish days).

Definition parse_by_day (segments : list json) : result buckets :=
  parse_indexed (enumerate segments).

(** The document [main] builds from the loaded JSON [data]. *)
Record output : Type := Output {
  sourceFile : string;
  dayCount : nat;
  segmentCount : nat;
  days_of : buckets
}.

Definition build_output (input_path : string) (data : json) : result output :=
  segments <- py_get data "semanticSegments" (JArr []) ;;
  match segments with
  | JArr segments =>
      grouped <- parse_by_day segments ;;
      Ok (Output input_path (List.length grouped) (List.length segments) grouped)
  | _ => Raise (ValueError "Invalid file format: 'semanticSegments' must be a list.")
  end.

End WithParser.

End Partition.

(* ================================================================== *)
(** * A reader for the texts [isoformat] writes *)

(** One instance of the field reader: YYYY-MM-DDTHH:MM:SS, then an
    optional .ffffff and an optional +HH:MM or -HH:MM.  Every Python
    version reads these. *)
Module Iso8601.
Import Calendar Instant.

Definition digit_value (c : ascii) : option Z :=
  let n := Z.of_N (N_of_ascii c) in
  if (48 <=? n) && (n <=? 57) then Some (n - 48) else None.

Fixpoint number (w : nat) (acc : Z) (s : string) : option (Z * string) :=
  match w with
  | O => Some (acc, s)
  | S w' =>
      match s with
      | String c s' =>
          match digit_value c with
          | Some v => number w' (acc * 10 + v) s'
          | None => None
          end
      | EmptyString => None
      end
  end.

Definition expect (c : ascii) (s : string) : option string :=
  match s with
  | String c' s' => if Ascii.eqb c c' then Some s' else None
  | EmptyString => None
  end.

Definition obind {A B} (o : option A) (k : A -> option B) : option B :=
  match o with Some a => k a | None => None end.

Definition fraction (s : string) : option (Z * string) :=
  match s with
  | String "." s' => number 6 0 s'
  | _ => Some (0, s)
  end.

Definition offset (s : string) : option (option Z) :=
  match s with
  | EmptyString => Some None
  | String c s' =>
      obind (if Ascii.eqb c "+" then Some 1
             else if Ascii.eqb c "-" then Some (-1) else None) (fun sign =>
      obind (number 2 0 s') (fun '(hh, s1) =>
      obind (expect ":" s1) (fun s2 =>
      obind (number 2 0 s2) (fun '(mm, s3) =>
      match s3 with
      | EmptyString => Some (Some (sign * ((hh * 60 + mm) * 60 * US_PER_SECOND)))
      | _ => None
      end))))
  end.

Definition fields (s : string) : option datetime :=
  obind (number 4 0 s) (fun '(y, s) =>
  obind (expect "-" s) (fun s =>
  obind (number 2 0 s) (fun '(m, s) =>
  obind (expect "-" s) (fun s =>
  obind (number 2 0 s) (fun '(d, s) =>
  obind (expect "T" s) (fun s =>
  obind (number 2 0 s) (fun '(hh, s) =>
  obind (expect ":" s) (fun s =>
  obind (number 2 0 s) (fun '(mi, s) =>
  obind (expect ":" s) (fun s =>
  obind (number 2 0 s) (fun '(ss, s) =>
  obind (fraction s) (fun '(us, s) =>
  obind (offset s) (fun tz =>
  Some (Datetime (Date y m d) hh mi ss us tz)))))))))))))).

End Iso8601.


(* ================================================================== *)
(** * What the day splitting is to achieve *)

Module SplitSpec.
Import Calendar Instant Split.

Definition offset_us (t : datetime) : Z :=
  match tzinfo t with Some off => off | None => 0 end.

(** The instant of [t] in microseconds on the UTC clock (on its own
    clock for a naive value). *)
Definition instant (t : datetime) : Z := local_us t - offset_us t.

(** The reading of [e]'s instant on the clock of [s]. *)
Definition on_clock_of (s e : datetime) : Z := instant e + offset_us s.

(** The midnight that opens the calendar day of [t], on [t]'s clock. *)
Definition day_start (t : datetime) : Z := toordinal (date_of t) * US_PER_DAY.

(** The interval runs forward and stays inside the calendar day of its
    start, read on the clock of its start; it may end on the midnight
    that closes the day. *)
Definition within_day (iv : interval) : Prop :=
  day_start (fst iv) <= local_us (fst iv) /\
  local_us (fst iv) <= on_clock_of (fst iv) (snd iv) /\
  on_clock_of (fst iv) (snd iv) <= day_start (fst iv) + US_PER_DAY.

(** [chain a b l]: [l] is not empty, starts at [a], ends at [b], and
    every interval ends where the next starts. *)
Inductive chain : datetime -> datetime -> list interval -> Prop :=
| chain_last a b : chain a b [(a, b)]
| chain_step a m b l : chain m b l -> chain a b ((a, m) :: l).

Definition is_midnight (t : datetime) : Prop :=
  hour t = 0 /\ minute t = 0 /\ second t = 0 /\ microsecond t = 0.

(** Every boundary inside the sequence is a midnight that carries the
    tzinfo of the cursor it was made from. *)
Definition boundaries_ok (ys : list interval) : Prop :=
  Forall (fun iv => is_midnight (snd iv) /\ tzinfo (snd iv) = tzinfo (fst iv))
         (removelast ys).


(** What holds of every interval a run yields from the cursor [cur]. *)
Definition piece_ok (cur : datetime) (iv : interval) : Prop :=
  datetime_ok (fst iv) = true /\ datetime_ok (snd iv) = true /\
  tzinfo (fst iv) = tzinfo cur.



End SplitSpec.

(* ================================================================== *)
(** * Sample values *)

Module Samples.
Import Calendar Instant.

(** 2024-01-01T23:30:00+00:00 and 2024-01-02T00:30:00+00:00. *)
Definition before_midnight : datetime := Datetime (Date 2024 1 1) 23 30 0 0 (Some 0).
Definition after_midnight : datetime := Datetime (Date 2024 1 2) 0 30 0 0 (Some 0).

(** 2024-01-01T23:00:00-05:00 (04:00 UTC on the 2nd) and
    2024-01-02T04:30:00+00:00, half an hour later. *)
Definition evening_minus5 : datetime :=
  Datetime (Date 2024 1 1) 23 0 0 0 (Some (-18000000000)).
Definition morning_utc : datetime := Datetime (Date 2024 1 2) 4 30 0 0 (Some 0).


(** An activity without [topCandidate], an activity whose payload is
    null, and a record that carries all three payload keys. *)
Definition bare_activity : Summary.dict :=
  [("activity", Summary.JObj [("distanceMeters", Summary.JInt 120)])].
Definition null_activity : Summary.dict := [("activity", Summary.JNull)].
Definition all_payloads : Summary.dict :=
  [("timelinePath", Summary.JArr [Summary.JObj [("point", Summary.JStr "1.0,2.0")]]);
   ("visit", Summary.JObj [("probability", Summary.JInt 1)]);
   ("activity", Summary.JObj [])].

(** A record whose [activity] is a text, beside a well-formed visit. *)
Definition text_activity : Summary.dict :=
  [("activity", Summary.JStr "walking");
   ("visit", Summary.JObj [("probability", Summary.JInt 1)])].

End Samples.

(* ================================================================== *)
(** * What the summary is to hold *)

Module SummarySpec.
Import Summary.

(** [d] has no key [k], or a mapping under it. *)
Definition mapping_or_missing (d : dict) (k : string) : bool :=
  match lookup k d with
  | None | Some (JObj _) => true
  | Some _ => false
  end.

(** The mapping under [k], empty when there is none. *)
Definition child (d : dict) (k : string) : dict :=
  match lookup k d with
  | Some (JObj o) => o
  | _ => []
  end.

Definition is_mapping (v : json) : bool :=
  match v with JObj _ => true | _ => false end.

(** Every nested structure the summarizer reads is missing or a
    mapping, and the path, if present, is a list of mappings. *)
Definition nested_ok (segment : dict) : bool :=
  let activity := child segment "activity" in
  let visit := child segment "visit" in
  mapping_or_missing segment "activity" &&
  mapping_or_missing activity "topCandidate" &&
  mapping_or_missing activity "start" &&
  mapping_or_missing activity "end" &&
  mapping_or_missing segment "visit" &&
  mapping_or_missing visit "topCandidate" &&
  mapping_or_missing (child visit "topCandidate") "placeLocation" &&
  match lookup "timelinePath" segment with
  | None => true
  | Some (JArr l) => forallb is_mapping l
  | Some _ => false
  end.

(** The value reached by following the keys of [path] through nested
    mappings; [None] as soon as a step is missing. *)
Fixpoint path_get (d : dict) (path : list string) : option json :=
  match path with
  | [] => None
  | k :: rest =>
      match rest with
      | [] => lookup k d
      | _ => match lookup k d with
             | Some (JObj o) => path_get o rest
             | _ => None
             end
      end
  end.

Definition or_null (o : option json) : json :=
  match o with Some v => v | None => JNull end.

(** Each summary field and the place in the segment it is read from. *)
Definition activity_fields : list (string * list string) :=
  [("activityType", ["activity"; "topCandidate"; "type"]);
   ("activityProbability", ["activity"; "topCandidate"; "probability"]);
   ("segmentProbability", ["activity"; "probability"]);
   ("distanceMeters", ["activity"; "distanceMeters"]);
   ("startPoint", ["activity"; "start"; "latLng"]);
   ("endPoint", ["activity"; "end"; "latLng"])].

Definition visit_fields : list (string * list string) :=
  [("visitProbability", ["visit"; "probability"]);
   ("placeId", ["visit"; "topCandidate"; "placeId"]);
   ("semanticType", ["visit"; "topCandidate"; "semanticType"]);
   ("placeLocation", ["visit"; "topCandidate"; "placeLocation"; "latLng"])].

(** A summary field holds what its place in the segment holds, null
    when the place is missing. *)
Definition reads (segment summary : dict) (fp : string * list string) : Prop :=
  lookup (fst fp) summary = Some (or_null (path_get segment (snd fp))).

(** The payloads on which each branch returns.  The activity branch
    calls [get] on the value under [activity] and on what it finds, or
    defaults to, under [topCandidate], [start] and [end]. *)
Definition activity_shape (segment : dict) : bool :=
  match lookup "activity" segment with
  | Some (JObj a) =>
      mapping_or_missing a "topCandidate" &&
      mapping_or_missing a "start" &&
      mapping_or_missing a "end"
  | _ => false
  end.

(** The visit branch calls [get] on the value under [visit], on its
    [topCandidate] and on the [placeLocation] of that. *)
Definition visit_shape (segment : dict) : bool :=
  match lookup "visit" segment with
  | Some (JObj v) =>
      mapping_or_missing v "topCandidate" &&
      mapping_or_missing (child v "topCandidate") "placeLocation"
  | _ => false
  end.

(** The fallback takes the length of the path and, when it is not
    empty, calls [get] on its first and last element. *)
Definition path_shape (segment : dict) : bool :=
  match dict_get segment "timelinePath" (JArr []) with
  | JArr [] | JStr EmptyString | JObj [] => true
  | JArr l => is_mapping (hd JNull l) && is_mapping (last l JNull)
  | _ => false
  end.

(** Whether the path is a list with a point in it, and the [point] of
    an element of the path. *)
Definition has_points (segment : dict) : bool :=
  match dict_get segment "timelinePath" (JArr []) with
  | JArr (_ :: _) => true
  | _ => false
  end.

Definition point_of (v : json) : json :=
  match v with
  | JObj o => dict_get o "point" JNull
  | _ => JNull
  end.

(** The keys of the three summaries, in order. *)
Definition activity_keys : list string :=
  ["segmentType"; "activityType"; "activityProbability"; "segmentProbability";
   "distanceMeters"; "startPoint"; "endPoint"].

Definition visit_keys : list string :=
  ["segmentType"; "visitProbability"; "placeId"; "semanticType"; "placeLocation"].

Definition path_keys (points flag : bool) : list string :=
  (["segmentType"; "pointCount"]
   ++ (if points then ["firstPoint"; "lastPoint"] else [])
   ++ (if flag then ["timelinePath"] else []))%list.

End SummarySpec.

(* ================================================================== *)
(** * What the partition is to hold *)

Module PartitionSpec.
Import Calendar Text Instant Split Float64 Summary Partition.

(** A day key with the entry filed under it. *)
Definition entry : Type := (string * slice)%type.

(** Filing entries one after the other. *)
Definition group (es : list entry) (days : buckets) : buckets :=
  fold_left (fun d e => bucket_append (fst e) (snd e) d) es days.

(** The entries filed under [key], in order. *)
Definition filed_under (key : string) (es : list entry) : list slice :=
  map snd (filter (fun e => String.eqb (fst e) key) es).

Definition all_slices (days : buckets) : list slice := List.concat (map snd days).

(** Every list sorted, the first step of [finish]. *)
Definition sort_buckets (days : buckets) : buckets :=
  map (fun '(k, entries) => (k, sort_by startTime entries)) days.




(** The day a slice starts on, read off its rendered start. *)
Definition slice_day (s : slice) : string := substring 0 10 (startTime s).

Section WithParser.
Variable fromisoformat_fields : string -> option datetime.
Variable include_timeline_points : bool.

(** The entry made from one yielded interval. *)
Definition slice_entry (index : nat) (segment details : dict) (iv : interval)
  : result entry :=
  us <- lift_sum (dt_sub (snd iv) (fst iv)) ;;
  original_start <- dict_getitem segment "startTime" ;;
  original_end <- dict_getitem segment "endTime" ;;
  Ok (date_isoformat (date_of (fst iv)),
      Slice index (isoformat (fst iv)) (isoformat (snd iv))
            (duration_minutes us) original_start original_end details).

Fixpoint slice_entries (index : nat) (segment details : dict)
         (ivs : list interval) : result (list entry) :=
  match ivs with
  | [] => Ok []
  | iv :: ivs' =>
      e <- slice_entry index segment details iv ;;
      es <- slice_entries index segment details ivs' ;;
      Ok (e :: es)
  end.

(** The entries one segment contributes, or the error it stops on. *)
Definition segment_entries (x : nat * json) : result (list entry) :=
  match snd x with
  | JObj seg =>
      start_text <- dict_getitem seg "startTime" ;;
      start <- parse_iso8601 fromisoformat_fields start_text ;;
      end_text <- dict_getitem seg "endTime" ;;
      end_ <- parse_iso8601 fromisoformat_fields end_text ;;
      details <- build_segment_details seg include_timeline_points ;;
      let g := split_segment_by_day start end_ in
      es <- slice_entries (fst x) seg details (yielded g) ;;
      match ending g with
      | Returned => Ok es
      | Raised e => Raise e
      | OutOfFuel => NoFuel
      end
  | _ => Raise TypeError
  end.

(** The entries of all the segments, in the order given. *)
Fixpoint all_entries (indexed : list (nat * json)) : result (list entry) :=
  match indexed with
  | [] => Ok []
  | x :: rest =>
      es <- segment_entries x ;;
      es' <- all_entries rest ;;
      Ok (es ++ es')%list
  end.

(** The start and end instants of a segment, when both parse. *)
Definition segment_span (seg : dict) : result (datetime * datetime) :=
  start_text <- dict_getitem seg "startTime" ;;
  start <- parse_iso8601 fromisoformat_fields start_text ;;
  end_text <- dict_getitem seg "endTime" ;;
  end_ <- parse_iso8601 fromisoformat_fields end_text ;;
  Ok (start, end_).

End WithParser.

(** An aware value has a tzinfo, a naive one has none. *)
Definition aware (t : datetime) : bool :=
  match tzinfo t with Some _ => true | None => false end.

(** The entry of segment [index] for the interval [iv]: keyed by the
    date of the interval's start, with the rendered ends, the rounded
    minutes between them, the segment's own texts and its summary. *)
Definition made_from (index : nat) (original_start original_end : json)
           (details : dict) (iv : interval) (e : entry) : Prop :=
  e = (date_isoformat (date_of (fst iv)),
       Slice index (isoformat (fst iv)) (isoformat (snd iv))
             (duration_minutes (SplitSpec.instant (snd iv) - SplitSpec.instant (fst iv)))
             original_start original_end details).

(** The entry renders a valid instant and is keyed by its date. *)
Definition entry_ok (e : entry) : Prop :=
  exists t, datetime_ok t = true /\
            startTime (snd e) = isoformat t /\
            fst e = date_isoformat (date_of t).

(** Two keys render two valid dates, the first one earlier. *)
Definition earlier_day (k1 k2 : string) : Prop :=
  String.ltb k1 k2 = true /\
  exists d1 d2, date_ok d1 = true /\ date_ok d2 = true /\
                k1 = date_isoformat d1 /\ k2 = date_isoformat d2 /\
                date_compare d1 d2 = Lt.

(** Start texts in ascending order. *)
Definition starts_ascending (entries : list slice) : Prop :=
  StronglySorted (fun a b => String.leb (startTime a) (startTime b) = true) entries.

(** No two entries of one day share their start text. *)
Definition distinct_starts (days : buckets) : Prop :=
  Forall (fun kb => NoDup (map startTime (snd kb))) days.

End PartitionSpec.

(* ================================================================== *)
(** * Sample inputs *)

Module SampleRuns.
Import Summary.

(** A visit within one day. *)
Definition visit_segment : json :=
  JObj [("startTime", JStr "2024-01-01T10:00:00Z");
        ("endTime", JStr "2024-01-01T11:00:00+00:00");
        ("visit", JObj [("topCandidate", JObj [("placeId", JStr "abc")])])].

(** An activity across the midnight between two other days. *)
Definition activity_segment : json :=
  JObj [("startTime", JStr "2024-01-02T23:30:00+00:00");
        ("endTime", JStr "2024-01-03T00:30:00+00:00");
        ("activity", JObj [])].

Definition two_segments : list json := [visit_segment; activity_segment].

(** Two records that start on the same second. *)
Definition walk : json :=
  JObj [("startTime", JStr "2024-01-01T10:00:00+00:00");
        ("endTime", JStr "2024-01-01T10:30:00+00:00");
        ("activity", JObj [])].
Definition trace : json :=
  JObj [("startTime", JStr "2024-01-01T10:00:00+00:00");
        ("endTime", JStr "2024-01-01T10:30:00+00:00");
        ("timelinePath", JArr [])].

(** A record with an unreadable start, and one with no times at all. *)
Definition unreadable : json :=
  JObj [("startTime", JStr "yesterday"); ("endTime", JStr "today")].
Definition timeless : json := JObj [("visit", JObj [])].

Definition document : json :=
  JObj [("semanticSegments", JArr two_segments)].

End SampleRuns.

(* ================================================================== *)
(** * Claims that do not hold as first stated *)

Module Stated.
Import Summary Partition.

(** Whenever the key [activity] is present the activity summary is
    produced. *)
Definition activity_produced_claim (segment : dict) (flag : bool) : Prop :=
  contains "activity" segment = true ->
  exists d, build_segment_details segment flag = Ok d /\
            lookup "segmentType" d = Some (JStr "activity").

(** Any order of the indexed segments gives the same outcome. *)
Definition any_order_claim (fields : string -> option Instant.datetime)
           (flag : bool) (segments : list json) : Prop :=
  forall p, Permutation p (enumerate segments) ->
            parse_indexed fields flag p = parse_by_day fields flag segments.

(** A segment without one of its times makes the run fail with a
    [KeyError]. *)
Definition missing_field_claim (fields : string -> option Instant.datetime)
           (flag : bool) (segments : list json) : Prop :=
  forall seg, In (JObj seg) segments ->
              contains "startTime" seg = false \/ contains "endTime" seg = false ->
              exists key, parse_by_day fields flag segments = Raise (KeyError key).

End Stated.

(* ================================================================== *)
(** * Further notions: the shape of a split, keys, traces *)

Module More.
Import Calendar Text Instant Split Float64 Summary Partition PartitionSpec.

(** The midnight [i] days after the date of [t], on [t]'s clock. *)
Definition midnight_after (t : datetime) (i : nat) : datetime :=
  combine_min (Nat.iter i tomorrow (date_of t)) (tzinfo t).

(** The intervals from [start] to [end_] cut at the [n] midnights after
    [start]'s date. *)
Definition cut_at_midnights (start end_ : datetime) (n : nat) : list interval :=
  let cuts := map (midnight_after start) (seq 1 n) in
  combine (start :: cuts) (cuts ++ [end_])%list.

(** The number of midnights between the dates of two instants. *)
Definition midnights_between (start end_ : datetime) : nat :=
  Z.to_nat (toordinal (date_of end_) - toordinal (date_of start)).

(** The day an interval starts on, as a day number, and [n] day numbers
    in a row from the one of [d]. *)
Definition day_number (iv : interval) : Z := toordinal (date_of (fst iv)).

Definition days_from (d : date) (n : nat) : list Z :=
  map (fun i => toordinal d + Z.of_nat i) (seq 0 n).

(** The keys a slice has of its own, and the keys a summary can have. *)
Definition slice_keys : list string :=
  ["segmentIndex"; "startTime"; "endTime"; "durationMinutes";
   "originalStartTime"; "originalEndTime"].

Definition summary_keys : list string :=
  ["segmentType"; "activityType"; "activityProbability"; "segmentProbability";
   "distanceMeters"; "startPoint"; "endPoint"; "visitProbability"; "placeId";
   "semanticType"; "placeLocation"; "pointCount"; "firstPoint"; "lastPoint";
   "timelinePath"].

(** Ascending keys, and where two keys are equal, the order [R]. *)
Definition key_then {A : Type} (key : A -> string) (R : A -> A -> Prop) (a b : A)
  : Prop :=
  String.ltb (key a) (key b) = true \/ (key a = key b /\ R a b).

(** The order within a bucket: by start text, then by segment index. *)
Definition before_in_bucket (a b : slice) : Prop :=
  String.ltb (startTime a) (startTime b) = true \/
  (startTime a = startTime b /\ (segmentIndex a < segmentIndex b)%nat).

(** A summary without its [timelinePath] key, and a slice with such a
    summary. *)
Definition without_points (d : dict) : dict :=
  filter (fun kv => negb (String.eqb (fst kv) "timelinePath")) d.

Definition strip_points (s : slice) : slice :=
  Slice (segmentIndex s) (startTime s) (endTime s) (durationMinutes s)
        (originalStartTime s) (originalEndTime s) (without_points (details s)).

(** A function applied to the result of a call, and to every slice of
    a mapping. *)
Definition on_result {A B : Type} (f : A -> B) (r : result A) : result B :=
  match r with
  | Ok a => Ok (f a)
  | Raise e => Raise e
  | NoFuel => NoFuel
  end.

Definition map_buckets (f : slice -> slice) (days : buckets) : buckets :=
  map (fun kb => (fst kb, map f (snd kb))) days.

(** The ways a split of [start] and [end_] can end: it returns when
    [end_ >= start], it raises the [ValueError] of the order when
    [end_ < start] and a [TypeError] when one value is naive and the
    other aware, and nothing else. *)
Definition ending_allowed (start end_ : datetime) (c : completion) : Prop :=
  match c with
  | Returned => dt_lt end_ start = inr false
  | Raised (ValueError msg) =>
      dt_lt end_ start = inr true /\ msg = order_message start end_
  | Raised TypeError => aware end_ <> aware start
  | _ => False
  end.

(** The minutes of an interval are those of a span within one day: the
    difference of its ends is defined and lies between nothing and a
    day, and its rounded minutes are a finite float, not negative,
    between 0 and 1440. *)
Definition minutes_in_day (iv : interval) : Prop :=
  exists us,
    dt_sub (snd iv) (fst iv) = inr us /\
    0 <= us <= US_PER_DAY /\
    finite (duration_minutes us) = true /\
    negative (duration_minutes us) = false /\
    (0 <= to_Q (duration_minutes us) /\ to_Q (duration_minutes us) <= 1440)%Q.

(** An entry with [f] applied to its slice. *)
Definition lift_entry (f : slice -> slice) (e : entry) : entry := (fst e, f (snd e)).

End More.

(* ================================================================== *)
(** * Facts about the calendar *)

Module CalendarFacts.
Import Calendar.

Lemma is_leap_cases (y : Z) :
  is_leap y = true /\ (y mod 4 = 0 /\ (y mod 100 <> 0 \/ y mod 400 = 0))
  \/ is_leap y = false /\ (y mod 4 <> 0 \/ (y mod 100 = 0 /\ y mod 400 <> 0)).
Proof.
  unfold is_leap.
  destruct (Z.eqb_spec (y mod 4) 0), (Z.eqb_spec (y mod 100) 0),
    (Z.eqb_spec (y mod 400) 0); simpl; lia.
Qed.

(** A year has 365 days, or 366 when it is a leap year. *)
Lemma days_before_year_succ (y : Z) :
  days_before_year (y + 1) =
  days_before_year y + (if is_leap y then 366 else 365).
Proof.
  unfold days_before_year.
  replace (y + 1 - 1) with y by lia.
  destruct (is_leap_cases y) as [[-> H] | [-> H]];
    revert H; Z.div_mod_to_equations; lia.
Qed.

Lemma days_before_year_le (y y' : Z) :
  y <= y' -> days_before_year y <= days_before_year y'.
Proof.
  unfold days_before_year. intros H. Z.div_mod_to_equations. lia.
Qed.

Lemma month_cases (m : Z) :
  1 <= m <= 12 ->
  m = 1 \/ m = 2 \/ m = 3 \/ m = 4 \/ m = 5 \/ m = 6 \/
  m = 7 \/ m = 8 \/ m = 9 \/ m = 10 \/ m = 11 \/ m = 12.
Proof. lia. Qed.

Ltac each_month m H :=
  let C := fresh in
  pose proof (month_cases m H) as C;
  repeat (destruct C as [C | C]; [subst m | ]); [.. | subst m].

(** A month ends where the next begins. *)
Lemma days_before_month_succ (y m : Z) :
  1 <= m <= 11 ->
  days_before_month y (m + 1) = days_before_month y m + days_in_month y m.
Proof.
  intros H. assert (H' : 1 <= m <= 12) by lia.
  each_month m H'; try lia;
    unfold days_before_month, days_in_month; simpl;
    destruct (is_leap y); reflexivity.
Qed.

Lemma days_before_month_december (y : Z) :
  days_before_month y 12 + days_in_month y 12 =
  if is_leap y then 366 else 365.
Proof.
  unfold days_before_month, days_in_month; simpl. destruct (is_leap y); reflexivity.
Qed.

Lemma days_before_month_mono (y m m' : Z) :
  1 <= m -> m < m' <= 12 ->
  days_before_month y m + days_in_month y m <= days_before_month y m'.
Proof.
  intros H1 H2.
  assert (Hm : 1 <= m <= 12) by lia. assert (Hm' : 1 <= m' <= 12) by lia.
  each_month m Hm; each_month m' Hm'; try lia;
    unfold days_before_month, days_in_month; simpl;
    destruct (is_leap y); lia.
Qed.

Lemma days_before_month_bounds (y m : Z) :
  1 <= m <= 12 ->
  0 <= days_before_month y m /\
  days_before_month y m + days_in_month y m <= if is_leap y then 366 else 365.
Proof.
  intros Hm.
  each_month m Hm; unfold days_before_month, days_in_month; simpl;
    destruct (is_leap y); lia.
Qed.

Lemma date_ok_iff (d : date) :
  date_ok d = true <->
  1 <= year d <= 9999 /\ 1 <= month d <= 12 /\
  1 <= day d <= days_in_month (year d) (month d).
Proof.
  unfold date_ok, MINYEAR, MAXYEAR.
  rewrite !andb_true_iff, !Z.leb_le. tauto.
Qed.

(** The ordinal of the next calendar day is one more. *)
Lemma toordinal_tomorrow (d : date) :
  date_ok d = true -> toordinal (tomorrow d) = toordinal d + 1.
Proof.
  rewrite date_ok_iff. intros (Hy & Hm & Hd).
  unfold tomorrow, toordinal.
  destruct (Z.ltb_spec (day d) (days_in_month (year d) (month d))); simpl.
  - lia.
  - destruct (Z.ltb_spec (month d) 12); simpl.
    + rewrite days_before_month_succ by lia. lia.
    + assert (month d = 12) as E by lia. rewrite E in *.
      rewrite days_before_year_succ.
      pose proof (days_before_month_december (year d)).
      unfold days_before_month at 1. simpl. lia.
Qed.

(** Tuple order on valid dates is the order of their ordinals. *)
Lemma date_compare_toordinal (a b : date) :
  date_ok a = true -> date_ok b = true ->
  date_compare a b = (toordinal a ?= toordinal b).
Proof.
  rewrite !date_ok_iff. intros (Hya & Hma & Hda) (Hyb & Hmb & Hdb).
  unfold date_compare, toordinal.
  pose proof (days_before_month_bounds (year a) (month a) Hma) as Ba.
  pose proof (days_before_month_bounds (year b) (month b) Hmb) as Bb.
  destruct (Z.compare_spec (year a) (year b)) as [Ey | Ly | Ly].
  - rewrite Ey in *.
    destruct (Z.compare_spec (month a) (month b)) as [Em | Lm | Lm].
    + rewrite Em. symmetry.
      destruct (Z.compare_spec (day a) (day b)); [apply Z.compare_eq_iff | apply Z.compare_lt_iff | apply Z.compare_gt_iff]; lia.
    + symmetry. apply Z.compare_lt_iff.
      pose proof (days_before_month_mono (year b) (month a) (month b)). lia.
    + symmetry. apply Z.compare_gt_iff.
      pose proof (days_before_month_mono (year b) (month b) (month a)). lia.
  - symmetry. apply Z.compare_lt_iff.
    pose proof (days_before_year_succ (year a)).
    pose proof (days_before_year_le (year a + 1) (year b)). lia.
  - symmetry. apply Z.compare_gt_iff.
    pose proof (days_before_year_succ (year b)).
    pose proof (days_before_year_le (year b + 1) (year a)). lia.
Qed.

Lemma date_compare_eq (a b : date) :
  date_compare a b = Eq -> a = b.
Proof.
  unfold date_compare. destruct a, b; simpl.
  destruct (Z.compare_spec year0 year1); try discriminate.
  destruct (Z.compare_spec month0 month1); try discriminate.
  destruct (Z.compare_spec day0 day1); try discriminate.
  intros _. congruence.
Qed.

Lemma toordinal_bounds (d : date) :
  date_ok d = true -> 1 <= toordinal d <= MAXORDINAL.
Proof.
  rewrite date_ok_iff. intros (Hy & Hm & Hd).
  pose proof (days_before_month_bounds (year d) (month d) Hm) as B.
  pose proof (days_before_year_le 1 (year d) ltac:(lia)) as L.
  pose proof (days_before_year_le (year d + 1) 10000 ltac:(lia)) as U.
  rewrite days_before_year_succ in U.
  change (days_before_year 1) with 0 in L.
  change (days_before_year 10000) with MAXORDINAL in U.
  unfold toordinal. destruct (is_leap (year d)); lia.
Qed.

(** The next day of a valid date that is not the last one is valid. *)
Lemma tomorrow_ok (d : date) :
  date_ok d = true -> toordinal d + 1 <= MAXORDINAL ->
  date_ok (tomorrow d) = true.
Proof.
  intros H Hmax. pose proof H as H0.
  apply date_ok_iff in H. destruct H as (Hy & Hm & Hd).
  apply date_ok_iff. unfold tomorrow.
  destruct (Z.ltb_spec (day d) (days_in_month (year d) (month d))); simpl.
  - lia.
  - destruct (Z.ltb_spec (month d) 12); simpl.
    + repeat split; try lia.
      assert (Hm' : 1 <= month d + 1 <= 12) by lia.
      remember (month d + 1) as m. clear Heqm.
      each_month m Hm'; unfold days_in_month; destruct (is_leap (year d)); lia.
    + repeat split; try lia.
      destruct (Z.eq_dec (year d) 9999) as [E | ]; [ | lia].
      exfalso.
      assert (month d = 12) as Em by lia.
      assert (day d = 31) as Ed by (rewrite Em in *; unfold days_in_month in *; lia).
      destruct d as [y m dd]; simpl in *; subst.
      vm_compute in Hmax. apply Hmax. reflexivity.
Qed.

End CalendarFacts.

(* ================================================================== *)
(** * Facts about instants *)

Module InstantFacts.
Import Calendar Instant SplitSpec CalendarFacts.

Lemma time_ok_iff (t : datetime) :
  time_ok t = true <->
  0 <= hour t < 24 /\ 0 <= minute t < 60 /\ 0 <= second t < 60 /\
  0 <= microsecond t < 1000000.
Proof.
  unfold time_ok, US_PER_SECOND.
  rewrite !andb_true_iff, !Z.leb_le, !Z.ltb_lt. tauto.
Qed.

Lemma datetime_ok_parts (t : datetime) :
  datetime_ok t = true ->
  date_ok (date_of t) = true /\ time_ok t = true /\ offset_ok (tzinfo t) = true.
Proof.
  unfold datetime_ok. rewrite !andb_true_iff. tauto.
Qed.

Lemma time_us_bounds (t : datetime) :
  time_ok t = true -> 0 <= time_us t < US_PER_DAY.
Proof.
  rewrite time_ok_iff. unfold time_us, US_PER_DAY, US_PER_SECOND. lia.
Qed.

(** The time of day compares as the tuple of its fields. *)
Lemma time_compare (a b : datetime) :
  time_ok a = true -> time_ok b = true ->
  match hour a ?= hour b with
  | Eq => match minute a ?= minute b with
          | Eq => match second a ?= second b with
                  | Eq => microsecond a ?= microsecond b
                  | c => c
                  end
          | c => c
          end
  | c => c
  end = (time_us a ?= time_us b).
Proof.
  rewrite !time_ok_iff. unfold time_us, US_PER_SECOND.
  intros Ha Hb. symmetry.
  destruct (Z.compare_spec (hour a) (hour b));
    [ destruct (Z.compare_spec (minute a) (minute b));
      [ destruct (Z.compare_spec (second a) (second b));
        [ destruct (Z.compare_spec (microsecond a) (microsecond b)) | | ] | | ] | | ];
    first [apply Z.compare_eq_iff; lia | apply Z.compare_lt_iff; lia
          | apply Z.compare_gt_iff; lia].
Qed.

(** Field order on valid values is the order of the microsecond count. *)
Lemma naive_compare_local (a b : datetime) :
  datetime_ok a = true -> datetime_ok b = true ->
  naive_compare a b = (local_us a ?= local_us b).
Proof.
  intros Ha Hb.
  apply datetime_ok_parts in Ha, Hb.
  destruct Ha as (Da & Ta & _), Hb as (Db & Tb & _).
  pose proof (time_us_bounds a Ta). pose proof (time_us_bounds b Tb).
  unfold naive_compare. rewrite time_compare by assumption.
  rewrite date_compare_toordinal by assumption.
  unfold local_us, US_PER_DAY, US_PER_SECOND in *. symmetry.
  destruct (Z.compare_spec (toordinal (date_of a)) (toordinal (date_of b)));
    [ destruct (Z.compare_spec (time_us a) (time_us b)) | | ];
    first [apply Z.compare_eq_iff; lia | apply Z.compare_lt_iff; lia
          | apply Z.compare_gt_iff; lia].
Qed.

(** Two valid values of the same kind compare by their instants. *)
Lemma dt_compare_instant (a b : datetime) c :
  datetime_ok a = true -> datetime_ok b = true ->
  dt_compare a b = Some c -> c = (instant a ?= instant b).
Proof.
  intros Ha Hb. unfold dt_compare, instant, offset_us, utc_us.
  destruct (tzinfo a) as [oa | ], (tzinfo b) as [ob | ]; try discriminate.
  - destruct (Z.eqb_spec oa ob) as [-> | _]; intros [= <-].
    + rewrite naive_compare_local by assumption.
      destruct (Z.compare_spec (local_us a) (local_us b)); symmetry;
        [apply Z.compare_eq_iff | apply Z.compare_lt_iff | apply Z.compare_gt_iff]; lia.
    + reflexivity.
  - intros [= <-]. rewrite naive_compare_local by assumption.
    rewrite !Z.sub_0_r. reflexivity.
Qed.


End InstantFacts.

(* ================================================================== *)
(** * Facts about [split_segment_by_day] *)

Module SplitFacts.
Import Calendar Instant Split SplitSpec CalendarFacts InstantFacts.

Lemma combine_min_ok (d : date) (tz : option Z) :
  date_ok d = true -> offset_ok tz = true ->
  datetime_ok (combine_min d tz) = true.
Proof. unfold datetime_ok, combine_min; simpl. now intros -> ->. Qed.

Lemma local_us_combine_min (d : date) (tz : option Z) :
  local_us (combine_min d tz) = toordinal d * US_PER_DAY.
Proof. unfold local_us, time_us, combine_min; simpl. lia. Qed.

Lemma date_ltb_toordinal (a b : date) :
  date_ok a = true -> date_ok b = true ->
  date_ltb a b = (toordinal a <? toordinal b).
Proof.
  intros Ha Hb. unfold date_ltb. rewrite date_compare_toordinal by assumption.
  unfold Z.ltb. now destruct (_ ?= _).
Qed.

Lemma chain_nonempty a b l : chain a b l -> l <> [].
Proof. now destruct 1. Qed.

Lemma removelast_cons {A} (x : A) (l : list A) :
  l <> [] -> removelast (x :: l) = x :: removelast l.
Proof. destruct l; [congruence | reflexivity]. Qed.

(** With fuel for every midnight between the cursor and the end, the
    loop returns, and its intervals chain from the cursor to the end. *)
Lemma split_loop_returns (end_ : datetime) :
  datetime_ok end_ = true ->
  forall fuel cur,
    datetime_ok cur = true ->
    (Z.to_nat (toordinal (date_of end_) - toordinal (date_of cur)) < fuel)%nat ->
    exists ys,
      split_loop fuel cur end_ = Gen ys Returned /\
      chain cur end_ ys /\
      boundaries_ok ys /\
      Forall (piece_ok cur) ys.
Proof.
  intros Hend. induction fuel as [ | fuel IH]; intros cur Hcur Hfuel; [lia | ].
  destruct (datetime_ok_parts _ Hcur) as (Dc & Tc & Oc).
  destruct (datetime_ok_parts _ Hend) as (De & Te & Oe).
  simpl. rewrite date_ltb_toordinal by assumption.
  destruct (Z.ltb_spec (toordinal (date_of cur)) (toordinal (date_of end_))) as [L | L].
  - pose proof (toordinal_bounds _ De) as Be.
    unfold add_one_day.
    destruct (Z.leb_spec (toordinal (date_of cur) + 1) MAXORDINAL); [ | lia].
    assert (Dn : date_ok (tomorrow (date_of cur)) = true) by (apply tomorrow_ok; assumption).
    set (nm := combine_min (tomorrow (date_of cur)) (tzinfo cur)).
    assert (Hnm : datetime_ok nm = true) by (apply combine_min_ok; assumption).
    destruct (IH nm Hnm) as (ys & E & C & B & P).
    { unfold nm; simpl. rewrite toordinal_tomorrow by assumption. lia. }
    exists ((cur, nm) :: ys). rewrite E. unfold gen_yield; simpl.
    split; [reflexivity | ]. split; [now constructor | ]. split.
    + unfold boundaries_ok. rewrite removelast_cons by (eapply chain_nonempty; eauto).
      constructor; [ | exact B]. simpl. unfold is_midnight. auto.
    + constructor; [unfold piece_ok; simpl; auto | ].
      eapply Forall_impl; [ | exact P]. unfold piece_ok. intros iv (? & ? & ->). auto.
  - exists [(cur, end_)]. split; [reflexivity | ]. split; [constructor | ].
    split; [constructor | ]. constructor; [ | constructor].
    unfold piece_ok; simpl; auto.
Qed.

(** On one clock, with the cursor not after the end, every interval
    stays inside one calendar day. *)
Lemma split_loop_within (end_ : datetime) :
  datetime_ok end_ = true ->
  forall fuel cur ys,
    datetime_ok cur = true ->
    tzinfo cur = tzinfo end_ ->
    local_us cur <= local_us end_ ->
    split_loop fuel cur end_ = Gen ys Returned ->
    Forall within_day ys.
Proof.
  intros Hend. induction fuel as [ | fuel IH]; intros cur ys Hcur Htz Hle; [discriminate | ].
  destruct (datetime_ok_parts _ Hcur) as (Dc & Tc & Oc).
  destruct (datetime_ok_parts _ Hend) as (De & Te & Oe).
  pose proof (time_us_bounds _ Tc) as Bc. pose proof (time_us_bounds _ Te) as Be.
  simpl. rewrite date_ltb_toordinal by assumption.
  destruct (Z.ltb_spec (toordinal (date_of cur)) (toordinal (date_of end_))) as [L | L].
  - unfold add_one_day.
    destruct (Z.leb_spec (toordinal (date_of cur) + 1) MAXORDINAL); [ | discriminate].
    set (nm := combine_min (tomorrow (date_of cur)) (tzinfo cur)).
    destruct (split_loop fuel nm end_) as [ys' en] eqn:E.
    unfold gen_yield; simpl. intros [= <- ->].
    assert (Ln : local_us nm = (toordinal (date_of cur) + 1) * US_PER_DAY).
    { unfold nm. rewrite local_us_combine_min, toordinal_tomorrow by assumption. reflexivity. }
    constructor.
    + unfold within_day, on_clock_of, instant, day_start, offset_us; simpl.
      rewrite Ln. unfold local_us in *. destruct (tzinfo cur); lia.
    + apply (IH nm ys'); try assumption.
      * apply combine_min_ok; [apply tomorrow_ok | ]; assumption.
      * rewrite Ln. unfold local_us, US_PER_DAY, US_PER_SECOND in *. nia.
  - intros [= <-]. constructor; [ | constructor].
    unfold within_day, on_clock_of, instant, day_start, offset_us; simpl.
    rewrite Htz. unfold local_us, US_PER_DAY, US_PER_SECOND in *.
    destruct (tzinfo end_); nia.
Qed.

(** The loop never raises a [ValueError]. *)
Lemma split_loop_no_value_error (end_ : datetime) fuel cur msg :
  ending (split_loop fuel cur end_) <> Raised (ValueError msg).
Proof.
  revert cur. induction fuel as [ | fuel IH]; intros cur; simpl; [discriminate | ].
  destruct (date_ltb _ _); [ | discriminate].
  destruct (add_one_day _); [ | discriminate].
  unfold gen_yield; simpl. apply IH.
Qed.

Lemma loop_bound_enough (start end_ : datetime) :
  (Z.to_nat (toordinal (date_of end_) - toordinal (date_of start))
   < loop_bound start end_)%nat.
Proof. unfold loop_bound. lia. Qed.

(** For valid instants the generator either refuses at once or runs to
    its end; it never stops in the middle. *)
Lemma split_outcome (start end_ : datetime) :
  datetime_ok start = true -> datetime_ok end_ = true ->
  (exists e, split_segment_by_day start end_ = Gen [] (Raised e) /\
             dt_lt end_ start <> inr false) \/
  (exists ys, split_segment_by_day start end_ = Gen ys Returned /\
              dt_lt end_ start = inr false /\
              chain start end_ ys /\ boundaries_ok ys /\
              Forall (piece_ok start) ys).
Proof.
  intros Hs He. unfold split_segment_by_day.
  destruct (dt_lt end_ start) as [e | [ | ]] eqn:L.
  - left. eexists. split; [reflexivity | discriminate].
  - left. eexists. split; [reflexivity | discriminate].
  - right. destruct (dt_eq end_ start).
    + exists [(start, end_)].
      split; [reflexivity | ]. split; [reflexivity | ]. split; [constructor | ].
      split; [constructor | ]. constructor; [ | constructor].
      unfold piece_ok; simpl; auto.
    + destruct (split_loop_returns end_ He _ start Hs (loop_bound_enough start end_))
        as (ys & E & C & B & P).
      exists ys. auto.
Qed.

End SplitFacts.

Import Calendar Instant Split SplitSpec CalendarFacts InstantFacts SplitFacts.

Lemma dt_eq_instant (a b : datetime) :
  datetime_ok a = true -> datetime_ok b = true ->
  dt_eq a b = true -> instant a = instant b.
Proof.
  intros Ha Hb. unfold dt_eq.
  destruct (dt_compare a b) as [c | ] eqn:C; [ | discriminate].
  pose proof (dt_compare_instant _ _ _ Ha Hb C) as Ec.
  destruct c; try discriminate. intros _. symmetry in Ec.
  now apply Z.compare_eq_iff in Ec.
Qed.

Lemma dt_lt_false_instant (a b : datetime) :
  datetime_ok a = true -> datetime_ok b = true ->
  dt_lt a b = inr false -> instant b <= instant a.
Proof.
  intros Ha Hb. unfold dt_lt.
  destruct (dt_compare a b) as [c | ] eqn:C; [ | discriminate].
  pose proof (dt_compare_instant _ _ _ Ha Hb C) as Ec.
  destruct c; try discriminate; intros _; symmetry in Ec;
    [apply Z.compare_eq_iff in Ec | apply Z.compare_gt_iff in Ec]; lia.
Qed.






(** C7: for valid instants, [split_segment_by_day] raises a
    [ValueError] exactly when [end_ < start], the one with the order
    message; and whenever it raises, it has yielded nothing. *)
Theorem C7_split_order_error (start end_ : datetime) :
  datetime_ok start = true -> datetime_ok end_ = true ->
  ((exists msg, ending (split_segment_by_day start end_) = Raised (ValueError msg))
   <-> dt_lt end_ start = inr true) /\
  (dt_lt end_ start = inr true ->
   split_segment_by_day start end_
   = Gen [] (Raised (ValueError (order_message start end_)))) /\
  (forall e, ending (split_segment_by_day start end_) = Raised e ->
             yielded (split_segment_by_day start end_) = []).
Proof.
  intros Hs He. split; [split | split].
  - intros (msg & E). revert E. unfold split_segment_by_day.
    destruct (dt_lt end_ start) as [e | [ | ]] eqn:L.
    + unfold dt_lt in L. destruct (dt_compare end_ start) as [[ | | ] | ];
        try discriminate. injection L as <-. discriminate.
    + reflexivity.
    + destruct (dt_eq end_ start); [discriminate | ].
      intros E. now apply split_loop_no_value_error in E.
  - intros L. unfold split_segment_by_day. rewrite L. simpl. eauto.
  - intros L. unfold split_segment_by_day. now rewrite L.
  - intros e E.
    destruct (split_outcome start end_ Hs He) as [(e' & -> & _) | (ys & R & _)];
      [reflexivity | ].
    rewrite R in E. discriminate.
Qed.

(** C7 at the swapped pair 00:30, 23:30 of the day before. *)
Lemma C7_split_order_error_witness :
  dt_lt Samples.before_midnight Samples.after_midnight = inr true /\
  split_segment_by_day Samples.after_midnight Samples.before_midnight
  = Gen [] (Raised (ValueError
      "Segment end is before start: 2024-01-02T00:30:00+00:00 -> 2024-01-01T23:30:00+00:00")).
Proof.
  split; [reflexivity | ].
  apply (C7_split_order_error Samples.after_midnight Samples.before_midnight);
    reflexivity.
Defined.

(* ================================================================== *)
(** * Facts about [build_segment_details] *)

Module SummaryFacts.
Import Summary SummarySpec.

Lemma mapping_or_missing_get (d : dict) (k : string) :
  mapping_or_missing d k = true -> dict_get d k empty = JObj (child d k).
Proof.
  unfold mapping_or_missing, dict_get, child, empty.
  destruct (lookup k d) as [[] | ]; try discriminate; reflexivity.
Qed.

Lemma or_null_path_one (d : dict) (k : string) :
  or_null (path_get d [k]) = dict_get d k JNull.
Proof. reflexivity. Qed.

Lemma or_null_path_step (d : dict) (k k' : string) (rest : list string) :
  mapping_or_missing d k = true ->
  or_null (path_get d (k :: k' :: rest)) = or_null (path_get (child d k) (k' :: rest)).
Proof.
  unfold mapping_or_missing, child. simpl.
  destruct (lookup k d) as [[] | ]; try discriminate; intros _; try reflexivity.
  now destruct rest.
Qed.

(** The activity branch on well-shaped input. *)
Lemma activity_details_ok (segment : dict) :
  let activity := child segment "activity" in
  mapping_or_missing segment "activity" = true ->
  mapping_or_missing activity "topCandidate" = true ->
  mapping_or_missing activity "start" = true ->
  mapping_or_missing activity "end" = true ->
  activity_details segment =
  Ok [("segmentType", JStr "activity");
      ("activityType", dict_get (child activity "topCandidate") "type" JNull);
      ("activityProbability", dict_get (child activity "topCandidate") "probability" JNull);
      ("segmentProbability", dict_get activity "probability" JNull);
      ("distanceMeters", dict_get activity "distanceMeters" JNull);
      ("startPoint", dict_get (child activity "start") "latLng" JNull);
      ("endPoint", dict_get (child activity "end") "latLng" JNull)].
Proof.
  intros activity Ha Ht Hs He. unfold activity_details.
  rewrite (mapping_or_missing_get _ _ Ha). fold activity.
  change (py_get (JObj activity) "topCandidate" empty)
    with (Ok (dict_get activity "topCandidate" empty)).
  change (py_get (JObj activity) "start" empty)
    with (Ok (dict_get activity "start" empty)).
  change (py_get (JObj activity) "end" empty)
    with (Ok (dict_get activity "end" empty)).
  simpl bind.
  rewrite (mapping_or_missing_get _ _ Ht), (mapping_or_missing_get _ _ Hs),
    (mapping_or_missing_get _ _ He).
  reflexivity.
Qed.

(** The visit branch on well-shaped input. *)
Lemma visit_details_ok (segment : dict) :
  let visit := child segment "visit" in
  let top := child visit "topCandidate" in
  mapping_or_missing segment "visit" = true ->
  mapping_or_missing visit "topCandidate" = true ->
  mapping_or_missing top "placeLocation" = true ->
  visit_details segment =
  Ok [("segmentType", JStr "visit");
      ("visitProbability", dict_get visit "probability" JNull);
      ("placeId", dict_get top "placeId" JNull);
      ("semanticType", dict_get top "semanticType" JNull);
      ("placeLocation", dict_get (child top "placeLocation") "latLng" JNull)].
Proof.
  intros visit top Hv Ht Hp. unfold visit_details.
  rewrite (mapping_or_missing_get _ _ Hv). fold visit.
  change (py_get (JObj visit) "topCandidate" empty)
    with (Ok (dict_get visit "topCandidate" empty)).
  simpl bind.
  rewrite (mapping_or_missing_get _ _ Ht). fold top.
  change (py_get (JObj top) "placeLocation" empty)
    with (Ok (dict_get top "placeLocation" empty)).
  simpl bind.
  rewrite (mapping_or_missing_get _ _ Hp).
  reflexivity.
Qed.

Lemma forallb_mapping_hd (l : list json) :
  forallb is_mapping l = true -> l <> [] -> exists o, hd JNull l = JObj o.
Proof.
  destruct l as [ | [] l]; simpl; try discriminate; try congruence.
  eauto.
Qed.

Lemma forallb_mapping_last (l : list json) :
  forallb is_mapping l = true -> l <> [] -> exists o, last l JNull = JObj o.
Proof.
  induction l as [ | x l IH]; [congruence | ].
  simpl forallb. rewrite andb_true_iff. intros (Hx & Hl) _.
  destruct l as [ | y l'].
  - destruct x; try discriminate. simpl. eauto.
  - change (last (x :: y :: l') JNull) with (last (y :: l') JNull).
    apply IH; [exact Hl | discriminate].
Qed.

(** The fallback branch on a missing path or a list of mappings. *)
Lemma path_details_ok (segment : dict) (flag : bool) :
  match lookup "timelinePath" segment with
  | None => true
  | Some (JArr l) => forallb is_mapping l
  | Some _ => false
  end = true ->
  exists d, path_details segment flag = Ok d.
Proof.
  unfold path_details, dict_get.
  destruct (lookup "timelinePath" segment) as [[ | | | | | l | ] | ];
    try discriminate; intros H.
  - destruct l as [ | x l'].
    + simpl. eauto.
    + destruct (forallb_mapping_hd _ H ltac:(discriminate)) as (o & Eo).
      destruct (forallb_mapping_last _ H ltac:(discriminate)) as (o' & Eo').
      unfold py_len, py_first, py_last. rewrite Eo, Eo'. simpl. eauto.
  - simpl. eauto.
Qed.

Lemma nested_ok_parts (segment : dict) :
  nested_ok segment = true ->
  let activity := child segment "activity" in
  let visit := child segment "visit" in
  mapping_or_missing segment "activity" = true /\
  mapping_or_missing activity "topCandidate" = true /\
  mapping_or_missing activity "start" = true /\
  mapping_or_missing activity "end" = true /\
  mapping_or_missing segment "visit" = true /\
  mapping_or_missing visit "topCandidate" = true /\
  mapping_or_missing (child visit "topCandidate") "placeLocation" = true /\
  match lookup "timelinePath" segment with
  | None => true
  | Some (JArr l) => forallb is_mapping l
  | Some _ => false
  end = true.
Proof.
  unfold nested_ok. rewrite !andb_true_iff. tauto.
Qed.

(** On well-shaped input the summarizer returns a summary. *)
Lemma build_segment_details_total (segment : dict) (flag : bool) :
  nested_ok segment = true ->
  exists d, build_segment_details segment flag = Ok d.
Proof.
  intros H. apply nested_ok_parts in H.
  destruct H as (Ha & Hat & Has & Hae & Hv & Hvt & Hvp & Hp).
  unfold build_segment_details.
  destruct (contains "activity" segment).
  - rewrite activity_details_ok by assumption. eauto.
  - destruct (contains "visit" segment).
    + rewrite visit_details_ok by assumption. eauto.
    + now apply path_details_ok.
Qed.

End SummaryFacts.

Import Summary SummarySpec SummaryFacts.

(** C2 as stated fails: a segment whose [activity] is null makes the
    summarizer raise [AttributeError]. *)
Lemma C2_counterexample :
  build_segment_details Samples.null_activity false = Raise AttributeError /\
  ~ (exists d, build_segment_details Samples.null_activity false = Ok d).
Proof.
  split; [reflexivity | ]. intros (d & H). discriminate H.
Qed.

(** C2, as the code has it: on a segment in which every nested
    structure the summarizer reads is missing or a mapping (and the
    path, if present, is a list of mappings), [build_segment_details]
    returns a summary, and each field of the summary holds what its
    place in the segment holds, null when the place is missing; with no
    path points the summary has no first or last point. *)
Theorem C2_summarizer_total (segment : dict) (flag : bool) :
  nested_ok segment = true ->
  exists d,
    build_segment_details segment flag = Ok d /\
    (contains "activity" segment = true ->
     Forall (reads segment d) activity_fields) /\
    (contains "activity" segment = false -> contains "visit" segment = true ->
     Forall (reads segment d) visit_fields) /\
    (contains "activity" segment = false -> contains "visit" segment = false ->
     dict_get segment "timelinePath" (JArr []) = JArr [] ->
     lookup "pointCount" d = Some (JInt 0) /\
     lookup "firstPoint" d = None /\ lookup "lastPoint" d = None).
Proof.
  intros H. pose proof (build_segment_details_total segment flag H) as (d & Ed).
  apply nested_ok_parts in H.
  destruct H as (Ha & Hat & Has & Hae & Hv & Hvt & Hvp & Hp).
  exists d. split; [exact Ed | ].
  revert Ed. unfold build_segment_details.
  destruct (contains "activity" segment); [ | destruct (contains "visit" segment)].
  - rewrite activity_details_ok by assumption. intros [= <-].
    split; [intros _ | split; discriminate].
    unfold activity_fields, reads.
    repeat constructor; simpl fst; simpl snd; simpl lookup;
      rewrite ?or_null_path_step, ?or_null_path_one by assumption; reflexivity.
  - rewrite visit_details_ok by assumption. intros [= <-].
    split; [discriminate | ]. split; [intros _ _ | discriminate].
    unfold visit_fields, reads.
    repeat constructor; simpl fst; simpl snd; simpl lookup;
      rewrite ?or_null_path_step, ?or_null_path_one by assumption; reflexivity.
  - intros Ed. split; [discriminate | ]. split; [discriminate | ].
    intros _ _ E. revert Ed. unfold path_details. rewrite E. simpl.
    destruct flag; intros [= <-]; simpl; auto.
Qed.

(** C2 on an activity that has no [topCandidate]: the type and the
    probability of the top candidate are null. *)
Lemma C2_summarizer_total_witness :
  nested_ok Samples.bare_activity = true /\
  exists d,
    build_segment_details Samples.bare_activity false = Ok d /\
    lookup "activityType" d = Some JNull /\
    lookup "activityProbability" d = Some JNull /\
    lookup "distanceMeters" d = Some (JInt 120).
Proof.
  split; [reflexivity | ].
  destruct (C2_summarizer_total Samples.bare_activity false eq_refl)
    as (d & E & A & _).
  exists d. split; [exact E | ].
  specialize (A eq_refl). unfold activity_fields in A.
  inversion A as [ | ? ? R1 A1]; subst. inversion A1 as [ | ? ? R2 A2]; subst.
  inversion A2 as [ | ? ? _ A3]; subst. inversion A3 as [ | ? ? R4 _]; subst.
  split; [exact R1 | ]. split; [exact R2 | exact R4].
Defined.

(** ** When each branch returns, and what *)

Lemma activity_shape_parts (segment : dict) :
  activity_shape segment = true ->
  mapping_or_missing segment "activity" = true /\
  mapping_or_missing (child segment "activity") "topCandidate" = true /\
  mapping_or_missing (child segment "activity") "start" = true /\
  mapping_or_missing (child segment "activity") "end" = true.
Proof.
  unfold activity_shape, child. unfold mapping_or_missing at 4.
  destruct (lookup "activity" segment) as [[] | ]; try discriminate.
  rewrite !andb_true_iff. tauto.
Qed.

Lemma activity_returns (segment : dict) :
  contains "activity" segment = true ->
  (exists d, activity_details segment = Ok d) <-> activity_shape segment = true.
Proof.
  intros Ca. split.
  - intros (d & H). revert H Ca.
    unfold activity_details, activity_shape, contains, dict_get, mapping_or_missing, empty.
    destruct (lookup "activity" segment) as [[ | | | | | | a] | ];
      cbn [py_get bind]; try discriminate.
    unfold dict_get.
    destruct (lookup "topCandidate" a) as [[] | ]; cbn [py_get bind]; try discriminate;
      destruct (lookup "start" a) as [[] | ]; cbn [py_get bind]; try discriminate;
      destruct (lookup "end" a) as [[] | ]; cbn [py_get bind]; try discriminate;
      reflexivity.
  - intros H. apply activity_shape_parts in H as (Ha & Ht & Hs & He).
    eexists. now apply activity_details_ok.
Qed.

Lemma activity_content (segment d : dict) :
  contains "activity" segment = true ->
  activity_details segment = Ok d ->
  map fst d = activity_keys /\
  lookup "segmentType" d = Some (JStr "activity") /\
  Forall (reads segment d) activity_fields.
Proof.
  intros Ca H.
  assert (S : activity_shape segment = true) by (apply activity_returns; eauto).
  apply activity_shape_parts in S as (Ha & Ht & Hs & He).
  rewrite activity_details_ok in H by assumption. injection H as <-.
  split; [reflexivity | ]. split; [reflexivity | ].
  unfold activity_fields, reads.
  repeat constructor; simpl fst; simpl snd; simpl lookup;
    rewrite ?or_null_path_step, ?or_null_path_one by assumption; reflexivity.
Qed.

Lemma visit_shape_parts (segment : dict) :
  visit_shape segment = true ->
  mapping_or_missing segment "visit" = true /\
  mapping_or_missing (child segment "visit") "topCandidate" = true /\
  mapping_or_missing (child (child segment "visit") "topCandidate") "placeLocation"
  = true.
Proof.
  unfold visit_shape.
  destruct (lookup "visit" segment) as [[ | | | | | | v] | ] eqn:L; try discriminate.
  rewrite andb_true_iff. intros (Ht & Hp).
  assert (E : child segment "visit" = v) by (unfold child; now rewrite L).
  rewrite E. split; [unfold mapping_or_missing; now rewrite L | auto].
Qed.

Lemma visit_returns (segment : dict) :
  contains "visit" segment = true ->
  (exists d, visit_details segment = Ok d) <-> visit_shape segment = true.
Proof.
  intros Cv. split.
  - intros (d & H). revert H Cv.
    unfold visit_details, visit_shape, contains, dict_get, child, mapping_or_missing, empty.
    destruct (lookup "visit" segment) as [[ | | | | | | v] | ];
      cbn [py_get bind]; try discriminate.
    unfold dict_get.
    destruct (lookup "topCandidate" v) as [[ | | | | | | t] | ];
      cbn [py_get bind lookup]; try discriminate; [ | reflexivity].
    unfold dict_get.
    destruct (lookup "placeLocation" t) as [[] | ]; cbn [py_get bind];
      try discriminate; reflexivity.
  - intros H. apply visit_shape_parts in H as (Hv & Ht & Hp).
    eexists. now apply visit_details_ok.
Qed.

Lemma visit_content (segment d : dict) :
  contains "visit" segment = true ->
  visit_details segment = Ok d ->
  map fst d = visit_keys /\
  lookup "segmentType" d = Some (JStr "visit") /\
  Forall (reads segment d) visit_fields.
Proof.
  intros Cv H.
  assert (S : visit_shape segment = true) by (apply visit_returns; eauto).
  apply visit_shape_parts in S as (Hv & Ht & Hp).
  rewrite visit_details_ok in H by assumption. injection H as <-.
  split; [reflexivity | ]. split; [reflexivity | ].
  unfold visit_fields, reads.
  repeat constructor; simpl fst; simpl snd; simpl lookup;
    rewrite ?or_null_path_step, ?or_null_path_one by assumption; reflexivity.
Qed.

(** What the fallback returns on each kind of path. *)
Lemma path_details_cases (segment : dict) (flag : bool) :
  let path := dict_get segment "timelinePath" (JArr []) in
  let tail := if flag then [("timelinePath", path)] else [] in
  match path with
  | JArr [] | JStr EmptyString | JObj [] =>
      path_details segment flag
      = Ok ([("segmentType", JStr "timelinePath"); ("pointCount", JInt 0)] ++ tail)%list
  | JArr l =>
      match hd JNull l, last l JNull with
      | JObj o0, JObj on =>
          path_details segment flag
          = Ok ([("segmentType", JStr "timelinePath");
                 ("pointCount", JInt (Z.of_nat (List.length l)));
                 ("firstPoint", dict_get o0 "point" JNull);
                 ("lastPoint", dict_get on "point" JNull)] ++ tail)%list
      | _, _ => exists e, path_details segment flag = Raise e
      end
  | _ => exists e, path_details segment flag = Raise e
  end.
Proof.
  unfold path_details.
  destruct (dict_get segment "timelinePath" (JArr [])) as [ | b | z | f | s | l | o];
    cbv zeta; try (cbn [py_len bind]; eauto; fail).
  - destruct s as [ | c s]; [destruct flag; reflexivity | ].
    cbn [py_len bind String.length Nat.ltb Nat.leb py_first py_get]. eauto.
  - destruct l as [ | x l]; [destruct flag; reflexivity | ].
    cbn [py_len bind List.length Nat.ltb Nat.leb py_first hd].
    destruct x; cbn [py_get bind]; eauto.
    unfold py_last. destruct (last (JObj fields :: l) JNull); cbn [py_get bind]; eauto.
    destruct flag; reflexivity.
  - destruct o as [ | p o]; [destruct flag; reflexivity | ].
    cbn [py_len bind List.length Nat.ltb Nat.leb py_first]. eauto.
Qed.

Lemma path_returns (segment : dict) (flag : bool) :
  (exists d, path_details segment flag = Ok d) <-> path_shape segment = true.
Proof.
  pose proof (path_details_cases segment flag) as H. cbv zeta in H.
  unfold path_shape.
  destruct (dict_get segment "timelinePath" (JArr [])) as [ | b | z | f | s | l | o].
  1-4: destruct H as (e & ->); split; [intros (d & D) | ]; discriminate.
  - destruct s; [split; eauto | ].
    destruct H as (e & ->); split; [intros (d & D) | ]; discriminate.
  - destruct l as [ | x l]; [split; eauto | ].
    cbn [hd] in *.
    destruct x; try (destruct H as (e & ->); split; [intros (d & D) | ]; discriminate).
    destruct (last (JObj fields :: l) JNull);
      try (destruct H as (e & ->); split; [intros (d & D) | ]; discriminate).
    split; eauto.
  - destruct o; [split; eauto | ].
    destruct H as (e & ->); split; [intros (d & D) | ]; discriminate.
Qed.

Lemma path_content (segment d : dict) (flag : bool) :
  path_details segment flag = Ok d ->
  map fst d = path_keys (has_points segment) flag /\
  lookup "segmentType" d = Some (JStr "timelinePath") /\
  (forall l,
      dict_get segment "timelinePath" (JArr []) = JArr l ->
      lookup "pointCount" d = Some (JInt (Z.of_nat (List.length l))) /\
      lookup "firstPoint" d
      = match l with [] => None | _ => Some (point_of (hd JNull l)) end /\
      lookup "lastPoint" d
      = match l with [] => None | _ => Some (point_of (last l JNull)) end) /\
  lookup "timelinePath" d
  = if flag then Some (dict_get segment "timelinePath" (JArr [])) else None.
Proof.
  pose proof (path_details_cases segment flag) as H. cbv zeta in H.
  unfold has_points.
  destruct (dict_get segment "timelinePath" (JArr [])) as [ | b | z | f | s | l | o].
  1-4: destruct H as (e & ->); discriminate.
  - destruct s; [ | destruct H as (e & ->); discriminate].
    rewrite H. intros [= <-].
    destruct flag; (split; [reflexivity | ]; split; [reflexivity | ];
                    split; [ | reflexivity]); discriminate.
  - destruct l as [ | x l].
    + rewrite H. intros [= <-].
      destruct flag; (split; [reflexivity | ]; split; [reflexivity | ];
                      split; [ | reflexivity]);
        intros l0 E; injection E as <-; repeat split; reflexivity.
    + cbn [hd] in H.
      destruct x; try (destruct H as (e & ->); discriminate).
      destruct (last (JObj fields :: l) JNull) eqn:L;
        try (destruct H as (e & ->); discriminate).
      rewrite H. intros [= <-].
      destruct flag; (split; [reflexivity | ]; split; [reflexivity | ];
                      split; [ | reflexivity]);
        intros l0 E; injection E as <-; rewrite L;
        (split; [reflexivity | ]; split; reflexivity).
  - destruct o; [ | destruct H as (e & ->); discriminate].
    rewrite H. intros [= <-].
    destruct flag; (split; [reflexivity | ]; split; [reflexivity | ];
                    split; [ | reflexivity]); discriminate.
Qed.

(** C6 as stated fails: with [activity] present but not a mapping no
    summary is produced, the visit beside it is not turned to, and the
    summarizer raises [AttributeError]. *)
Lemma C6_counterexample :
  contains "activity" Samples.text_activity = true /\
  contains "visit" Samples.text_activity = true /\
  (forall flag,
      build_segment_details Samples.text_activity flag = Raise AttributeError) /\
  ~ Stated.activity_produced_claim Samples.text_activity false.
Proof.
  split; [reflexivity | ]. split; [reflexivity | ]. split; [intros []; reflexivity | ].
  intros H. destruct (H eq_refl) as (d & E & _). discriminate E.
Qed.

(** C6, as the code has it: the variant follows key presence in the
    order activity, visit, path, and the branch taken returns a summary
    exactly when the payload it reads has the shape it expects; it
    raises otherwise.  With [activity] present the outcome depends on
    nothing but the value under [activity], and a summary has the seven
    keys of an activity, the tag "activity" and each field read from
    its place under [activity].  Without it and with [visit] present
    the same holds of the visit and its five keys.  With neither, the
    outcome depends on nothing but the path and the flag, and a
    summary has the tag "timelinePath", the point count, the [point] of
    the first and of the last element when there is one, and the path
    itself under "timelinePath" exactly when the flag is set. *)
Theorem C6_variant_precedence (segment : dict) (flag : bool) :
  (contains "activity" segment = true ->
   ((exists d, build_segment_details segment flag = Ok d)
    <-> activity_shape segment = true) /\
   (forall d, build_segment_details segment flag = Ok d ->
              map fst d = activity_keys /\
              lookup "segmentType" d = Some (JStr "activity") /\
              Forall (reads segment d) activity_fields) /\
   (forall other flag',
       lookup "activity" other = lookup "activity" segment ->
       build_segment_details other flag' = build_segment_details segment flag)) /\
  (contains "activity" segment = false -> contains "visit" segment = true ->
   ((exists d, build_segment_details segment flag = Ok d)
    <-> visit_shape segment = true) /\
   (forall d, build_segment_details segment flag = Ok d ->
              map fst d = visit_keys /\
              lookup "segmentType" d = Some (JStr "visit") /\
              Forall (reads segment d) visit_fields) /\
   (forall other flag',
       contains "activity" other = false ->
       lookup "visit" other = lookup "visit" segment ->
       build_segment_details other flag' = build_segment_details segment flag)) /\
  (contains "activity" segment = false -> contains "visit" segment = false ->
   ((exists d, build_segment_details segment flag = Ok d)
    <-> path_shape segment = true) /\
   (forall d, build_segment_details segment flag = Ok d ->
              map fst d = path_keys (has_points segment) flag /\
              lookup "segmentType" d = Some (JStr "timelinePath") /\
              (forall l,
                  dict_get segment "timelinePath" (JArr []) = JArr l ->
                  lookup "pointCount" d = Some (JInt (Z.of_nat (List.length l))) /\
                  lookup "firstPoint" d
                  = match l with [] => None | _ => Some (point_of (hd JNull l)) end /\
                  lookup "lastPoint" d
                  = match l with [] => None | _ => Some (point_of (last l JNull)) end) /\
              lookup "timelinePath" d
              = if flag then Some (dict_get segment "timelinePath" (JArr []))
                else None) /\
   (forall other,
       contains "activity" other = false -> contains "visit" other = false ->
       lookup "timelinePath" other = lookup "timelinePath" segment ->
       build_segment_details other flag = build_segment_details segment flag)).
Proof.
  split; [ | split].
  - intros Ca. unfold build_segment_details. rewrite Ca.
    split; [now apply activity_returns | ].
    split; [intros d; now apply activity_content | ].
    intros other flag' E. unfold contains in *.
    rewrite E. destruct (lookup "activity" segment) eqn:L; [ | discriminate].
    unfold activity_details, dict_get. now rewrite E, L.
  - intros Ca Cv. unfold build_segment_details. rewrite Ca, Cv.
    split; [now apply visit_returns | ].
    split; [intros d; now apply visit_content | ].
    intros other flag' Ca' E. rewrite Ca'. unfold contains in *. rewrite E.
    destruct (lookup "visit" segment) eqn:L; [ | discriminate].
    unfold visit_details, dict_get. now rewrite E, L.
  - intros Ca Cv. unfold build_segment_details at 1 2. rewrite Ca, Cv.
    split; [apply path_returns | ].
    split; [intros d; apply path_content | ].
    intros other Ca' Cv' E. unfold build_segment_details.
    rewrite Ca, Cv, Ca', Cv'. unfold path_details, dict_get. now rewrite E.
Qed.

(** C6 on a record that carries all three payload keys: the activity
    summary is produced, with the keys of an activity, whatever the
    flag. *)
Lemma C6_variant_precedence_witness :
  contains "activity" Samples.all_payloads = true /\
  exists d,
    build_segment_details Samples.all_payloads true = Ok d /\
    map fst d = activity_keys /\
    lookup "segmentType" d = Some (JStr "activity") /\
    lookup "timelinePath" d = None /\
    build_segment_details Samples.all_payloads false = Ok d.
Proof.
  split; [reflexivity | ].
  destruct (C6_variant_precedence Samples.all_payloads true) as (A & _).
  destruct (A eq_refl) as (Iff & Content & Same).
  destruct (proj2 Iff eq_refl) as (d & E).
  destruct (Content d E) as (K & T & _).
  exists d. split; [exact E | ]. split; [exact K | ]. split; [exact T | ]. split.
  - assert (N : ~ In "timelinePath" (map fst d)).
    { rewrite K. unfold activity_keys. simpl. intuition discriminate. }
    destruct (lookup "timelinePath" d) as [v | ] eqn:L; [ | reflexivity].
    exfalso. apply N. clear - L. induction d as [ | [k x] d IH]; [discriminate | ].
    simpl in *. destruct (String.eqb_spec k "timelinePath"); [now left | ].
    right. now apply IH.
  - rewrite <- E. apply Same. reflexivity.
Defined.

(* ================================================================== *)
(** * Facts about rendered text *)

Module TextFacts.
Import Calendar Text Instant CalendarFacts.

Lemma string_length_app (x y : string) :
  String.length (x ++ y) = (String.length x + String.length y)%nat.
Proof. induction x; simpl; congruence. Qed.

Lemma digits_length (w : nat) (n : Z) : String.length (digits w n) = w.
Proof.
  revert n. induction w as [ | w IH]; intros n; simpl; [reflexivity | ].
  rewrite string_length_app, IH. simpl. lia.
Qed.

(** Texts of one length compare before what follows them. *)
Lemma compare_app (x y s t : string) :
  String.length x = String.length y ->
  String.compare (x ++ s) (y ++ t) =
  match String.compare x y with
  | Eq => String.compare s t
  | c => c
  end.
Proof.
  revert y. induction x as [ | a x IH]; intros [ | b y]; simpl; try discriminate.
  - reflexivity.
  - intros [= H]. destruct (Ascii.compare a b); auto.
Qed.

Lemma digit_compare (a b : Z) :
  Ascii.compare (digit a) (digit b) = (a mod 10 ?= b mod 10).
Proof.
  unfold digit, Ascii.compare.
  pose proof (Z.mod_pos_bound a 10 ltac:(lia)) as Ha.
  pose proof (Z.mod_pos_bound b 10 ltac:(lia)) as Hb.
  rewrite !N_ascii_embedding by lia.
  rewrite N.compare_antisym, Z.compare_antisym. f_equal.
  destruct (Z.compare_spec (b mod 10) (a mod 10));
    [apply N.compare_eq_iff | apply N.compare_lt_iff | apply N.compare_gt_iff]; lia.
Qed.

(** Zero-padded numbers of one width compare as the numbers do. *)
Lemma digits_compare (w : nat) (a b : Z) :
  0 <= a < 10 ^ Z.of_nat w -> 0 <= b < 10 ^ Z.of_nat w ->
  String.compare (digits w a) (digits w b) = (a ?= b).
Proof.
  revert a b. induction w as [ | w IH]; intros a b Ha Hb.
  - simpl in *. assert (a = 0) by lia. assert (b = 0) by lia. now subst.
  - rewrite Nat2Z.inj_succ, Z.pow_succ_r in Ha, Hb by lia.
    simpl. rewrite compare_app by now rewrite !digits_length.
    rewrite IH by (split; [apply Z.div_pos | apply Z.div_lt_upper_bound]; lia).
    simpl. rewrite digit_compare.
    pose proof (Z.div_mod a 10 ltac:(lia)). pose proof (Z.div_mod b 10 ltac:(lia)).
    pose proof (Z.mod_pos_bound a 10 ltac:(lia)).
    pose proof (Z.mod_pos_bound b 10 ltac:(lia)).
    symmetry.
    destruct (Z.compare_spec (a / 10) (b / 10));
      [ destruct (Z.compare_spec (a mod 10) (b mod 10)) | | ];
      first [apply Z.compare_eq_iff; lia | apply Z.compare_lt_iff; lia
            | apply Z.compare_gt_iff; lia].
Qed.

Lemma ndigits_aux_le (fuel : nat) :
  forall (w : nat) (n : Z),
    (1 <= w)%nat -> 0 <= n < 10 ^ Z.of_nat w -> (ndigits_aux fuel n <= w)%nat.
Proof.
  induction fuel as [ | fuel IH]; intros w n Hw Hn; simpl; [exact Hw | ].
  destruct (Z.ltb_spec n 10); [exact Hw | ].
  destruct w as [ | w]; [lia | ].
  rewrite Nat2Z.inj_succ, Z.pow_succ_r in Hn by lia.
  destruct w as [ | w]; [simpl in Hn; lia | ].
  apply le_n_S. apply IH; [lia | ].
  split; [apply Z.div_pos | apply Z.div_lt_upper_bound]; lia.
Qed.

(** A number that fits the width is rendered with exactly that width. *)
Lemma fmt_d_digits (w : nat) (n : Z) :
  (1 <= w)%nat -> 0 <= n < 10 ^ Z.of_nat w -> fmt_d w n = digits w n.
Proof.
  intros Hw Hn. unfold fmt_d, ndigits.
  rewrite Nat.max_l; [reflexivity | now apply ndigits_aux_le].
Qed.

Lemma days_in_month_le (y m : Z) : days_in_month y m <= 31.
Proof.
  unfold days_in_month.
  destruct m as [ | p | p]; try lia.
  repeat (destruct p as [p | p | ]; try lia; try (destruct (is_leap y); lia)).
Qed.

Lemma compare_dash (x y : string) :
  String.compare ("-" ++ x) ("-" ++ y) = String.compare x y.
Proof. reflexivity. Qed.

Lemma date_isoformat_digits (d : date) :
  date_ok d = true ->
  date_isoformat d =
  (digits 4 (year d) ++ "-" ++ digits 2 (month d) ++ "-" ++ digits 2 (day d))%string.
Proof.
  rewrite date_ok_iff. intros (Hy & Hm & Hd).
  pose proof (days_in_month_le (year d) (month d)).
  unfold date_isoformat.
  rewrite !fmt_d_digits by (simpl; lia). reflexivity.
Qed.

Lemma date_isoformat_length (d : date) :
  date_ok d = true -> String.length (date_isoformat d) = 10%nat.
Proof.
  intros H. rewrite date_isoformat_digits by assumption.
  rewrite !string_length_app, !digits_length. reflexivity.
Qed.

(** Rendered dates compare as the dates do. *)
Lemma date_isoformat_compare (a b : date) :
  date_ok a = true -> date_ok b = true ->
  String.compare (date_isoformat a) (date_isoformat b) = date_compare a b.
Proof.
  intros Ha Hb. rewrite !date_isoformat_digits by assumption.
  apply date_ok_iff in Ha, Hb.
  destruct Ha as (Hya & Hma & Hda), Hb as (Hyb & Hmb & Hdb).
  pose proof (days_in_month_le (year a) (month a)).
  pose proof (days_in_month_le (year b) (month b)).
  unfold date_compare.
  rewrite compare_app by now rewrite !digits_length.
  rewrite digits_compare by (simpl; lia).
  destruct (year a ?= year b); try reflexivity.
  rewrite compare_dash.
  rewrite compare_app by now rewrite !digits_length.
  rewrite digits_compare by (simpl; lia).
  destruct (month a ?= month b); try reflexivity.
  rewrite compare_dash.
  apply digits_compare; simpl; lia.
Qed.

Lemma substring_app (x y : string) :
  substring 0 (String.length x) (x ++ y) = x.
Proof.
  induction x as [ | a x IH]; simpl.
  - now destruct y.
  - now rewrite IH.
Qed.

(** The first ten characters of a rendered instant are its date. *)
Lemma isoformat_date (t : datetime) :
  date_ok (date_of t) = true ->
  substring 0 10 (isoformat t) = date_isoformat (date_of t).
Proof.
  intros H. unfold isoformat.
  rewrite <- (date_isoformat_length _ H). apply substring_app.
Qed.

End TextFacts.

(* ================================================================== *)
(** * Facts about the stable sort *)

Module SortFacts.
Import Partition.

Lemma compare_lt_trans (a b c : string) :
  String.compare a b = Lt -> String.compare b c = Lt -> String.compare a c = Lt.
Proof.
  intros H1 H2. apply OrderedTypeEx.String_as_OT.cmp_lt.
  apply OrderedTypeEx.String_as_OT.cmp_lt in H1, H2.
  eapply OrderedTypeEx.String_as_OT.lt_trans; eassumption.
Qed.

Lemma leb_trans (a b c : string) :
  String.leb a b = true -> String.leb b c = true -> String.leb a c = true.
Proof.
  unfold String.leb.
  destruct (String.compare a b) eqn:Hab; try discriminate;
    destruct (String.compare b c) eqn:Hbc; try discriminate; intros _ _.
  - apply String.compare_eq_iff in Hab. rewrite Hab. now rewrite Hbc.
  - apply String.compare_eq_iff in Hab. rewrite Hab. now rewrite Hbc.
  - apply String.compare_eq_iff in Hbc. rewrite <- Hbc. now rewrite Hab.
  - now rewrite (compare_lt_trans a b c).
Qed.

Lemma leb_false_flip (a b : string) :
  String.leb a b = false -> String.leb b a = true.
Proof. destruct (String.leb_total a b); congruence. Qed.

Lemma leb_neq_ltb (a b : string) :
  String.leb a b = true -> a <> b -> String.ltb a b = true.
Proof.
  unfold String.leb, String.ltb.
  destruct (String.compare a b) eqn:C; try discriminate; [ | reflexivity].
  apply String.compare_eq_iff in C. congruence.
Qed.

Section ByKey.
Context {A : Type} (key : A -> string).

Lemma insert_by_perm (x : A) (l : list A) :
  Permutation (insert_by key x l) (x :: l).
Proof.
  induction l as [ | y l IH]; simpl; [reflexivity | ].
  destruct (String.leb (key x) (key y)); [reflexivity | ].
  rewrite IH. apply perm_swap.
Qed.

Lemma sort_by_perm (l : list A) : Permutation (sort_by key l) l.
Proof.
  induction l as [ | x l IH]; simpl; [reflexivity | ].
  rewrite insert_by_perm. now constructor.
Qed.

Lemma insert_by_sorted (x : A) (l : list A) :
  StronglySorted (key_le key) l -> StronglySorted (key_le key) (insert_by key x l).
Proof.
  induction 1 as [ | y l S IH F]; simpl.
  - repeat constructor.
  - destruct (String.leb (key x) (key y)) eqn:L.
    + constructor; [now constructor | ].
      constructor; [exact L | ].
      eapply Forall_impl; [ | exact F]. intros z Hz.
      unfold key_le in *. eapply leb_trans; eassumption.
    + constructor; [exact IH | ].
      apply leb_false_flip in L.
      eapply Permutation_Forall; [symmetry; apply insert_by_perm | ].
      now constructor.
Qed.

Lemma sort_by_sorted (l : list A) : StronglySorted (key_le key) (sort_by key l).
Proof.
  induction l as [ | x l IH]; simpl; [constructor | ].
  now apply insert_by_sorted.
Qed.

(** A list sorted by distinct keys is the only sorted arrangement of
    its elements. *)
Lemma sorted_perm_unique (l1 l2 : list A) :
  StronglySorted (key_le key) l1 -> StronglySorted (key_le key) l2 ->
  Permutation l1 l2 -> NoDup (map key l1) -> l1 = l2.
Proof.
  intros S1. revert l2. induction S1 as [ | x l1 S1 IH F1]; intros l2 S2 P N.
  - apply Permutation_nil in P. now subst.
  - destruct S2 as [ | y l2 S2 F2].
    + apply Permutation_sym, Permutation_nil in P. discriminate.
    + assert (x = y) as ->.
      { assert (Ix : In x (y :: l2)) by (eapply Permutation_in; [exact P | now left]).
        assert (Iy : In y (x :: l1))
          by (eapply Permutation_in; [symmetry; exact P | now left]).
        destruct Ix as [-> | Ix]; [reflexivity | ].
        destruct Iy as [-> | Iy]; [reflexivity | ].
        rewrite Forall_forall in F1, F2.
        pose proof (String.leb_antisym _ _ (F1 _ Iy) (F2 _ Ix)) as E.
        inversion N as [ | ? ? Nx _]; subst.
        exfalso. apply Nx. rewrite E. now apply in_map. }
      f_equal. apply IH; [exact S2 | | ].
      * eapply Permutation_cons_inv; exact P.
      * now inversion N.
Qed.

(** Sorting does not depend on the order of the input when the keys
    are distinct. *)
Lemma sort_by_perm_eq (l1 l2 : list A) :
  Permutation l1 l2 -> NoDup (map key l1) -> sort_by key l1 = sort_by key l2.
Proof.
  intros P N. apply sorted_perm_unique; try apply sort_by_sorted.
  - now rewrite !sort_by_perm.
  - eapply Permutation_NoDup; [ | exact N].
    apply Permutation_map. symmetry. apply sort_by_perm.
Qed.

Lemma sort_by_nil (l : list A) : sort_by key l = [] -> l = [].
Proof.
  intros H. pose proof (sort_by_perm l) as P. rewrite H in P.
  now apply Permutation_nil in P.
Qed.
End ByKey.

(** Sorted distinct texts are strictly ascending. *)
Lemma sorted_nodup_strict (l : list string) :
  StronglySorted (key_le (fun k => k)) l -> NoDup l ->
  StronglySorted (fun a b => String.ltb a b = true) l.
Proof.
  induction 1 as [ | x l S IH F]; intros N; constructor.
  - apply IH. now inversion N.
  - inversion N as [ | ? ? Nx _]; subst.
    rewrite Forall_forall in *. intros y Hy.
    apply leb_neq_ltb; [now apply F | ]. intros ->. contradiction.
Qed.

End SortFacts.

(* ================================================================== *)
(** * Facts about the day buckets *)

Module BucketFacts.
Import Summary Partition PartitionSpec SortFacts.

Lemma bucket_lookup_append (k k' : string) (x : slice) (days : buckets) :
  bucket_lookup k (bucket_append k' x days) =
  if String.eqb k' k then (bucket_lookup k days ++ [x])%list
  else bucket_lookup k days.
Proof.
  induction days as [ | [k0 b] rest IH]; simpl.
  - now destruct (String.eqb k' k).
  - destruct (String.eqb_spec k0 k') as [-> | N]; simpl.
    + now destruct (String.eqb k' k).
    + rewrite IH. destruct (String.eqb_spec k0 k) as [-> | N']; [ | reflexivity].
      destruct (String.eqb_spec k' k); congruence.
Qed.

Lemma filed_under_cons (k : string) (e : entry) (es : list entry) :
  filed_under k (e :: es) =
  if String.eqb (fst e) k then snd e :: filed_under k es else filed_under k es.
Proof. unfold filed_under. simpl. now destruct (String.eqb (fst e) k). Qed.

(** A bucket holds, in order, what was filed under its key. *)
Lemma bucket_lookup_group (k : string) (es : list entry) :
  forall days,
    bucket_lookup k (group es days) = (bucket_lookup k days ++ filed_under k es)%list.
Proof.
  induction es as [ | e es IH]; intros days; simpl.
  - unfold filed_under. simpl. now rewrite app_nil_r.
  - fold (group es (bucket_append (fst e) (snd e) days)).
    rewrite IH, bucket_lookup_append, filed_under_cons.
    destruct (String.eqb (fst e) k); [ | reflexivity].
    now rewrite <- app_assoc.
Qed.

Lemma keys_append (k : string) (x : slice) (days : buckets) :
  map fst (bucket_append k x days) =
  if in_dec string_dec k (map fst days) then map fst days
  else (map fst days ++ [k])%list.
Proof.
  induction days as [ | [k0 b] rest IH]; simpl; [reflexivity | ].
  destruct (String.eqb_spec k0 k) as [-> | N]; simpl.
  - destruct (string_dec k k); [reflexivity | congruence].
  - rewrite IH. destruct (string_dec k0 k); [congruence | ].
    now destruct (in_dec string_dec k (map fst rest)).
Qed.

Lemma keys_append_in (k k' : string) (x : slice) (days : buckets) :
  In k (map fst (bucket_append k' x days)) <-> k = k' \/ In k (map fst days).
Proof.
  rewrite keys_append. destruct (in_dec string_dec k' (map fst days)).
  - split; [auto | ]. intros [-> | ]; assumption.
  - rewrite in_app_iff. simpl. intuition.
Qed.

Lemma keys_append_nodup (k : string) (x : slice) (days : buckets) :
  NoDup (map fst days) -> NoDup (map fst (bucket_append k x days)).
Proof.
  intros N. rewrite keys_append.
  destruct (in_dec string_dec k (map fst days)) as [ | NI]; [exact N | ].
  apply NoDup_app; [exact N | repeat constructor; auto | ].
  intros y Hy [<- | []]. contradiction.
Qed.

Lemma keys_group_in (k : string) (es : list entry) :
  forall days,
    In k (map fst (group es days)) <-> In k (map fst days) \/ In k (map fst es).
Proof.
  induction es as [ | e es IH]; intros days; simpl.
  - tauto.
  - fold (group es (bucket_append (fst e) (snd e) days)).
    rewrite IH, keys_append_in. intuition.
Qed.

Lemma keys_group_nodup (es : list entry) :
  forall days, NoDup (map fst days) -> NoDup (map fst (group es days)).
Proof.
  induction es as [ | e es IH]; intros days N; simpl; [exact N | ].
  apply IH. now apply keys_append_nodup.
Qed.

Lemma group_app (es es' : list entry) (days : buckets) :
  group (es ++ es') days = group es' (group es days).
Proof. unfold group. apply fold_left_app. Qed.

Lemma filed_under_in (k : string) (s : slice) (es : list entry) :
  In s (filed_under k es) <-> In (k, s) es.
Proof.
  unfold filed_under. rewrite in_map_iff. split.
  - intros ([k' s'] & <- & H). apply filter_In in H. simpl in *.
    destruct H as (H & E). apply String.eqb_eq in E. now subst.
  - intros H. exists (k, s). split; [reflexivity | ].
    apply filter_In. split; [exact H | ]. simpl. apply String.eqb_refl.
Qed.

Lemma filed_under_perm (k : string) (es es' : list entry) :
  Permutation es es' -> Permutation (filed_under k es) (filed_under k es').
Proof.
  intros P. unfold filed_under. apply Permutation_map.
  induction P; simpl.
  - constructor.
  - destruct (String.eqb (fst x) k); [now constructor | assumption].
  - destruct (String.eqb (fst x) k), (String.eqb (fst y) k);
      try reflexivity. apply perm_swap.
  - etransitivity; eassumption.
Qed.

Lemma sort_buckets_keys (days : buckets) :
  map fst (sort_buckets days) = map fst days.
Proof.
  unfold sort_buckets. rewrite map_map. apply map_ext. now intros [k b].
Qed.

Lemma sort_buckets_lookup (k : string) (days : buckets) :
  bucket_lookup k (sort_buckets days) = sort_by startTime (bucket_lookup k days).
Proof.
  induction days as [ | [k0 b] rest IH]; simpl; [reflexivity | ].
  now destruct (String.eqb k0 k).
Qed.

(** The returned mapping: the keys in ascending order, each with the
    sorted list of what was filed under it. *)
Lemma finish_group (es : list entry) :
  finish (group es []) =
  map (fun k => (k, sort_by startTime (filed_under k es)))
      (sort_by (fun k => k) (map fst (group es []))).
Proof.
  unfold finish, sorted_keys. fold (sort_buckets (group es [])).
  rewrite sort_buckets_keys. apply map_ext. intros k.
  now rewrite sort_buckets_lookup, bucket_lookup_group.
Qed.

Lemma finish_keys (es : list entry) :
  map fst (finish (group es [])) = sort_by (fun k => k) (map fst (group es [])).
Proof. rewrite finish_group, map_map. simpl. apply map_id. Qed.

Lemma finish_in (es : list entry) (k : string) (b : list slice) :
  In (k, b) (finish (group es [])) ->
  In k (map fst es) /\ b = sort_by startTime (filed_under k es).
Proof.
  rewrite finish_group, in_map_iff. intros (k' & [= <- <-] & H).
  split; [ | reflexivity].
  eapply Permutation_in in H; [ | apply sort_by_perm].
  apply keys_group_in in H. destruct H as [[] | H]. exact H.
Qed.

Lemma finish_keys_nodup (es : list entry) :
  NoDup (map fst (finish (group es []))).
Proof.
  rewrite finish_keys.
  eapply Permutation_NoDup; [symmetry; apply sort_by_perm | ].
  apply keys_group_nodup. constructor.
Qed.

End BucketFacts.

(* ================================================================== *)
(** * Facts about a run of [parse_by_day] *)

Module RunFacts.
Import Calendar Text Instant Split SplitSpec Summary Partition PartitionSpec.
Import InstantFacts SplitFacts TextFacts SortFacts BucketFacts.

Lemma bind_ok {A B} (r : result A) (k : A -> result B) (b : B) :
  bind r k = Ok b -> exists a, r = Ok a /\ k a = Ok b.
Proof. destruct r; simpl; try discriminate. eauto. Qed.

Section WithParser.
Variable fields : string -> option datetime.
Variable flag : bool.

Lemma fromisoformat_ok (s : string) (t : datetime) :
  fromisoformat fields s = Ok t -> datetime_ok t = true.
Proof.
  unfold fromisoformat. destruct (fields s) as [t' | ]; [ | discriminate].
  destruct (datetime_ok t') eqn:E; [ | discriminate]. now intros [= <-].
Qed.

(** Whatever parses is a valid instant. *)
Lemma parse_iso8601_ok (v : json) (t : datetime) :
  parse_iso8601 fields v = Ok t -> datetime_ok t = true.
Proof.
  unfold parse_iso8601. destruct v; try discriminate. apply fromisoformat_ok.
Qed.

Lemma add_slices_spec (index : nat) (segment details : dict) (ivs : list interval) :
  forall days,
    add_slices index segment details ivs days =
    (es <- slice_entries index segment details ivs ;; Ok (group es days)).
Proof.
  induction ivs as [ | [s e] ivs IH]; intros days; simpl; [reflexivity | ].
  unfold slice_entry. simpl fst. simpl snd.
  destruct (lift_sum (dt_sub e s)) as [us | | ]; simpl; try reflexivity.
  destruct (dict_getitem segment "startTime") as [os | | ]; simpl; try reflexivity.
  destruct (dict_getitem segment "endTime") as [oe | | ]; simpl; try reflexivity.
  rewrite IH.
  now destruct (slice_entries index segment details ivs).
Qed.

Lemma add_segment_spec (index : nat) (segment : json) (days : buckets) :
  add_segment fields flag index segment days =
  (es <- segment_entries fields flag (index, segment) ;; Ok (group es days)).
Proof.
  unfold add_segment, segment_entries. simpl fst. simpl snd.
  destruct segment as [ | | | | | | seg]; try reflexivity.
  destruct (dict_getitem seg "startTime") as [st | | ]; simpl; try reflexivity.
  destruct (parse_iso8601 fields st) as [start | | ]; simpl; try reflexivity.
  destruct (dict_getitem seg "endTime") as [et | | ]; simpl; try reflexivity.
  destruct (parse_iso8601 fields et) as [end_ | | ]; simpl; try reflexivity.
  destruct (build_segment_details seg flag) as [details | | ]; simpl; try reflexivity.
  rewrite add_slices_spec.
  destruct (slice_entries index seg details _) as [es | | ]; simpl; try reflexivity.
  now destruct (ending _).
Qed.

Lemma add_segments_spec (indexed : list (nat * json)) :
  forall days,
    add_segments fields flag indexed days =
    (es <- all_entries fields flag indexed ;; Ok (group es days)).
Proof.
  induction indexed as [ | [i seg] rest IH]; intros days; simpl; [reflexivity | ].
  rewrite add_segment_spec.
  destruct (segment_entries fields flag (i, seg)) as [es | | ]; simpl; try reflexivity.
  rewrite IH.
  destruct (all_entries fields flag rest) as [es' | | ]; simpl; try reflexivity.
  now rewrite group_app.
Qed.

(** [parse_by_day] files the entries of all segments and sorts. *)
Lemma parse_indexed_spec (indexed : list (nat * json)) :
  parse_indexed fields flag indexed =
  (es <- all_entries fields flag indexed ;; Ok (finish (group es []))).
Proof.
  unfold parse_indexed. rewrite add_segments_spec.
  now destruct (all_entries fields flag indexed).
Qed.

Lemma dt_sub_instant (a b : datetime) :
  aware a = aware b -> dt_sub a b = inr (instant a - instant b).
Proof.
  unfold aware, dt_sub, instant, offset_us, utc_us.
  destruct (tzinfo a), (tzinfo b); try discriminate; intros _; f_equal; lia.
Qed.

Lemma dt_lt_aware (a b : datetime) (r : bool) :
  dt_lt a b = inr r -> aware a = aware b.
Proof.
  unfold dt_lt, dt_compare, aware.
  destruct (tzinfo a), (tzinfo b); try reflexivity; discriminate.
Qed.

Lemma chain_head (a b : datetime) (l : list interval) :
  chain a b l -> exists x r, l = (a, x) :: r.
Proof. destruct 1; eauto. Qed.

(** In a chain whose starts are of one awareness, the ends are too. *)
Lemma chain_aware (a b : datetime) (l : list interval) (w : bool) :
  chain a b l -> aware b = w ->
  Forall (fun iv => aware (fst iv) = w) l ->
  Forall (fun iv => aware (snd iv) = aware (fst iv)) l.
Proof.
  induction 1 as [a b | a m b l C IH]; intros Hb F.
  - constructor; [ | constructor]. inversion F; subst. simpl in *. congruence.
  - inversion F as [ | ? ? Ha F']; subst. constructor; [ | now apply IH].
    simpl in *. destruct (chain_head _ _ _ C) as (x & r & ->).
    inversion F' as [ | ? ? Hm _]; subst. simpl in Hm. congruence.
Qed.

(** The entries made from intervals whose ends are of one awareness. *)
Lemma slice_entries_ok (index : nat) (segment details : dict) os oe
      (ivs : list interval) :
  dict_getitem segment "startTime" = Ok os ->
  dict_getitem segment "endTime" = Ok oe ->
  Forall (fun iv => aware (snd iv) = aware (fst iv)) ivs ->
  exists es,
    slice_entries index segment details ivs = Ok es /\
    Forall2 (made_from index os oe details) ivs es.
Proof.
  intros Hs He. induction 1 as [ | [s e] ivs Haw F IH]; simpl.
  - exists []. split; [reflexivity | constructor].
  - destruct IH as (es & E & F2).
    unfold slice_entry. simpl fst in *. simpl snd in *.
    rewrite (dt_sub_instant _ _ Haw), Hs, He, E. simpl.
    eexists. split; [reflexivity | ]. constructor; [ | exact F2].
    reflexivity.
Qed.

(** What a segment that is processed without error has gone through:
    both texts parse to valid instants with the end not before the
    start, the summary is built, the split runs to its end, and each
    interval makes one entry. *)
Lemma segment_entries_ok (index : nat) (seg : dict) (es : list entry) :
  segment_entries fields flag (index, JObj seg) = Ok es ->
  exists start end_ details ys os oe,
    dict_getitem seg "startTime" = Ok os /\
    dict_getitem seg "endTime" = Ok oe /\
    segment_span fields seg = Ok (start, end_) /\
    datetime_ok start = true /\ datetime_ok end_ = true /\
    build_segment_details seg flag = Ok details /\
    dt_lt end_ start = inr false /\
    split_segment_by_day start end_ = Gen ys Returned /\
    chain start end_ ys /\
    Forall (piece_ok start) ys /\
    Forall2 (made_from index os oe details) ys es.
Proof.
  unfold segment_entries, segment_span. cbn [fst snd]. intros H.
  apply bind_ok in H as (os & Eos & H).
  apply bind_ok in H as (start & Es & H).
  apply bind_ok in H as (oe & Eoe & H).
  apply bind_ok in H as (end_ & Ee & H).
  apply bind_ok in H as (details & Ed & H).
  apply bind_ok in H as (es' & Ees & H).
  pose proof (parse_iso8601_ok _ _ Es) as Hs.
  pose proof (parse_iso8601_ok _ _ Ee) as He.
  destruct (split_outcome start end_ Hs He)
    as [(e & R & _) | (ys & R & L & C & _ & P)]; rewrite R in *;
    cbn [yielded ending] in *; [discriminate | ].
  injection H as <-.
  assert (Aw : Forall (fun iv => aware (snd iv) = aware (fst iv)) ys).
  { apply (chain_aware start end_ ys (aware start) C).
    - eapply dt_lt_aware; eassumption.
    - eapply Forall_impl; [ | exact P]. intros iv (_ & _ & T).
      unfold aware. now rewrite T. }
  destruct (slice_entries_ok index seg details os oe ys Eos Eoe Aw) as (es'' & E'' & F2).
  rewrite E'' in Ees. injection Ees as <-.
  exists start, end_, details, ys, os, oe.
  rewrite Eos; cbn [bind]. rewrite Es; cbn [bind].
  rewrite Eoe; cbn [bind]. rewrite Ee; cbn [bind].
  repeat (split; [first [assumption | reflexivity] | ]).
  exact F2.
Qed.

Lemma bind_fuel {A B} (r : result A) (k : A -> result B) :
  r <> NoFuel -> (forall a, r = Ok a -> k a <> NoFuel) -> bind r k <> NoFuel.
Proof. destruct r; simpl; auto; discriminate. Qed.

Lemma dict_getitem_fuel (d : dict) (k : string) : dict_getitem d k <> NoFuel.
Proof. unfold dict_getitem. destruct (lookup k d); discriminate. Qed.

Lemma py_get_fuel (v : json) (k : string) (default : json) :
  py_get v k default <> NoFuel.
Proof. destruct v; discriminate. Qed.

Lemma parse_iso8601_fuel (v : json) : parse_iso8601 fields v <> NoFuel.
Proof.
  unfold parse_iso8601, fromisoformat. destruct v; try discriminate.
  destruct (fields _); try discriminate. destruct (datetime_ok _); discriminate.
Qed.

Lemma build_segment_details_fuel (seg : dict) :
  build_segment_details seg flag <> NoFuel.
Proof.
  unfold build_segment_details, activity_details, visit_details, path_details.
  repeat match goal with
         | |- (if ?c then _ else _) <> NoFuel => destruct c
         | |- bind _ _ <> NoFuel => apply bind_fuel; [ | intros ? _]
         | |- py_get _ _ _ <> NoFuel => apply py_get_fuel
         | |- Ok _ <> NoFuel => discriminate
         end.
  - destruct (dict_get seg "timelinePath" _); discriminate.
  - destruct (dict_get seg "timelinePath" _); discriminate.
  - destruct (dict_get seg "timelinePath" _); discriminate.
Qed.

(** The model never runs out of fuel on a segment. *)
Lemma segment_entries_fuel (x : nat * json) :
  segment_entries fields flag x <> NoFuel.
Proof.
  unfold segment_entries. destruct x as [index [ | | | | | | seg]]; cbn [fst snd];
    try discriminate.
  apply bind_fuel; [apply dict_getitem_fuel | intros os Eos].
  apply bind_fuel; [apply parse_iso8601_fuel | intros start Es].
  apply bind_fuel; [apply dict_getitem_fuel | intros oe Eoe].
  apply bind_fuel; [apply parse_iso8601_fuel | intros end_ Ee].
  apply bind_fuel; [apply build_segment_details_fuel | intros details Ed].
  pose proof (parse_iso8601_ok _ _ Es) as Hs.
  pose proof (parse_iso8601_ok _ _ Ee) as He.
  destruct (split_outcome start end_ Hs He)
    as [(e & -> & _) | (ys & -> & L & C & _ & P)]; cbn [yielded ending].
  - discriminate.
  - assert (Aw : Forall (fun iv => aware (snd iv) = aware (fst iv)) ys).
    { apply (chain_aware start end_ ys (aware start) C).
      - eapply dt_lt_aware; eassumption.
      - eapply Forall_impl; [ | exact P]. intros iv (_ & _ & T).
        unfold aware. now rewrite T. }
    destruct (slice_entries_ok index seg details os oe ys Eos Eoe Aw) as (es' & -> & _).
    discriminate.
Qed.

Lemma all_entries_fuel (indexed : list (nat * json)) :
  all_entries fields flag indexed <> NoFuel.
Proof.
  induction indexed as [ | x rest IH]; simpl; [discriminate | ].
  apply bind_fuel; [apply segment_entries_fuel | intros es _].
  apply bind_fuel; [exact IH | discriminate].
Qed.

End WithParser.

End RunFacts.

Import Partition PartitionSpec TextFacts SortFacts BucketFacts RunFacts.

Section Results.
Variable fields : string -> option datetime.
Variable flag : bool.

Lemma segment_entries_entry_ok (x : nat * json) (es : list entry) :
  segment_entries fields flag x = Ok es -> Forall entry_ok es.
Proof.
  destruct x as [index [ | | | | | | seg]]; try discriminate.
  intros H. apply segment_entries_ok in H.
  destruct H as (start & end_ & details & ys & os & oe & _ & _ & _ & _ & _ & _ & _ & _ & _ & P & F).
  induction F as [ | iv e ys es M F IH]; [constructor | ].
  inversion P as [ | ? ? (Hok & _) P']; subst.
  constructor; [ | now apply IH].
  exists (fst iv). unfold made_from in M. subst e. simpl. auto.
Qed.

Lemma all_entries_entry_ok (indexed : list (nat * json)) :
  forall es, all_entries fields flag indexed = Ok es -> Forall entry_ok es.
Proof.
  induction indexed as [ | x rest IH]; simpl; intros es H.
  - injection H as <-. constructor.
  - apply bind_ok in H as (es1 & E1 & H).
    apply bind_ok in H as (es2 & E2 & H). injection H as <-.
    apply Forall_app. split; [eapply segment_entries_entry_ok; eauto | now apply IH].
Qed.

(** What [parse_by_day] returns is made of the entries of all the
    segments: valid, filed by date, sorted. *)
Lemma parse_indexed_ok (indexed : list (nat * json)) (out : buckets) :
  parse_indexed fields flag indexed = Ok out ->
  exists es,
    all_entries fields flag indexed = Ok es /\
    Forall entry_ok es /\
    out = finish (group es []).
Proof.
  rewrite parse_indexed_spec. intros H.
  apply bind_ok in H as (es & E & H). injection H as <-.
  exists es. split; [exact E | ]. split; [ | reflexivity].
  eapply all_entries_entry_ok; eauto.
Qed.

End Results.

Lemma strongly_sorted_with {A} (R : A -> A -> Prop) (P : A -> Prop) (l : list A) :
  StronglySorted R l -> Forall P l ->
  StronglySorted (fun a b => R a b /\ P a /\ P b) l.
Proof.
  induction 1 as [ | x l S IH F]; intros H; [constructor | ].
  inversion H as [ | ? ? Px Pl]; subst. constructor; [now apply IH | ].
  rewrite Forall_forall in *. intros y Hy. auto.
Qed.

Lemma strongly_sorted_impl {A} (R R' : A -> A -> Prop) (l : list A) :
  (forall a b, R a b -> R' a b) -> StronglySorted R l -> StronglySorted R' l.
Proof.
  intros H. induction 1 as [ | x l S IH F]; constructor; [exact IH | ].
  eapply Forall_impl; [ | exact F]. auto.
Qed.

(** C3: in what [parse_by_day] returns, each key renders a valid date
    and the keys come in strictly ascending date order, which is also
    their text order; within every bucket the entries come in ascending
    order of their rendered start text. *)
Theorem C3_output_order (fields : string -> option datetime) (flag : bool)
        (segments : list json) (out : buckets) :
  parse_by_day fields flag segments = Ok out ->
  StronglySorted earlier_day (map fst out) /\
  Forall (fun kb => starts_ascending (snd kb)) out.
Proof.
  intros H. apply parse_indexed_ok in H as (es & _ & Hes & ->). split.
  - rewrite finish_keys.
    set (keys := map fst (group es [])).
    assert (N : NoDup keys) by (apply keys_group_nodup; constructor).
    assert (D : Forall (fun k => exists d, date_ok d = true /\ k = date_isoformat d)
                       (sort_by (fun k => k) keys)).
    { rewrite Forall_forall. intros k Hk.
      eapply Permutation_in in Hk; [ | apply sort_by_perm].
      apply keys_group_in in Hk. destruct Hk as [[] | Hk].
      apply in_map_iff in Hk as (e & <- & He).
      rewrite Forall_forall in Hes. destruct (Hes e He) as (t & Hok & _ & Hk).
      exists (date_of t). split; [ | exact Hk].
      now apply datetime_ok_parts in Hok. }
    pose proof (sorted_nodup_strict _ (sort_by_sorted (fun k => k) keys)
                  (Permutation_NoDup (Permutation_sym (sort_by_perm _ keys)) N)) as S.
    eapply strongly_sorted_impl; [ | exact (strongly_sorted_with _ _ _ S D)].
    intros k1 k2 (L & (d1 & O1 & ->) & (d2 & O2 & ->)).
    split; [exact L | ]. exists d1, d2. repeat (split; [assumption || reflexivity | ]).
    unfold String.ltb in L. rewrite date_isoformat_compare in L by assumption.
    now destruct (date_compare d1 d2).
  - rewrite Forall_forall. intros [k b] Hkb. apply finish_in in Hkb as (_ & ->).
    apply sort_by_sorted.
Qed.

(** C3 on a visit on one day and an activity across a midnight. *)
Lemma C3_output_order_witness :
  exists out,
    parse_by_day Iso8601.fields false SampleRuns.two_segments = Ok out /\
    map fst out = ["2024-01-01"; "2024-01-02"; "2024-01-03"] /\
    StronglySorted earlier_day (map fst out) /\
    Forall (fun kb => starts_ascending (snd kb)) out.
Proof.
  assert (E : exists out,
             parse_by_day Iso8601.fields false SampleRuns.two_segments = Ok out /\
             map fst out = ["2024-01-01"; "2024-01-02"; "2024-01-03"]).
  { vm_compute. eexists. split; reflexivity. }
  destruct E as (out & E & K). exists out. split; [exact E | ]. split; [exact K | ].
  exact (C3_output_order _ _ _ _ E).
Defined.

(** Buckets made of valid entries are not empty and hold the entries
    of their own day. *)
Lemma finish_buckets (es : list entry) :
  Forall entry_ok es ->
  Forall (fun kb =>
            snd kb <> [] /\
            Forall (fun s => entry_ok (fst kb, s) /\ slice_day s = fst kb) (snd kb))
         (finish (group es [])).
Proof.
  intros Hes.
  rewrite Forall_forall in *. intros [k b] Hkb.
  apply finish_in in Hkb as (Hk & ->). simpl. split.
  - intros E. apply sort_by_nil in E.
    apply in_map_iff in Hk as ([k' s] & <- & He). simpl in E.
    assert (I : In s (filed_under k' es)) by now apply filed_under_in.
    rewrite E in I. destruct I.
  - rewrite Forall_forall. intros s Hs.
    eapply Permutation_in in Hs; [ | apply sort_by_perm].
    apply filed_under_in in Hs. pose proof (Hes _ Hs) as Hok.
    split; [exact Hok | ].
    destruct Hok as (t & Ht & Est & Ek). simpl in *.
    unfold slice_day. rewrite Est, Ek.
    apply isoformat_date. now apply datetime_ok_parts in Ht.
Qed.

(** C10: in what [parse_by_day] returns, no bucket is empty, and every
    entry of the bucket keyed [d] renders a valid start instant whose
    calendar date, rendered, is [d]; it is the first ten characters of
    the entry's start text. *)
Theorem C10_bucket_invariant (fields : string -> option datetime) (flag : bool)
        (segments : list json) (out : buckets) :
  parse_by_day fields flag segments = Ok out ->
  Forall (fun kb =>
            snd kb <> [] /\
            Forall (fun s => entry_ok (fst kb, s) /\ slice_day s = fst kb) (snd kb))
         out.
Proof.
  intros H. apply parse_indexed_ok in H as (es & _ & Hes & ->).
  now apply finish_buckets.
Qed.

(** C10 on a visit on one day and an activity across a midnight. *)
Lemma C10_bucket_invariant_witness :
  exists out,
    parse_by_day Iso8601.fields false SampleRuns.two_segments = Ok out /\
    List.length out = 3%nat /\
    Forall (fun kb =>
              snd kb <> [] /\
              Forall (fun s => entry_ok (fst kb, s) /\ slice_day s = fst kb) (snd kb))
           out.
Proof.
  assert (E : exists out,
             parse_by_day Iso8601.fields false SampleRuns.two_segments = Ok out /\
             List.length out = 3%nat).
  { vm_compute. eexists. split; reflexivity. }
  destruct E as (out & E & K). exists out. split; [exact E | ]. split; [exact K | ].
  exact (C10_bucket_invariant _ _ _ _ E).
Defined.

(** The keys of the buckets are the days of the slices in them. *)
Lemma finish_days (es : list entry) (d : string) :
  Forall entry_ok es ->
  In d (map fst (finish (group es []))) <->
  In d (map slice_day (all_slices (finish (group es [])))).
Proof.
  intros Hes. pose proof (finish_buckets es Hes) as B.
  rewrite Forall_forall in B. unfold all_slices. split.
  - intros H. apply in_map_iff in H as ([k b] & <- & Hkb).
    destruct (B _ Hkb) as (N & F). simpl in *.
    destruct b as [ | s b]; [congruence | ].
    pose proof (Forall_inv F) as (_ & D).
    apply in_map_iff. exists s. split; [exact D | ].
    apply in_concat. exists (s :: b). split; [ | now left].
    apply in_map_iff. now exists (k, s :: b).
  - intros H. apply in_map_iff in H as (s & <- & Hs).
    apply in_concat in Hs as (b & Hb & Hs).
    apply in_map_iff in Hb as ([k b'] & E & Hkb). simpl in E. subst b'.
    destruct (B _ Hkb) as (_ & F). rewrite Forall_forall in F.
    destruct (F _ Hs) as (_ & ->). simpl.
    apply in_map_iff. now exists (k, b).
Qed.

(** C9: in the document [main] builds, [dayCount] is the number of keys
    of [days], which are distinct and are exactly the calendar dates
    the slices start on, so it is the number of distinct dates; and
    [segmentCount] is the length of the input list, whatever the
    number of slices. *)
Theorem C9_counts (fields : string -> option datetime) (flag : bool)
        (input_path : string) (data : json) (doc : output) :
  build_output fields flag input_path data = Ok doc ->
  dayCount doc = List.length (days_of doc) /\
  NoDup (map fst (days_of doc)) /\
  dayCount doc
  = List.length (nodup string_dec (map slice_day (all_slices (days_of doc)))) /\
  exists segments,
    py_get data "semanticSegments" (JArr []) = Ok (JArr segments) /\
    parse_by_day fields flag segments = Ok (days_of doc) /\
    segmentCount doc = List.length segments.
Proof.
  unfold build_output. intros H.
  apply bind_ok in H as (v & Ev & H).
  destruct v as [ | | | | | segments | ]; try discriminate.
  apply bind_ok in H as (out & Eo & H). injection H as <-. simpl.
  pose proof Eo as Eo'. apply parse_indexed_ok in Eo' as (es & _ & Hes & ->).
  split; [reflexivity | ]. split; [apply finish_keys_nodup | ]. split.
  - rewrite <- (length_map fst). apply Permutation_length.
    apply NoDup_Permutation; [apply finish_keys_nodup | apply NoDup_nodup | ].
    intros d. rewrite nodup_In. now apply finish_days.
  - exists segments. auto.
Qed.

(** C9 on a visit on one day and an activity across a midnight: three
    days from two segments. *)
Lemma C9_counts_witness :
  exists doc,
    build_output Iso8601.fields false "timeline.json" SampleRuns.document = Ok doc /\
    dayCount doc = 3%nat /\ segmentCount doc = 2%nat /\
    dayCount doc
    = List.length (nodup string_dec (map slice_day (all_slices (days_of doc)))).
Proof.
  assert (E : exists doc,
             build_output Iso8601.fields false "timeline.json" SampleRuns.document
             = Ok doc /\ dayCount doc = 3%nat /\ segmentCount doc = 2%nat).
  { vm_compute. eexists. repeat split. }
  destruct E as (doc & E & D & S). exists doc.
  split; [exact E | ]. split; [exact D | ]. split; [exact S | ].
  apply (C9_counts _ _ _ _ _ E).
Defined.

(* ================================================================== *)
(** * Order of processing and failures *)

Section Orders.
Variable fields : string -> option datetime.
Variable flag : bool.

Lemma all_entries_app (l1 l2 : list (nat * json)) :
  all_entries fields flag (l1 ++ l2) =
  (es1 <- all_entries fields flag l1 ;;
   es2 <- all_entries fields flag l2 ;;
   Ok (es1 ++ es2)%list).
Proof.
  induction l1 as [ | x l1 IH]; simpl.
  - now destruct (all_entries fields flag l2).
  - destruct (segment_entries fields flag x) as [es | | ]; simpl; try reflexivity.
    rewrite IH.
    destruct (all_entries fields flag l1) as [es1 | | ]; simpl; try reflexivity.
    destruct (all_entries fields flag l2) as [es2 | | ]; simpl; try reflexivity.
    now rewrite app_assoc.
Qed.

(** Reordering the segments reorders the entries, and nothing else. *)
Lemma all_entries_perm (l l' : list (nat * json)) :
  Permutation l l' ->
  forall es, all_entries fields flag l = Ok es ->
             exists es', all_entries fields flag l' = Ok es' /\ Permutation es es'.
Proof.
  induction 1 as [ | x l l' P IH | x y l | l l' l'' P1 IH1 P2 IH2]; intros es H.
  - exists es. split; [exact H | reflexivity].
  - simpl in *. apply bind_ok in H as (e1 & E1 & H).
    apply bind_ok in H as (e2 & E2 & H). injection H as <-.
    destruct (IH _ E2) as (e2' & E2' & P').
    exists (e1 ++ e2')%list. rewrite E1, E2'. split; [reflexivity | ].
    now apply Permutation_app_head.
  - simpl in *. apply bind_ok in H as (ey & Ey & H).
    apply bind_ok in H as (r & Er & H). injection H as <-.
    apply bind_ok in Er as (ex & Ex & H).
    apply bind_ok in H as (el & El & H). injection H as <-.
    exists (ex ++ ey ++ el)%list. rewrite Ex, Ey, El. split; [reflexivity | ].
    apply Permutation_app_swap_app.
  - destruct (IH1 _ H) as (es' & E' & P').
    destruct (IH2 _ E') as (es'' & E'' & P'').
    exists es''. split; [exact E'' | etransitivity; eassumption].
Qed.

Lemma result_cases {A} (r : result A) :
  r <> NoFuel -> (exists a, r = Ok a) \/ (exists e, r = Raise e).
Proof. destruct r; eauto. congruence. Qed.

(** With distinct start texts within each day, the returned mapping
    does not depend on the order of the entries. *)
Lemma finish_perm (es es' : list entry) :
  Permutation es es' ->
  distinct_starts (finish (group es [])) ->
  finish (group es' []) = finish (group es []).
Proof.
  intros P D. rewrite !finish_group.
  assert (K : sort_by (fun k => k) (map fst (group es' []))
              = sort_by (fun k => k) (map fst (group es []))).
  { apply sort_by_perm_eq.
    - apply NoDup_Permutation; try (apply keys_group_nodup; constructor).
      intros k. rewrite !keys_group_in.
      split; intros [[] | H]; right;
        (eapply Permutation_in; [apply Permutation_map | exact H]);
        [symmetry | ]; exact P.
    - rewrite map_id. apply keys_group_nodup. constructor. }
  rewrite K. apply map_ext_in. intros k Hk. f_equal.
  apply sort_by_perm_eq.
  - apply filed_under_perm. now symmetry.
  - unfold distinct_starts in D. rewrite Forall_forall in D.
    specialize (D (k, sort_by startTime (filed_under k es))).
    rewrite finish_group in D. simpl in D.
    assert (N : NoDup (map startTime (sort_by startTime (filed_under k es)))).
    { apply D. apply in_map_iff. exists k. split; [reflexivity | exact Hk]. }
    assert (P' : Permutation (filed_under k es') (filed_under k es))
      by (apply filed_under_perm; now symmetry).
    eapply Permutation_NoDup; [ | exact N].
    apply Permutation_map. rewrite sort_by_perm. now symmetry.
Qed.

Lemma contains_false (k : string) (d : dict) :
  contains k d = false -> dict_getitem d k = Raise (KeyError k).
Proof.
  unfold contains, dict_getitem. now destruct (lookup k d).
Qed.

Lemma enumerate_from_app {A} (l1 l2 : list A) (n : nat) :
  combine (seq n (List.length (l1 ++ l2))) (l1 ++ l2) =
  (combine (seq n (List.length l1)) l1 ++
   combine (seq (n + List.length l1) (List.length l2)) l2)%list.
Proof.
  revert n. induction l1 as [ | x l1 IH]; intros n.
  - simpl List.length. now rewrite Nat.add_0_r.
  - cbn [List.length app seq combine]. rewrite IH.
    now rewrite Nat.add_succ_r.
Qed.

Lemma enumerate_split {A} (before after : list A) (x : A) :
  enumerate (before ++ x :: after) =
  (enumerate before ++
   (List.length before, x)
     :: combine (seq (S (List.length before)) (List.length after)) after)%list.
Proof.
  unfold enumerate. rewrite enumerate_from_app. reflexivity.
Qed.

(** A run never ends out of fuel. *)
Lemma parse_indexed_fuel (indexed : list (nat * json)) :
  parse_indexed fields flag indexed <> NoFuel.
Proof.
  rewrite parse_indexed_spec.
  apply bind_fuel; [apply all_entries_fuel | discriminate].
Qed.

End Orders.

(** C4 as stated fails: two records that start on the same second land
    in one bucket in the order they are processed, so processing them
    the other way round, with their original indices, returns another
    document. *)
Lemma C4_counterexample :
  ~ Stated.any_order_claim Iso8601.fields false [SampleRuns.walk; SampleRuns.trace].
Proof.
  intros H.
  specialize (H [(1%nat, SampleRuns.trace); (0%nat, SampleRuns.walk)]
                (perm_swap _ _ _)).
  vm_compute in H. discriminate H.
Qed.

(** C4, as the code has it: when [parse_by_day] returns a mapping in
    which no two entries of one day share their start text, processing
    the segments in any other order, each with the index of its place in
    the input, returns the same mapping; and when [parse_by_day] raises,
    so does every other order. *)
Theorem C4_any_order (fields : string -> option datetime) (flag : bool)
        (segments : list json) (p : list (nat * json)) :
  Permutation p (enumerate segments) ->
  (forall out, parse_by_day fields flag segments = Ok out ->
               distinct_starts out ->
               parse_indexed fields flag p = Ok out) /\
  (forall e, parse_by_day fields flag segments = Raise e ->
             exists e', parse_indexed fields flag p = Raise e').
Proof.
  intros P. split.
  - intros out H D. apply parse_indexed_ok in H as (es & E & _ & ->).
    destruct (all_entries_perm fields flag _ _ (Permutation_sym P) es E)
      as (es' & E' & P').
    rewrite parse_indexed_spec, E'. simpl. f_equal. now apply finish_perm.
  - intros e H.
    destruct (result_cases _ (parse_indexed_fuel fields flag p)) as [(out & E) | ?];
      [ | assumption].
    exfalso. apply parse_indexed_ok in E as (es & E & _).
    destruct (all_entries_perm fields flag _ _ P es E) as (es' & E' & _).
    unfold parse_by_day in H. rewrite parse_indexed_spec, E' in H. discriminate.
Qed.

(** C4 on the visit and the activity, processed last first. *)
Lemma C4_any_order_witness :
  parse_indexed Iso8601.fields false
    [(1%nat, SampleRuns.activity_segment); (0%nat, SampleRuns.visit_segment)]
  = parse_by_day Iso8601.fields false SampleRuns.two_segments.
Proof.
  assert (E : exists out,
             parse_by_day Iso8601.fields false SampleRuns.two_segments = Ok out /\
             forallb (fun kb => Nat.eqb (List.length (snd kb)) 1) out = true).
  { vm_compute. eexists. split; reflexivity. }
  destruct E as (out & E & L). rewrite E.
  apply (C4_any_order Iso8601.fields false SampleRuns.two_segments _
                      (perm_swap _ _ _)); [exact E | ].
  unfold distinct_starts. rewrite forallb_forall in L. apply Forall_forall.
  intros kb Hkb. specialize (L kb Hkb). apply Nat.eqb_eq in L.
  destruct (snd kb) as [ | s [ | ? ?]]; try discriminate.
  simpl. repeat constructor. intros [].
Defined.

(** C8 as stated fails: the run stops at the first error in input
    order, so a record with an unreadable start placed before one
    without times makes it raise a [ValueError]; and the [KeyError] of a
    record without times names the key only, the same wherever the
    record stands. *)
Lemma C8_counterexample :
  ~ Stated.missing_field_claim Iso8601.fields false
      [SampleRuns.unreadable; SampleRuns.timeless] /\
  parse_by_day Iso8601.fields false [SampleRuns.unreadable; SampleRuns.timeless]
  = Raise (ValueError "Invalid isoformat string: 'yesterday'") /\
  parse_by_day Iso8601.fields false [SampleRuns.timeless; SampleRuns.visit_segment]
  = parse_by_day Iso8601.fields false [SampleRuns.visit_segment; SampleRuns.timeless].
Proof.
  split; [ | split; reflexivity].
  intros H.
  destruct (H [("visit", JObj [])] (or_intror (or_introl eq_refl)) (or_introl eq_refl))
    as (key & E).
  vm_compute in E. discriminate E.
Qed.

(** C8, as the code has it: a list that holds a segment without
    [startTime] or [endTime] makes [parse_by_day] raise, so no mapping
    is returned; the error is the first one met in input order.  When
    the segments before it are processed without error, it is the
    [KeyError] of the missing key: "startTime" when that is missing,
    "endTime" when the start is there and parses. *)
Theorem C8_missing_field (fields : string -> option datetime) (flag : bool)
        (before after : list json) (seg : dict) :
  contains "startTime" seg = false \/ contains "endTime" seg = false ->
  (exists e, parse_by_day fields flag (before ++ JObj seg :: after) = Raise e) /\
  (forall days,
      add_segments fields flag (enumerate before) [] = Ok days ->
      (contains "startTime" seg = false ->
       parse_by_day fields flag (before ++ JObj seg :: after)
       = Raise (KeyError "startTime")) /\
      (forall text t,
          dict_getitem seg "startTime" = Ok text ->
          parse_iso8601 fields text = Ok t ->
          parse_by_day fields flag (before ++ JObj seg :: after)
          = Raise (KeyError "endTime"))).
Proof.
  intros M.
  assert (F : forall i, exists e,
               segment_entries fields flag (i, JObj seg) = Raise e).
  { intros i.
    destruct (result_cases _ (segment_entries_fuel fields flag (i, JObj seg)))
      as [(es & E) | ?]; [ | assumption].
    exfalso. apply segment_entries_ok in E.
    destruct E as (? & ? & ? & ? & os & oe & Eos & Eoe & _).
    destruct M as [M | M]; apply contains_false in M; congruence. }
  unfold parse_by_day. split.
  - destruct (result_cases _ (parse_indexed_fuel fields flag
                                (enumerate (before ++ JObj seg :: after))))
      as [(out & E) | ?]; [ | assumption].
    exfalso. apply parse_indexed_ok in E as (es & E & _).
    rewrite enumerate_split, all_entries_app in E.
    apply bind_ok in E as (es1 & _ & E). apply bind_ok in E as (es2 & E & _).
    simpl in E. destruct (F (List.length before)) as (e & Fe).
    rewrite Fe in E. discriminate.
  - intros days Hb.
    rewrite add_segments_spec in Hb. apply bind_ok in Hb as (es1 & E1 & _).
    rewrite parse_indexed_spec, enumerate_split, all_entries_app, E1.
    cbn [bind all_entries]. unfold segment_entries. cbn [fst snd]. split.
    + intros Ms. now rewrite (contains_false _ _ Ms).
    + intros text t Et Ep. rewrite Et. cbn [bind]. rewrite Ep. cbn [bind].
      destruct M as [M | M]; apply contains_false in M; [congruence | ].
      now rewrite M.
Qed.

(** C8 on a record without times after the visit. *)
Lemma C8_missing_field_witness :
  parse_by_day Iso8601.fields false
    ([SampleRuns.visit_segment] ++ JObj [("visit", JObj [])] :: [SampleRuns.activity_segment])
  = Raise (KeyError "startTime").
Proof.
  destruct (C8_missing_field Iso8601.fields false [SampleRuns.visit_segment]
              [SampleRuns.activity_segment] [("visit", JObj [])] (or_introl eq_refl))
    as (_ & H).
  assert (E : exists days,
             add_segments Iso8601.fields false (enumerate [SampleRuns.visit_segment]) []
             = Ok days).
  { vm_compute. eexists. reflexivity. }
  destruct E as (days & E).
  exact (proj1 (H days E) eq_refl).
Defined.

(* ================================================================== *)
(** * Facts about float rounding *)

Module FloatFacts.
Import Float64.

Lemma to_Q_mag (x : float) :
  to_Q x = if negative x then Qopp (mag x) else mag x.
Proof. destruct x as [s | s | | s m e]; try reflexivity; now destruct s. Qed.

(** The rounded quotient is within half a unit of the quotient. *)
Lemma div_half_even_close (n d : Z) :
  0 <= n -> 0 < d ->
  0 <= div_half_even n d /\ 2 * Z.abs (div_half_even n d * d - n) <= d.
Proof.
  intros Hn Hd. unfold div_half_even.
  pose proof (Z.div_mod n d ltac:(lia)) as E.
  pose proof (Z.mod_pos_bound n d Hd) as B.
  assert (Q0 : 0 <= n / d) by (apply Z.div_pos; lia).
  destruct (Z.compare_spec (2 * (n mod d)) d) as [C | C | C];
    [destruct (Z.even (n / d)) | | ]; split; nia.
Qed.

(** The exponent chosen for a quotient below [2^p] is at most [p - 53]. *)
Lemma exponent_of_le (n d p : Z) :
  0 < n -> 0 < d -> n < d * 2 ^ p -> 0 <= p ->
  exponent_of n d <= p - 53.
Proof.
  intros Hn Hd Hlt Hp. unfold exponent_of, scaled, emin. unfold prec, emax.
  pose proof (Z.log2_spec n Hn) as (Ln & Un).
  pose proof (Z.log2_spec d Hd) as (Ld & Ud).
  pose proof (Z.log2_nonneg n) as Nn. pose proof (Z.log2_nonneg d) as Nd.
  set (ln := Z.log2 n) in *. set (ld := Z.log2 d) in *.
  assert (Hl : ln - ld <= p).
  { destruct (Z.le_gt_cases (ln - ld) p) as [ | G]; [assumption | exfalso].
    assert (2 ^ (ld + 1 + p) <= 2 ^ ln) by (apply Z.pow_le_mono_r; lia).
    rewrite Z.pow_add_r in H by lia.
    assert (0 < 2 ^ p) by (apply Z.pow_pos_nonneg; lia). nia. }
  change (53 - 1) with 52. change (3 - 1024 - 53) with (-1074).
  set (e0 := ln - ld - 52).
  destruct (Z.leb_spec 0 e0) as [He0 | He0]; cbv beta iota;
    (apply Z.max_lub; [ | lia]);
    match goal with |- context [?a / ?b <? ?c] => destruct (Z.ltb_spec (a / b) c) as [L | L] end;
    try lia.
  - (* e0 >= 0 and the quotient has 53 bits *)
    assert (D0 : 0 < d * 2 ^ e0) by (apply Z.mul_pos_pos; [lia | apply Z.pow_pos_nonneg; lia]).
    assert (Hq : 2 ^ 52 * (d * 2 ^ e0) <= n).
    { pose proof (Z.mul_div_le n (d * 2 ^ e0) D0). nia. }
    destruct (Z.le_gt_cases (e0 + 53) p) as [ | G]; [lia | exfalso].
    assert (2 ^ p <= 2 ^ (52 + e0)) by (apply Z.pow_le_mono_r; lia).
    rewrite Z.pow_add_r in H by lia. nia.
  - (* e0 < 0 and the quotient has 53 bits *)
    assert (P0 : 0 < 2 ^ (- e0)) by (apply Z.pow_pos_nonneg; lia).
    assert (Hq : 2 ^ 52 * d <= n * 2 ^ (- e0)).
    { pose proof (Z.mul_div_le (n * 2 ^ (- e0)) d Hd). nia. }
    destruct (Z.le_gt_cases (e0 + 53) p) as [ | G]; [lia | exfalso].
    assert (2 ^ (p - e0) <= 2 ^ 52) by (apply Z.pow_le_mono_r; lia).
    replace (p - e0) with (p + - e0) in H by lia.
    rewrite Z.pow_add_r in H by lia.
    assert (0 < 2 ^ p) by (apply Z.pow_pos_nonneg; lia). nia.
Qed.


(** Two fractions are close when their cross difference is small. *)
Lemma Qabs_frac_le (a b c d k : Z) :
  0 < b -> 0 < d -> 0 < k ->
  Z.abs (a * d - c * b) * k <= b * d ->
  (Qabs ((a # Z.to_pos b) - (c # Z.to_pos d)) <= 1 # Z.to_pos k)%Q.
Proof.
  intros Hb Hd Hk H.
  unfold Qle, Qabs, Qminus, Qplus, Qopp. cbn [Qnum Qden].
  rewrite Pos2Z.inj_mul, !Z2Pos.id by assumption.
  replace (a * d + - c * b) with (a * d - c * b) by ring. lia.
Qed.

Lemma pow2_split (k : Z) : 0 <= k -> 2 ^ (k + 1) = 2 * 2 ^ k.
Proof. intros H. rewrite Z.pow_add_r by lia. change (2 ^ 1) with 2. ring. Qed.

(** Rounding a quotient below [2^p] to the nearest float moves it by at
    most [2^(p - 54)], and keeps the sign. *)
Lemma nearest_approx (s : bool) (n d p : Z) :
  0 <= n -> 0 < d -> n < d * 2 ^ p -> 0 <= p <= 51 ->
  approx (nearest s n d) s (n # Z.to_pos d) (1 # Z.to_pos (2 ^ (54 - p))).
Proof.
  intros Hn Hd Hlt Hp. unfold approx, nearest.
  assert (K0 : 0 < 2 ^ (54 - p)) by (apply Z.pow_pos_nonneg; lia).
  destruct (Z.eqb_spec n 0) as [-> | Nz].
  - split; [reflexivity | ]. split; [reflexivity | ].
    unfold Qle, Qabs, Qminus, Qplus, Qopp, mag. cbn [Qnum Qden]. simpl. lia.
  - pose proof (exponent_of_le n d p ltac:(lia) Hd Hlt ltac:(lia)) as He.
    set (e := exponent_of n d) in *.
    unfold scaled. destruct (Z.leb_spec 0 e) as [ | _]; [lia | ].
    set (T := 2 ^ (- e)).
    assert (T0 : 0 < T) by (apply Z.pow_pos_nonneg; lia).
    destruct (div_half_even_close (n * T) d ltac:(nia) Hd) as (M0 & MC).
    set (m := div_half_even (n * T) d) in *.
    set (X := Z.abs (m * d - n * T)) in *.
    assert (KT : 2 ^ (54 - p) <= 2 * T).
    { unfold T. rewrite <- pow2_split by lia. apply Z.pow_le_mono_r; lia. }
    assert (XK : X * 2 ^ (54 - p) <= T * d).
    { assert (0 <= X) by apply Z.abs_nonneg. nia. }
    unfold prec, emax.
    change (2 ^ 53) with 9007199254740992. change (2 ^ (53 - 1)) with 4503599627370496.
    destruct (Z.eqb_spec m 9007199254740992) as [Em | Nm].
    + (* the mantissa rounds up to the next power of two *)
      destruct (Z.leb_spec (e + 1) (1024 - 53)) as [ | ]; [ | lia].
      split; [reflexivity | ]. split; [reflexivity | ].
      unfold mag. destruct (Z.leb_spec 0 (e + 1)) as [ | _]; [lia | ].
      set (T' := 2 ^ (- (e + 1))).
      assert (T'0 : 0 < T') by (apply Z.pow_pos_nonneg; lia).
      assert (ET : T = 2 * T').
      { unfold T, T'. rewrite <- pow2_split by lia. f_equal. lia. }
      change (Z.pos 4503599627370496) with 4503599627370496.
      apply Qabs_frac_le; try assumption.
      unfold X in XK. rewrite Em, ET in XK.
      replace (9007199254740992 * d - n * (2 * T'))
        with (2 * (4503599627370496 * d - n * T')) in XK by ring.
      rewrite Z.abs_mul in XK. change (Z.abs 2) with 2 in XK. nia.
    + destruct m as [ | q | q]; [ | | lia].
      * (* the quotient underflows to zero *)
        split; [reflexivity | ]. split; [reflexivity | ].
        unfold mag. change 0%Q with (0 # Z.to_pos 1).
        apply Qabs_frac_le; try assumption; [lia | ].
        unfold X in XK. rewrite Z.mul_0_l, Z.sub_0_l, Z.abs_opp in *.
        rewrite Z.abs_eq in * by nia. nia.
      * destruct (Z.leb_spec e (1024 - 53)) as [ | ]; [ | lia].
        split; [reflexivity | ]. split; [reflexivity | ].
        unfold mag. destruct (Z.leb_spec 0 e) as [ | _]; [lia | ].
        fold T. apply Qabs_frac_le; assumption.
Qed.


(** A finite float times a positive integer, as the fraction that
    [scaled] computes. *)
Lemma finite_fraction (s : bool) (m : positive) (e c : Z) :
  0 < c ->
  exists n d,
    scaled (Zpos m * c) 1 (- e) = (n, d) /\ 0 < n /\ 0 < d /\
    (mag (S754_finite s m e) * inject_Z c == n # Z.to_pos d)%Q.
Proof.
  intros Hc. unfold scaled, mag.
  destruct (Z.leb_spec 0 (- e)) as [L | L].
  - assert (T0 : 0 < 2 ^ (- e)) by (apply Z.pow_pos_nonneg; lia).
    exists (Zpos m * c), (1 * 2 ^ (- e)). split; [reflexivity | ].
    split; [lia | ]. split; [lia | ].
    destruct (Z.leb_spec 0 e) as [G | G].
    + assert (e = 0) as -> by lia.
      change (2 ^ (- 0)) with 1. change (2 ^ 0) with 1.
      unfold Qeq, Qmult, inject_Z. cbn [Qnum Qden].
      change (Z.to_pos (1 * 1)) with 1%positive. lia.
    + unfold Qeq, Qmult, inject_Z. cbn [Qnum Qden].
      rewrite Z.mul_1_l. rewrite !Z2Pos.id by lia.
      rewrite Pos2Z.inj_mul, Z2Pos.id by lia. lia.
  - assert (T0 : 0 < 2 ^ e) by (apply Z.pow_pos_nonneg; lia).
    rewrite Z.opp_involutive.
    exists (Zpos m * c * 2 ^ e), 1. split; [reflexivity | ].
    split; [nia | ]. split; [lia | ].
    destruct (Z.leb_spec 0 e) as [G | G]; [ | lia].
    unfold Qeq, Qmult, inject_Z. cbn [Qnum Qden]. simpl Z.to_pos. lia.
Qed.

Lemma frac_nonneg (k : positive) : (0 <= 1 # k)%Q.
Proof. unfold Qle. cbn [Qnum Qden]. lia. Qed.

Lemma approx_zero (s : bool) (q err : Q) :
  (q == 0)%Q -> (0 <= err)%Q -> approx (S754_zero s) s q err.
Proof.
  intros Hq He. unfold approx. split; [reflexivity | ]. split; [reflexivity | ].
  simpl mag. rewrite Hq. apply Qabs_Qle_condition. lra.
Qed.

(** Dividing a finite float by a positive integer. *)
Lemma float_div_int_approx (x : float) (c p : Z) :
  finite x = true -> 0 < c -> 0 <= p <= 51 ->
  (mag x < inject_Z (c * 2 ^ p))%Q ->
  approx (float_div_int x c) (negative x)
         (mag x * (1 # Z.to_pos c)) (1 # Z.to_pos (2 ^ (54 - p))).
Proof.
  intros Hf Hc Hp Hlt. destruct x as [s | s | | s m e]; try discriminate.
  - cbn [float_div_int negative mag]. apply approx_zero; [lra | apply frac_nonneg].
  - destruct (finite_fraction s m e 1 ltac:(lia)) as (n & d & Es & n0 & d0 & Em).
    rewrite Z.mul_1_r in Es. unfold float_div_int. rewrite Es. cbn [negative].
    assert (Em' : (mag (S754_finite s m e) == n # Z.to_pos d)%Q).
    { rewrite <- Em. change (inject_Z 1) with 1%Q. lra. }
    assert (L : n < d * c * 2 ^ p).
    { rewrite Em' in Hlt. unfold Qlt, inject_Z in Hlt. cbn [Qnum Qden] in Hlt.
      rewrite Z2Pos.id in Hlt by lia. lia. }
    destruct (nearest_approx s n (d * c) p ltac:(lia) ltac:(nia) L Hp) as (F & N & A).
    split; [exact F | ]. split; [exact N | ].
    assert (Eq : (mag (S754_finite s m e) * (1 # Z.to_pos c) == n # Z.to_pos (d * c))%Q).
    { rewrite Em'. unfold Qeq, Qmult. cbn [Qnum Qden].
      rewrite Pos2Z.inj_mul. rewrite !Z2Pos.id by nia. ring. }
    rewrite Eq. exact A.
Qed.

(** Rounding a finite float to two decimals. *)
Lemma round2_approx (x : float) (p : Z) :
  finite x = true -> 1 <= p <= 51 ->
  (mag x <= inject_Z (2 ^ (p - 1)))%Q ->
  approx (round2 x) (negative x) (mag x)
         ((1 # 200) + (1 # Z.to_pos (2 ^ (54 - p)))).
Proof.
  intros Hf Hp Hle. destruct x as [s | s | | s m e]; try discriminate.
  - cbn [round2 negative]. apply approx_zero; [reflexivity | ].
    pose proof (frac_nonneg (Z.to_pos (2 ^ (54 - p)))). lra.
  - destruct (finite_fraction s m e 100 ltac:(lia)) as (n & d & Es & n0 & d0 & Em).
    unfold round2. rewrite Es. cbn [negative].
    destruct (div_half_even_close n d ltac:(lia) d0) as (K0 & KC).
    set (k := div_half_even n d) in *.
    assert (P0 : 0 < 2 ^ (p - 1)) by (apply Z.pow_pos_nonneg; lia).
    assert (P1 : 2 ^ p = 2 * 2 ^ (p - 1)).
    { rewrite <- pow2_split by lia. f_equal. lia. }
    assert (Ln : n <= 100 * 2 ^ (p - 1) * d).
    { assert (H : (n # Z.to_pos d <= inject_Z (2 ^ (p - 1)) * inject_Z 100)%Q).
      { rewrite <- Em. change (inject_Z 100) with 100%Q. lra. }
      unfold Qle, Qmult, inject_Z in H. cbn [Qnum Qden] in H.
      rewrite Z2Pos.id in H by lia. lia. }
    assert (Lk : k < 100 * 2 ^ p) by nia.
    destruct (nearest_approx s k 100 p K0 ltac:(lia) Lk ltac:(lia)) as (F & N & A).
    split; [exact F | ]. split; [exact N | ].
    assert (B : (Qabs ((k # Z.to_pos 100) - (n # Z.to_pos (100 * d))) <= 1 # Z.to_pos 200)%Q).
    { apply Qabs_frac_le; lia. }
    assert (Em' : (mag (S754_finite s m e) == n # Z.to_pos (100 * d))%Q).
    { assert (H : (n # Z.to_pos (100 * d) == (n # Z.to_pos d) * (1 # 100))%Q).
      { unfold Qeq, Qmult. cbn [Qnum Qden].
        rewrite Pos2Z.inj_mul. rewrite !Z2Pos.id by lia. ring. }
      rewrite H, <- Em. change (inject_Z 100) with 100%Q. field. }
    rewrite Em'.
    apply Qabs_Qle_condition in A, B. apply Qabs_Qle_condition.
    change (Z.to_pos 100) with 100%positive in *.
    change (Z.to_pos 200) with 200%positive in *.
    lra.
Qed.



End FloatFacts.

(* ================================================================== *)
(** * Sums of durations *)

Module DurationFacts.
Import Float64 FloatFacts.









End DurationFacts.

Import Float64 FloatFacts DurationFacts.




(* ================================================================== *)
(** * The float model against the standard library's IEEE operations *)

Module Crosschecks.
Import Float64.

(** [nearest] gives what the library's binary64 division gives. *)
Example nearest_half :
  nearest false 30 60 = SFdiv 53 1024 (S754_finite false 30 0) (S754_finite false 60 0).
Proof. reflexivity. Qed.

Example nearest_third :
  nearest true 1 3 = SFdiv 53 1024 (S754_finite true 1 0) (S754_finite false 3 0).
Proof. reflexivity. Qed.

Example nearest_large :
  nearest false 123456789012345678901234567890 7
  = SFdiv 53 1024 (S754_finite false 123456789012345678901234567890 0)
          (S754_finite false 7 0).
Proof. reflexivity. Qed.

Example nearest_round_up :
  nearest false (2 ^ 54 - 1) 1
  = SFdiv 53 1024 (S754_finite false 18014398509481983 0) (S754_finite false 1 0).
Proof. reflexivity. Qed.

Example nearest_subnormal :
  nearest false 3 (2 ^ 1074)
  = SFdiv 53 1024 (S754_finite false 3 0) (S754_finite false 1 1074).
Proof. reflexivity. Qed.

Example nearest_underflow :
  nearest false 1 (2 ^ 1080)
  = SFdiv 53 1024 (S754_finite false 1 0) (S754_finite false 1 1080).
Proof. reflexivity. Qed.

Example minutes_of_a_third_of_a_second :
  float_div_int (int_true_divide 300000 1000000) 60
  = SFdiv 53 1024
      (SFdiv 53 1024 (S754_finite false 300000 0) (S754_finite false 1000000 0))
      (S754_finite false 60 0).
Proof. reflexivity. Qed.

(** Thirty minutes are 30.0; 0.3 seconds are 0.01 minutes, as the float
    quotient lies above 0.005; a tenth of a second backwards is -0.0. *)
Example thirty_minutes :
  to_Q (Partition.duration_minutes 1800000000) == 30.
Proof. reflexivity. Qed.

Example a_third_of_a_second :
  Partition.duration_minutes 300000 = nearest false 1 100.
Proof. reflexivity. Qed.

Example negative_zero :
  Partition.duration_minutes (-100000) = S754_zero true.
Proof. reflexivity. Qed.

End Crosschecks.

(* ================================================================== *)
(** * Further properties of the program *)

Import Text More.

Lemma endswith_Z_app_Z (s : string) : endswith_Z (s ++ "Z") = true.
Proof.
  induction s as [ | c s IH]; [reflexivity | ].
  simpl. destruct s; [reflexivity | exact IH].
Qed.

Lemma drop_last_app_Z (s : string) : drop_last (s ++ "Z") = s.
Proof.
  induction s as [ | c s IH]; [reflexivity | ].
  simpl. rewrite <- IH at 2. destruct s; reflexivity.
Qed.

Lemma endswith_Z_app_offset (s : string) : endswith_Z (s ++ "+00:00") = false.
Proof.
  induction s as [ | c s IH]; [reflexivity | ].
  simpl. destruct s; [reflexivity | exact IH].
Qed.

(** X1: a trailing "Z" is read as the offset "+00:00": the text with
    "Z" and the text with "+00:00" in its place parse to the same
    outcome, whatever the reader. *)
Theorem X1_zulu_is_utc (fields : string -> option datetime) (s : string) :
  parse_iso8601 fields (JStr (s ++ "Z")) = parse_iso8601 fields (JStr (s ++ "+00:00")).
Proof.
  unfold parse_iso8601.
  now rewrite endswith_Z_app_Z, drop_last_app_Z, endswith_Z_app_offset.
Qed.

(* ------------------------------------------------------------------ *)
(** ** The shape of a split *)

Lemma midnight_after_next (cur : datetime) (i : nat) :
  midnight_after (midnight_after cur 1) i = midnight_after cur (S i).
Proof.
  unfold midnight_after, combine_min. simpl date_of. simpl tzinfo.
  f_equal. symmetry. apply Nat.iter_succ_r.
Qed.

Lemma cut_at_midnights_step (cur end_ : datetime) (k : nat) :
  cut_at_midnights cur end_ (S k) =
  (cur, midnight_after cur 1) :: cut_at_midnights (midnight_after cur 1) end_ k.
Proof.
  assert (E : map (midnight_after cur) (seq 2 k)
              = map (midnight_after (midnight_after cur 1)) (seq 1 k)).
  { rewrite <- seq_shift, map_map. apply map_ext.
    intros i. symmetry. apply midnight_after_next. }
  unfold cut_at_midnights. cbn [seq map]. rewrite E. reflexivity.
Qed.

(** The loop yields the intervals cut at the midnights between the
    cursor's date and the end's. *)
Lemma split_loop_closed (end_ : datetime) :
  datetime_ok end_ = true ->
  forall fuel cur,
    datetime_ok cur = true ->
    (midnights_between cur end_ < fuel)%nat ->
    split_loop fuel cur end_ =
    Gen (cut_at_midnights cur end_ (midnights_between cur end_)) Returned.
Proof.
  intros Hend. unfold midnights_between.
  induction fuel as [ | fuel IH]; intros cur Hcur Hfuel; [lia | ].
  destruct (datetime_ok_parts _ Hcur) as (Dc & Tc & Oc).
  destruct (datetime_ok_parts _ Hend) as (De & Te & Oe).
  cbn [split_loop]. rewrite date_ltb_toordinal by assumption.
  destruct (Z.ltb_spec (toordinal (date_of cur)) (toordinal (date_of end_))) as [L | L].
  - pose proof (toordinal_bounds _ De) as Be.
    unfold add_one_day.
    destruct (Z.leb_spec (toordinal (date_of cur) + 1) MAXORDINAL); [ | lia].
    assert (Dn : date_ok (tomorrow (date_of cur)) = true) by (apply tomorrow_ok; assumption).
    change (combine_min (tomorrow (date_of cur)) (tzinfo cur)) with (midnight_after cur 1).
    assert (On : toordinal (date_of (midnight_after cur 1)) = toordinal (date_of cur) + 1).
    { unfold midnight_after. simpl. now apply toordinal_tomorrow. }
    rewrite IH.
    + rewrite On. unfold gen_yield. cbn [yielded ending].
      replace (Z.to_nat (toordinal (date_of end_) - toordinal (date_of cur)))
        with (S (Z.to_nat (toordinal (date_of end_) - (toordinal (date_of cur) + 1))))
        by lia.
      now rewrite cut_at_midnights_step.
    + apply combine_min_ok; assumption.
    + rewrite On. lia.
  - replace (Z.to_nat (toordinal (date_of end_) - toordinal (date_of cur))) with 0%nat
      by lia.
    reflexivity.
Qed.

(** X2: for valid instants with [end_ > start], the generator yields
    exactly the intervals from [start] to [end_] cut at every midnight
    after [start]'s date up to [end_]'s date, each midnight on
    [start]'s clock: one interval more than there are midnights between
    the two dates. *)
Theorem X2_split_closed_form (start end_ : datetime) :
  datetime_ok start = true -> datetime_ok end_ = true ->
  dt_lt end_ start = inr false -> dt_eq end_ start = false ->
  split_segment_by_day start end_ =
  Gen (cut_at_midnights start end_ (midnights_between start end_)) Returned /\
  List.length (yielded (split_segment_by_day start end_))
  = S (midnights_between start end_).
Proof.
  intros Hs He L Q.
  assert (E : split_segment_by_day start end_ =
              Gen (cut_at_midnights start end_ (midnights_between start end_)) Returned).
  { unfold split_segment_by_day. rewrite L, Q.
    apply split_loop_closed; try assumption.
    unfold loop_bound, midnights_between. lia. }
  split; [exact E | ]. rewrite E. cbn [yielded].
  unfold cut_at_midnights, interval. cbv zeta. rewrite length_combine. cbn [List.length].
  rewrite length_app, length_map, length_seq. cbn [List.length]. lia.
Qed.

(** X2 on 2023-12-30T23:30 to 2024-01-02T00:30: three midnights, four
    intervals. *)
Lemma X2_split_closed_form_witness :
  List.length (yielded (split_segment_by_day
                          (Datetime (Date 2023 12 30) 23 30 0 0 (Some 0))
                          Samples.after_midnight)) = 4%nat.
Proof.
  apply (X2_split_closed_form (Datetime (Date 2023 12 30) 23 30 0 0 (Some 0))
                              Samples.after_midnight); reflexivity.
Defined.

Lemma chain_spans (a b : datetime) (l : list interval) :
  chain a b l ->
  fold_right Z.add 0 (map (fun iv => instant (snd iv) - instant (fst iv)) l)
  = instant b - instant a.
Proof.
  induction 1 as [a b | a m b l C IH]; simpl.
  - lia.
  - rewrite IH. lia.
Qed.

Lemma pieces_aware (start end_ : datetime) (ys : list interval) :
  dt_lt end_ start = inr false -> chain start end_ ys ->
  Forall (piece_ok start) ys ->
  Forall (fun iv => aware (snd iv) = aware (fst iv)) ys.
Proof.
  intros L C P. apply (chain_aware start end_ ys (aware start) C).
  - eapply dt_lt_aware; eassumption.
  - eapply Forall_impl; [ | exact P]. intros iv (_ & _ & T).
    unfold aware. now rewrite T.
Qed.

(** X3: whatever the offsets of the two instants, the time differences
    [slice_end - slice_start] of the yielded intervals are all defined
    and add up, to the microsecond, to [end_ - start]. *)
Theorem X3_spans_add_up (start end_ : datetime) (ys : list interval) :
  datetime_ok start = true -> datetime_ok end_ = true ->
  split_segment_by_day start end_ = Gen ys Returned ->
  exists spans,
    Forall2 (fun iv us => dt_sub (snd iv) (fst iv) = inr us) ys spans /\
    dt_sub end_ start = inr (fold_right Z.add 0 spans).
Proof.
  intros Hs He E.
  destruct (split_outcome start end_ Hs He)
    as [(e & R & _) | (ys' & R & L & C & _ & P)]; rewrite R in E; [discriminate | ].
  injection E as ->.
  pose proof (pieces_aware _ _ _ L C P) as Aw.
  exists (map (fun iv => instant (snd iv) - instant (fst iv)) ys). split.
  - clear - Aw. induction Aw as [ | iv l A Aw IH]; simpl; constructor; [ | exact IH].
    now apply dt_sub_instant.
  - rewrite (chain_spans _ _ _ C). apply dt_sub_instant.
    eapply dt_lt_aware; eassumption.
Qed.

(** X3 across two offsets: from 23:00 at -05:00 to 04:30 at +00:00 the
    spans are an hour and minus half an hour, half an hour in all. *)
Lemma X3_spans_add_up_witness :
  exists ys spans,
    split_segment_by_day Samples.evening_minus5 Samples.morning_utc
    = Gen ys Returned /\
    Forall2 (fun iv us => dt_sub (snd iv) (fst iv) = inr us) ys spans /\
    dt_sub Samples.morning_utc Samples.evening_minus5 = inr 1800000000 /\
    fold_right Z.add 0 spans = 1800000000.
Proof.
  assert (E : exists ys,
             split_segment_by_day Samples.evening_minus5 Samples.morning_utc
             = Gen ys Returned) by (vm_compute; eexists; reflexivity).
  destruct E as (ys & E).
  destruct (X3_spans_add_up Samples.evening_minus5 Samples.morning_utc ys
              eq_refl eq_refl E) as (spans & F & S).
  exists ys, spans. split; [exact E | ]. split; [exact F | ].
  split; [reflexivity | ].
  assert (D : dt_sub Samples.morning_utc Samples.evening_minus5 = inr 1800000000)
    by reflexivity.
  rewrite D in S. now injection S.
Defined.

(* ------------------------------------------------------------------ *)
(** ** The keys of a summary *)

Lemma nodup_check (l : list string) : nodup string_dec l = l -> NoDup l.
Proof. intros <-. apply NoDup_nodup. Qed.

Lemma existsb_eqb_in (k : string) (l : list string) :
  existsb (String.eqb k) l = true <-> In k l.
Proof.
  rewrite existsb_exists. split.
  - intros (x & H & E). apply String.eqb_eq in E. now subst.
  - intros H. exists k. split; [exact H | apply String.eqb_refl].
Qed.

Lemma keys_check (l : list string) :
  forallb (fun k => existsb (String.eqb k) summary_keys
                    && negb (existsb (String.eqb k) slice_keys)) l = true ->
  Forall (fun k => In k summary_keys /\ ~ In k slice_keys) l.
Proof.
  rewrite forallb_forall, Forall_forall. intros H k Hk.
  specialize (H k Hk). apply andb_true_iff in H as (H1 & H2).
  split; [now apply existsb_eqb_in | ].
  intros I. apply existsb_eqb_in in I. rewrite I in H2. discriminate.
Qed.

Ltac open_binds :=
  repeat match goal with
         | |- context [bind (py_first ?p) _] =>
             destruct (py_first p); simpl bind; try discriminate
         | |- context [bind (py_last ?p) _] =>
             destruct (py_last p); simpl bind; try discriminate
         | |- context [bind (py_get ?a ?b ?c) _] =>
             destruct (py_get a b c); simpl bind; try discriminate
         end.

(** X4: a summary never has a key twice, always has [segmentType], and
    has none of the six keys a slice has of its own, so merging it into
    the slice overwrites nothing. *)
Theorem X4_summary_keys (segment : dict) (flag : bool) (d : dict) :
  build_segment_details segment flag = Ok d ->
  NoDup (map fst d) /\
  contains "segmentType" d = true /\
  Forall (fun k => In k summary_keys /\ ~ In k slice_keys) (map fst d).
Proof.
  unfold build_segment_details.
  destruct (contains "activity" segment); [ | destruct (contains "visit" segment)].
  - unfold activity_details. open_binds. intros [= <-].
    split; [now apply nodup_check | ]. split; [reflexivity | now apply keys_check].
  - unfold visit_details. open_binds. intros [= <-].
    split; [now apply nodup_check | ]. split; [reflexivity | now apply keys_check].
  - unfold path_details.
    destruct (py_len _) as [n | | ]; simpl bind; try discriminate.
    destruct (0 <? n)%nat; open_binds; simpl bind;
      destruct flag; intros [= <-];
      (split; [now apply nodup_check | ]; split; [reflexivity | now apply keys_check]).
Qed.

(** X4 on a path of two points, with the points included. *)
Lemma X4_summary_keys_witness :
  exists d,
    build_segment_details
      [("timelinePath", JArr [JObj [("point", JStr "1.0,2.0")]; JObj []])] true = Ok d /\
    map fst d = ["segmentType"; "pointCount"; "firstPoint"; "lastPoint"; "timelinePath"] /\
    NoDup (map fst d).
Proof.
  assert (E : exists d,
             build_segment_details
               [("timelinePath", JArr [JObj [("point", JStr "1.0,2.0")]; JObj []])] true
             = Ok d /\
             map fst d
             = ["segmentType"; "pointCount"; "firstPoint"; "lastPoint"; "timelinePath"])
    by (vm_compute; eexists; split; reflexivity).
  destruct E as (d & E & K). exists d. split; [exact E | ]. split; [exact K | ].
  apply (X4_summary_keys _ _ _ E).
Defined.

(* ------------------------------------------------------------------ *)
(** ** From slices back to segments *)

Lemma enumerate_from_in {A} (l : list A) (n i : nat) (x : A) :
  In (i, x) (combine (seq n (List.length l)) l) <->
  (n <= i)%nat /\ nth_error l (i - n) = Some x.
Proof.
  revert n. induction l as [ | y l IH]; intros n; simpl.
  - split; [intros [] | ]. intros (_ & H). destruct (i - n)%nat; discriminate.
  - rewrite IH. split.
    + intros [[= <- <-] | (L & H)].
      * rewrite Nat.sub_diag. split; [lia | reflexivity].
      * split; [lia | ]. replace (i - n)%nat with (S (i - S n)) by lia. exact H.
    + intros (L & H). destruct (i - n)%nat as [ | k] eqn:E.
      * left. injection H as <-. f_equal. lia.
      * right. split; [lia | ]. replace (i - S n)%nat with k by lia. exact H.
Qed.

Lemma enumerate_in {A} (l : list A) (i : nat) (x : A) :
  In (i, x) (enumerate l) <-> nth_error l i = Some x.
Proof.
  unfold enumerate. rewrite enumerate_from_in, Nat.sub_0_r.
  split; [tauto | ]. intros H. split; [lia | exact H].
Qed.

Section Traces.
Variable fields : string -> option datetime.
Variable flag : bool.

Lemma all_entries_in (l : list (nat * json)) :
  forall es e,
    all_entries fields flag l = Ok es -> In e es ->
    exists x es', In x l /\ segment_entries fields flag x = Ok es' /\ In e es'.
Proof.
  induction l as [ | x l IH]; simpl; intros es e H He.
  - injection H as <-. destruct He.
  - apply bind_ok in H as (es1 & E1 & H).
    apply bind_ok in H as (es2 & E2 & H). injection H as <-.
    apply in_app_or in He as [He | He].
    + exists x, es1. auto.
    + destruct (IH _ _ E2 He) as (x' & es' & I & E & I').
      exists x', es'. auto.
Qed.

Lemma all_entries_incl (l : list (nat * json)) :
  forall es x,
    all_entries fields flag l = Ok es -> In x l ->
    exists es', segment_entries fields flag x = Ok es' /\ incl es' es.
Proof.
  induction l as [ | y l IH]; simpl; intros es x H Hx; [destruct Hx | ].
  apply bind_ok in H as (es1 & E1 & H).
  apply bind_ok in H as (es2 & E2 & H). injection H as <-.
  destruct Hx as [-> | Hx].
  - exists es1. split; [exact E1 | now apply incl_appl].
  - destruct (IH _ _ E2 Hx) as (es' & E & I).
    exists es'. split; [exact E | now apply incl_appr].
Qed.

(** The slices returned are the slices of the entries, no more, no less. *)
Lemma finish_slices (es : list entry) (s : slice) :
  In s (all_slices (finish (group es []))) <-> In s (map snd es).
Proof.
  unfold all_slices. rewrite in_concat. split.
  - intros (b & Hb & Hs). apply in_map_iff in Hb as ([k b'] & E & Hkb).
    simpl in E. subst b'. apply finish_in in Hkb as (_ & ->).
    eapply Permutation_in in Hs; [ | apply sort_by_perm].
    apply filed_under_in in Hs. apply in_map_iff. now exists (k, s).
  - intros H. apply in_map_iff in H as ([k s'] & E & He). simpl in E. subst s'.
    exists (sort_by startTime (filed_under k es)). split.
    + apply in_map_iff. exists (k, sort_by startTime (filed_under k es)).
      split; [reflexivity | ]. rewrite finish_group. apply in_map_iff.
      exists k. split; [reflexivity | ].
      eapply Permutation_in; [symmetry; apply sort_by_perm | ].
      apply keys_group_in. right. apply in_map_iff. now exists (k, s).
    + eapply Permutation_in; [symmetry; apply sort_by_perm | ].
      now apply filed_under_in.
Qed.

End Traces.

(** X5: every slice [parse_by_day] returns traces back to a segment of
    the input: its [segmentIndex] is the position of a segment whose
    [startTime] and [endTime] are the slice's original texts and whose
    summary is the one the slice carries. *)
Theorem X5_slices_trace_back (fields : string -> option datetime) (flag : bool)
        (segments : list json) (out : buckets) (s : slice) :
  parse_by_day fields flag segments = Ok out ->
  In s (all_slices out) ->
  exists seg,
    nth_error segments (segmentIndex s) = Some (JObj seg) /\
    lookup "startTime" seg = Some (originalStartTime s) /\
    lookup "endTime" seg = Some (originalEndTime s) /\
    build_segment_details seg flag = Ok (details s).
Proof.
  intros H Hs. apply parse_indexed_ok in H as (es & E & _ & ->).
  apply finish_slices in Hs. apply in_map_iff in Hs as (e & <- & He).
  destruct (all_entries_in fields flag _ _ _ E He) as ([i v] & es' & Hx & Ex & He').
  destruct v as [ | | | | | | seg]; try discriminate.
  apply enumerate_in in Hx.
  apply segment_entries_ok in Ex.
  destruct Ex as (start & end_ & det & ys & os & oe & Eos & Eoe & _ & _ & _ & Ed & _ & _ & _ & _ & F).
  assert (M : exists iv, made_from i os oe det iv e).
  { clear - F He'. induction F as [ | iv e' ys es'' M F IH]; [destruct He' | ].
    destruct He' as [<- | He']; eauto. }
  destruct M as (iv & M). unfold made_from in M. subst e. simpl.
  exists seg. split; [exact Hx | ].
  unfold dict_getitem in Eos, Eoe.
  destruct (lookup "startTime" seg); [ | discriminate].
  destruct (lookup "endTime" seg); [ | discriminate].
  injection Eos as ->. injection Eoe as ->. auto.
Qed.

(** X5 on the visit and the activity: the slice of 2024-01-03 comes from
    the segment at index 1. *)
Lemma X5_slices_trace_back_witness :
  exists out s seg,
    parse_by_day Iso8601.fields false SampleRuns.two_segments = Ok out /\
    In s (all_slices out) /\ startTime s = "2024-01-03T00:00:00+00:00" /\
    nth_error SampleRuns.two_segments (segmentIndex s) = Some (JObj seg) /\
    lookup "startTime" seg = Some (originalStartTime s).
Proof.
  assert (E : exists out s,
             parse_by_day Iso8601.fields false SampleRuns.two_segments = Ok out /\
             nth_error (all_slices out) 2 = Some s /\
             startTime s = "2024-01-03T00:00:00+00:00")
    by (vm_compute; do 2 eexists; repeat split).
  destruct E as (out & s & E & N & T).
  pose proof (nth_error_In _ _ N) as I.
  destruct (X5_slices_trace_back _ _ _ _ s E I) as (seg & A & B & _).
  exists out, s, seg. auto.
Defined.

Lemma indexed_has_entry (fields : string -> option datetime) (flag : bool)
      (l : list (nat * json)) (es : list entry) (x : nat * json) :
  all_entries fields flag l = Ok es -> In x l ->
  exists e, In e es /\ segmentIndex (snd e) = fst x.
Proof.
  intros E N.
  destruct (all_entries_incl fields flag _ _ _ E N) as (es' & Ex & I).
  destruct x as [i v]. destruct v as [ | | | | | | seg]; try discriminate.
  apply segment_entries_ok in Ex.
  destruct Ex as (start & end_ & det & ys & os & oe & _ & _ & _ & _ & _ & _ & _ & _ & C & _ & F).
  destruct F as [ | iv e ys es'' M F]; [now apply chain_nonempty in C | ].
  exists e. split; [apply I; now left | ].
  unfold made_from in M. now subst e.
Qed.

(** X6: no segment is dropped: when [parse_by_day] returns, every
    position of the input list is the [segmentIndex] of at least one
    slice. *)
Theorem X6_no_segment_dropped (fields : string -> option datetime) (flag : bool)
        (segments : list json) (out : buckets) (i : nat) :
  parse_by_day fields flag segments = Ok out ->
  (i < List.length segments)%nat ->
  exists s, In s (all_slices out) /\ segmentIndex s = i.
Proof.
  intros H Hi. apply parse_indexed_ok in H as (es & E & _ & ->).
  destruct (nth_error segments i) as [v | ] eqn:N;
    [ | apply nth_error_None in N; lia].
  apply enumerate_in in N.
  destruct (indexed_has_entry fields flag _ es _ E N) as (e & I & Ei).
  exists (snd e). split; [ | exact Ei].
  apply finish_slices. now apply in_map.
Qed.

(** X6 on the visit and the activity: index 0 is there. *)
Lemma X6_no_segment_dropped_witness :
  exists out s,
    parse_by_day Iso8601.fields false SampleRuns.two_segments = Ok out /\
    In s (all_slices out) /\ segmentIndex s = 0%nat.
Proof.
  assert (E : exists out,
             parse_by_day Iso8601.fields false SampleRuns.two_segments = Ok out)
    by (vm_compute; eexists; reflexivity).
  destruct E as (out & E).
  destruct (X6_no_segment_dropped _ _ _ _ 0%nat E) as (s & I & S);
    [simpl; lia | ].
  exists out, s. auto.
Defined.

(* ------------------------------------------------------------------ *)
(** ** One interval per calendar day *)

Lemma days_from_succ (d : date) (n : nat) :
  date_ok d = true ->
  days_from d (S n) = toordinal d :: days_from (tomorrow d) n.
Proof.
  intros Hd. unfold days_from. cbn [seq map]. f_equal; [simpl; lia | ].
  rewrite <- seq_shift, map_map. apply map_ext. intros i.
  rewrite toordinal_tomorrow by assumption. lia.
Qed.

Lemma split_loop_days (end_ : datetime) :
  forall fuel cur ys,
    datetime_ok cur = true ->
    split_loop fuel cur end_ = Gen ys Returned ->
    map day_number ys = days_from (date_of cur) (List.length ys).
Proof.
  induction fuel as [ | fuel IH]; intros cur ys Hcur E; [discriminate | ].
  destruct (datetime_ok_parts _ Hcur) as (Dc & Tc & Oc).
  cbn [split_loop] in E.
  destruct (date_ltb (date_of cur) (date_of end_)).
  - unfold add_one_day in E.
    destruct (Z.leb_spec (toordinal (date_of cur) + 1) MAXORDINAL) as [B | B];
      [ | discriminate].
    destruct (split_loop fuel (combine_min (tomorrow (date_of cur)) (tzinfo cur)) end_)
      as [ys' c] eqn:R.
    unfold gen_yield in E. cbn [yielded ending] in E. injection E as <- ->.
    cbn [map List.length]. rewrite days_from_succ by assumption.
    unfold day_number at 1. cbn [fst]. f_equal.
    apply (IH _ _ (combine_min_ok _ _ (tomorrow_ok _ Dc B) Oc) R).
  - injection E as <-. unfold days_from, day_number. simpl. f_equal. lia.
Qed.

(** X7: the intervals of one split start on consecutive calendar days,
    the first on [start]'s day: no day between is skipped and none has
    two intervals. *)
Theorem X7_one_interval_per_day (start end_ : datetime) (ys : list interval) :
  datetime_ok start = true ->
  split_segment_by_day start end_ = Gen ys Returned ->
  map day_number ys = days_from (date_of start) (List.length ys).
Proof.
  intros Hs E. unfold split_segment_by_day in E.
  destruct (dt_lt end_ start) as [e | [ | ]]; try discriminate.
  destruct (dt_eq end_ start).
  - injection E as <-. unfold days_from, day_number. simpl. f_equal. lia.
  - eapply split_loop_days; eassumption.
Qed.

(** X7 on 2023-12-30T23:30 to 2024-01-02T00:30: four days in a row. *)
Lemma X7_one_interval_per_day_witness :
  exists ys,
    split_segment_by_day (Datetime (Date 2023 12 30) 23 30 0 0 (Some 0))
                         Samples.after_midnight = Gen ys Returned /\
    map day_number ys = [738884; 738885; 738886; 738887].
Proof.
  assert (E : exists ys,
             split_segment_by_day (Datetime (Date 2023 12 30) 23 30 0 0 (Some 0))
                                  Samples.after_midnight = Gen ys Returned /\
             List.length ys = 4%nat)
    by (vm_compute; eexists; split; reflexivity).
  destruct E as (ys & E & L). exists ys. split; [exact E | ].
  rewrite (X7_one_interval_per_day (Datetime (Date 2023 12 30) 23 30 0 0 (Some 0))
             Samples.after_midnight ys eq_refl E), L.
  reflexivity.
Defined.

(* ------------------------------------------------------------------ *)
(** ** The sort keeps equal keys in their order *)

Lemma compare_refl (a : string) : String.compare a a = Eq.
Proof.
  pose proof (String.compare_antisym a a) as H.
  destruct (String.compare a a); [reflexivity | discriminate | discriminate].
Qed.

Lemma leb_refl (a : string) : String.leb a a = true.
Proof. unfold String.leb. now rewrite compare_refl. Qed.

Section Stable.
Context {A : Type} (key : A -> string) (R : A -> A -> Prop).

Lemma key_then_leb (a b : A) :
  key_then key R a b -> String.leb (key a) (key b) = true.
Proof.
  unfold key_then. intros [H | (E & _)].
  - unfold String.ltb in H. unfold String.leb.
    now destruct (String.compare (key a) (key b)).
  - rewrite E. apply leb_refl.
Qed.

Lemma leb_key_then (a b : A) :
  String.leb (key a) (key b) = true -> R a b -> key_then key R a b.
Proof.
  intros L H. destruct (string_dec (key a) (key b)) as [E | N].
  - right. auto.
  - left. now apply leb_neq_ltb.
Qed.

Lemma insert_by_stable (x : A) (m : list A) :
  Forall (R x) m -> StronglySorted (key_then key R) m ->
  StronglySorted (key_then key R) (insert_by key x m).
Proof.
  intros F S. induction S as [ | y m S IH Fy]; simpl.
  - repeat constructor.
  - apply Forall_cons_iff in F as (Rxy & F).
    destruct (String.leb (key x) (key y)) eqn:L.
    + constructor; [now constructor | ].
      constructor; [now apply leb_key_then | ].
      rewrite Forall_forall in *. intros z Hz.
      apply leb_key_then; [ | now apply F].
      eapply leb_trans; [exact L | ]. apply key_then_leb. now apply Fy.
    + constructor; [now apply IH | ].
      eapply Permutation_Forall; [symmetry; apply insert_by_perm | ].
      constructor; [ | exact Fy]. left.
      apply leb_neq_ltb; [now apply leb_false_flip | ].
      intros E. rewrite E, leb_refl in L. discriminate.
Qed.

Lemma sort_by_stable (l : list A) :
  StronglySorted R l -> StronglySorted (key_then key R) (sort_by key l).
Proof.
  induction 1 as [ | x l S IH F]; simpl; [constructor | ].
  apply insert_by_stable; [ | exact IH].
  eapply Permutation_Forall; [symmetry; apply sort_by_perm | exact F].
Qed.

End Stable.

(* ------------------------------------------------------------------ *)
(** ** One slice per segment and day *)

Lemma date_isoformat_inj (a b : date) :
  date_ok a = true -> date_ok b = true ->
  date_isoformat a = date_isoformat b -> a = b.
Proof.
  intros Ha Hb E. apply date_compare_eq.
  rewrite <- date_isoformat_compare by assumption. rewrite E.
  apply compare_refl.
Qed.

Lemma nodup_map_through {A B C} (f : A -> B) (g : A -> C) (l : list A) :
  (forall x y, In x l -> In y l -> f x = f y -> g x = g y) ->
  NoDup (map g l) -> NoDup (map f l).
Proof.
  induction l as [ | x l IH]; simpl; intros H N; [constructor | ].
  apply NoDup_cons_iff in N as (Nx & N). constructor.
  - intros I. apply in_map_iff in I as (y & E & Hy). apply Nx.
    apply in_map_iff. exists y. split; [ | exact Hy].
    apply H; auto.
  - apply IH; [ | exact N]. intros; apply H; auto.
Qed.

Lemma days_from_nodup (d : date) (n : nat) : NoDup (days_from d n).
Proof.
  unfold days_from. apply (nodup_map_through _ (fun i => i)).
  - intros i j _ _. lia.
  - rewrite map_id. apply seq_NoDup.
Qed.

Lemma filed_under_none (k : string) (es : list entry) :
  ~ In k (map fst es) -> filed_under k es = [].
Proof.
  intros N. destruct (filed_under k es) as [ | s b] eqn:E; [reflexivity | ].
  exfalso. apply N. apply in_map_iff. exists (k, s). split; [reflexivity | ].
  apply filed_under_in. rewrite E. now left.
Qed.

Lemma filed_under_app (k : string) (es es' : list entry) :
  filed_under k (es ++ es') = (filed_under k es ++ filed_under k es')%list.
Proof. unfold filed_under. now rewrite filter_app, map_app. Qed.

(** Under distinct keys at most one entry is filed under a key. *)
Lemma filed_under_one (k : string) (es : list entry) :
  NoDup (map fst es) ->
  filed_under k es = [] \/ exists s, filed_under k es = [s] /\ In (k, s) es.
Proof.
  induction es as [ | e es IH]; simpl; intros N; [now left | ].
  apply NoDup_cons_iff in N as (Ne & N). rewrite filed_under_cons.
  destruct (String.eqb (fst e) k) eqn:E.
  - apply String.eqb_eq in E. right. exists (snd e).
    rewrite filed_under_none by (now rewrite <- E). split; [reflexivity | ].
    left. destruct e; simpl in *. now subst.
  - destruct (IH N) as [-> | (s & -> & I)]; [now left | ].
    right. exists s. auto.
Qed.

Lemma split_days_distinct (start end_ : datetime) (ys : list interval) :
  datetime_ok start = true ->
  split_segment_by_day start end_ = Gen ys Returned ->
  NoDup (map day_number ys).
Proof.
  intros Hs E. unfold split_segment_by_day in E.
  destruct (dt_lt end_ start) as [e | [ | ]]; try discriminate.
  destruct (dt_eq end_ start).
  - injection E as <-. repeat constructor. intros [].
  - rewrite (split_loop_days _ _ _ _ Hs E). apply days_from_nodup.
Qed.

Section OnePerDay.
Variable fields : string -> option datetime.
Variable flag : bool.

(** The entries of one segment carry its index and distinct keys. *)
Lemma segment_entries_keys (x : nat * json) (es : list entry) :
  segment_entries fields flag x = Ok es ->
  NoDup (map fst es) /\ Forall (fun e => segmentIndex (snd e) = fst x) es.
Proof.
  destruct x as [i v]. intros H.
  destruct v as [ | | | | | | seg]; try discriminate.
  apply segment_entries_ok in H.
  destruct H as (start & end_ & det & ys & os & oe & _ & _ & _ & Hs & _ & _ & _ & E & _ & P & F).
  pose proof (X := split_days_distinct start end_ ys Hs E).
  assert (K : map fst es = map (fun iv => date_isoformat (date_of (fst iv))) ys).
  { clear - F. induction F as [ | iv e ys es M F IH]; simpl; [reflexivity | ].
    rewrite IH. unfold made_from in M. now subst e. }
  split.
  - rewrite K. apply (nodup_map_through _ day_number); [ | exact X].
    rewrite Forall_forall in P. intros a b Ia Ib Eab. unfold day_number. f_equal.
    apply date_isoformat_inj; [ | | exact Eab].
    + destruct (P a Ia) as (Oa & _). now apply datetime_ok_parts in Oa.
    + destruct (P b Ib) as (Ob & _). now apply datetime_ok_parts in Ob.
  - clear - F. induction F as [ | iv e ys es M F IH]; constructor; [ | exact IH].
    unfold made_from in M. now subst e.
Qed.

(** Filed under one key, the entries of segments taken in ascending
    index order come in ascending index order, each index once. *)
Lemma filed_under_ascending (k : string) (l : list (nat * json)) :
  forall es,
    StronglySorted lt (map fst l) ->
    all_entries fields flag l = Ok es ->
    StronglySorted lt (map segmentIndex (filed_under k es)) /\
    Forall (fun s => In (segmentIndex s) (map fst l)) (filed_under k es).
Proof.
  induction l as [ | x l IH]; simpl; intros es S H.
  - injection H as <-. split; constructor.
  - apply bind_ok in H as (es1 & E1 & H).
    apply bind_ok in H as (es2 & E2 & H). injection H as <-.
    apply StronglySorted_inv in S as (S & Fx).
    destruct (IH _ S E2) as (S2 & I2).
    destruct (segment_entries_keys _ _ E1) as (N1 & F1).
    rewrite filed_under_app.
    destruct (filed_under_one k es1 N1) as [-> | (s & -> & Is)]; simpl.
    + split; [exact S2 | ]. eapply Forall_impl; [ | exact I2]. intros; now right.
    + rewrite Forall_forall in F1. pose proof (F1 _ Is) as Ei. simpl in Ei.
      split.
      * constructor; [exact S2 | ]. rewrite Forall_forall in *.
        intros j Hj. apply in_map_iff in Hj as (s' & <- & Hs').
        rewrite Ei. apply Fx. now apply I2.
      * constructor; [now left | ].
        eapply Forall_impl; [ | exact I2]. intros; now right.
Qed.

Lemma enumerate_indices {A} (l : list A) :
  StronglySorted lt (map fst (enumerate l)).
Proof.
  unfold enumerate. generalize 0%nat.
  induction l as [ | x l IH]; intros n; simpl; constructor; [apply IH | ].
  rewrite Forall_forall. intros j Hj.
  apply in_map_iff in Hj as ([j' y] & <- & Hj). apply in_combine_l in Hj.
  apply in_seq in Hj. simpl. lia.
Qed.

End OnePerDay.

Lemma strongly_sorted_map {A B} (f : A -> B) (R : B -> B -> Prop) (l : list A) :
  StronglySorted R (map f l) -> StronglySorted (fun a b => R (f a) (f b)) l.
Proof.
  induction l as [ | x l IH]; simpl; intros S; [constructor | ].
  apply StronglySorted_inv in S as (S & F). constructor; [now apply IH | ].
  rewrite Forall_forall in *. intros y Hy. apply F. now apply in_map.
Qed.

Lemma strongly_sorted_lt_nodup (l : list nat) : StronglySorted lt l -> NoDup l.
Proof.
  induction 1 as [ | x l S IH F]; constructor; [ | exact IH].
  intros I. rewrite Forall_forall in F. specialize (F _ I). lia.
Qed.

(** X8: a day lists a segment at most once: within every bucket
    [parse_by_day] returns, no two slices have the same
    [segmentIndex]. *)
Theorem X8_one_slice_per_segment_and_day
        (fields : string -> option datetime) (flag : bool)
        (segments : list json) (out : buckets) :
  parse_by_day fields flag segments = Ok out ->
  Forall (fun kb => NoDup (map segmentIndex (snd kb))) out.
Proof.
  intros H. apply parse_indexed_ok in H as (es & E & _ & ->).
  rewrite Forall_forall. intros [k b] Hkb. apply finish_in in Hkb as (_ & ->).
  cbn [snd].
  destruct (filed_under_ascending fields flag k _ es (enumerate_indices segments) E)
    as (S & _).
  eapply Permutation_NoDup; [ | apply strongly_sorted_lt_nodup; exact S].
  apply Permutation_map. symmetry. apply sort_by_perm.
Qed.

(** X8 on the visit and the activity. *)
Lemma X8_one_slice_per_segment_and_day_witness :
  exists out,
    parse_by_day Iso8601.fields false SampleRuns.two_segments = Ok out /\
    Forall (fun kb => NoDup (map segmentIndex (snd kb))) out.
Proof.
  assert (E : exists out,
             parse_by_day Iso8601.fields false SampleRuns.two_segments = Ok out)
    by (vm_compute; eexists; reflexivity).
  destruct E as (out & E). exists out. split; [exact E | ].
  exact (X8_one_slice_per_segment_and_day _ _ _ _ E).
Defined.

(** X9: the order within a bucket is by start text and, where two
    slices have the same start text, by segment index: the sort keeps
    slices that tie in input order. *)
Theorem X9_ties_in_input_order
        (fields : string -> option datetime) (flag : bool)
        (segments : list json) (out : buckets) :
  parse_by_day fields flag segments = Ok out ->
  Forall (fun kb => StronglySorted before_in_bucket (snd kb)) out.
Proof.
  intros H. apply parse_indexed_ok in H as (es & E & _ & ->).
  rewrite Forall_forall. intros [k b] Hkb. apply finish_in in Hkb as (_ & ->).
  cbn [snd].
  destruct (filed_under_ascending fields flag k _ es (enumerate_indices segments) E)
    as (S & _).
  apply strongly_sorted_map in S.
  exact (sort_by_stable startTime _ _ S).
Qed.

(** X9 on two records that start on the same second: the walk, at
    index 0, comes before the trace, at index 1. *)
Lemma X9_ties_in_input_order_witness :
  exists out,
    parse_by_day Iso8601.fields false [SampleRuns.walk; SampleRuns.trace] = Ok out /\
    map (fun kb => map segmentIndex (snd kb)) out = [[0%nat; 1%nat]] /\
    Forall (fun kb => StronglySorted before_in_bucket (snd kb)) out.
Proof.
  assert (E : exists out,
             parse_by_day Iso8601.fields false [SampleRuns.walk; SampleRuns.trace]
             = Ok out /\
             map (fun kb => map segmentIndex (snd kb)) out = [[0%nat; 1%nat]])
    by (vm_compute; eexists; split; reflexivity).
  destruct E as (out & E & I). exists out. split; [exact E | ]. split; [exact I | ].
  exact (X9_ties_in_input_order _ _ _ _ E).
Defined.

(* ------------------------------------------------------------------ *)
(** ** What the flag changes *)

Lemma on_result_bind {A B C} (f : B -> C) (r : result A) (k : A -> result B) :
  on_result f (bind r k) = bind r (fun a => on_result f (k a)).
Proof. now destruct r. Qed.

Lemma bind_ext {A B} (r : result A) (k k' : A -> result B) :
  (forall a, r = Ok a -> k a = k' a) -> bind r k = bind r k'.
Proof. destruct r; simpl; auto. Qed.

(** A summary built with the flag off is the one built with the flag
    on, less its [timelinePath] key. *)
Lemma details_flag (segment : dict) :
  build_segment_details segment false
  = on_result without_points (build_segment_details segment true).
Proof.
  unfold build_segment_details.
  destruct (contains "activity" segment); [ | destruct (contains "visit" segment)].
  - unfold activity_details. open_binds; reflexivity.
  - unfold visit_details. open_binds; reflexivity.
  - unfold path_details.
    destruct (py_len (dict_get segment "timelinePath" (JArr []))) as [n | e | ];
      cbn [bind on_result]; try reflexivity.
    destruct (0 <? n)%nat; cbn [bind on_result].
    + open_binds; reflexivity.
    + unfold without_points. rewrite filter_app. reflexivity.
Qed.

Section Stripping.
Variable f : slice -> slice.
Hypothesis f_start : forall s, startTime (f s) = startTime s.

Lemma bucket_append_map (k : string) (x : slice) (days : buckets) :
  bucket_append k (f x) (map_buckets f days)
  = map_buckets f (bucket_append k x days).
Proof.
  induction days as [ | [k' b] days IH]; simpl; [reflexivity | ].
  destruct (String.eqb k' k); simpl.
  - now rewrite map_app.
  - now rewrite IH.
Qed.

Lemma group_map (es : list entry) :
  forall days,
    group (map (lift_entry f) es) (map_buckets f days) = map_buckets f (group es days).
Proof.
  unfold group. induction es as [ | e es IH]; intros days; simpl; [reflexivity | ].
  rewrite bucket_append_map. apply IH.
Qed.

Lemma filed_under_map (k : string) (es : list entry) :
  filed_under k (map (lift_entry f) es) = map f (filed_under k es).
Proof.
  induction es as [ | e es IH]; [reflexivity | ].
  cbn [map]. rewrite !filed_under_cons. cbn [lift_entry fst snd].
  destruct (String.eqb (fst e) k); simpl; now rewrite IH.
Qed.

Lemma insert_by_map (x : slice) (l : list slice) :
  insert_by startTime (f x) (map f l) = map f (insert_by startTime x l).
Proof.
  induction l as [ | y l IH]; simpl; [reflexivity | ].
  rewrite !f_start. destruct (String.leb (startTime x) (startTime y)); simpl.
  - reflexivity.
  - now rewrite IH.
Qed.

Lemma sort_by_map (l : list slice) :
  sort_by startTime (map f l) = map f (sort_by startTime l).
Proof.
  induction l as [ | x l IH]; simpl; [reflexivity | ].
  now rewrite IH, insert_by_map.
Qed.

Lemma finish_map (es : list entry) :
  finish (group (map (lift_entry f) es) []) = map_buckets f (finish (group es [])).
Proof.
  rewrite !finish_group.
  change (@nil (string * list slice)) with (map_buckets f []) at 1.
  rewrite group_map. unfold map_buckets at 1. rewrite map_map. cbn [fst].
  unfold map_buckets. rewrite map_map. apply map_ext. intros k. cbn [fst snd].
  now rewrite filed_under_map, sort_by_map.
Qed.

End Stripping.

Lemma slice_entries_strip (index : nat) (segment details : dict)
      (ivs : list interval) :
  slice_entries index segment (without_points details) ivs
  = on_result (map (lift_entry strip_points))
              (slice_entries index segment details ivs).
Proof.
  induction ivs as [ | iv ivs IH]; [reflexivity | ].
  cbn [slice_entries]. rewrite IH. unfold slice_entry.
  destruct (lift_sum (dt_sub (snd iv) (fst iv))); cbn [bind on_result];
    try reflexivity.
  destruct (dict_getitem segment "startTime"); cbn [bind on_result];
    try reflexivity.
  destruct (dict_getitem segment "endTime"); cbn [bind on_result];
    try reflexivity.
  destruct (slice_entries index segment details ivs); reflexivity.
Qed.

Lemma segment_entries_flag (fields : string -> option datetime) (x : nat * json) :
  segment_entries fields false x
  = on_result (map (lift_entry strip_points)) (segment_entries fields true x).
Proof.
  unfold segment_entries. destruct (snd x) as [ | | | | | | seg]; try reflexivity.
  rewrite !on_result_bind. apply bind_ext. intros os _.
  rewrite !on_result_bind. apply bind_ext. intros start _.
  rewrite !on_result_bind. apply bind_ext. intros oe _.
  rewrite !on_result_bind. apply bind_ext. intros end_ _.
  rewrite details_flag.
  destruct (build_segment_details seg true) as [d | e | ]; cbn [bind on_result];
    try reflexivity.
  rewrite slice_entries_strip.
  destruct (slice_entries (fst x) seg d (yielded (split_segment_by_day start end_)));
    cbn [bind on_result]; try reflexivity.
  destruct (ending (split_segment_by_day start end_)); reflexivity.
Qed.

Lemma all_entries_flag (fields : string -> option datetime)
      (l : list (nat * json)) :
  all_entries fields false l
  = on_result (map (lift_entry strip_points)) (all_entries fields true l).
Proof.
  induction l as [ | x l IH]; [reflexivity | ].
  cbn [all_entries]. rewrite IH, segment_entries_flag.
  destruct (segment_entries fields true x); cbn [bind on_result]; try reflexivity.
  destruct (all_entries fields true l); cbn [bind on_result]; try reflexivity.
  now rewrite map_app.
Qed.

(** X10: the flag [include_timeline_points] changes nothing but the
    [timelinePath] key of the summaries: whatever the input, the call
    with the flag off raises what the call with the flag on raises, and
    returns the same days with the same slices in the same order, each
    without that key. *)
Theorem X10_flag_only_adds_points (fields : string -> option datetime)
        (segments : list json) :
  parse_by_day fields false segments
  = on_result (map_buckets strip_points) (parse_by_day fields true segments).
Proof.
  unfold parse_by_day. rewrite !parse_indexed_spec, all_entries_flag.
  destruct (all_entries fields true (enumerate segments)); cbn [bind on_result];
    try reflexivity.
  f_equal. apply finish_map. reflexivity.
Qed.

(* ------------------------------------------------------------------ *)
(** ** Which error is raised *)

Section Errors.
Variable fields : string -> option datetime.
Variable flag : bool.

Lemma add_segments_raise (l : list json) :
  forall n days e,
    add_segments fields flag (combine (seq n (List.length l)) l) days = Raise e <->
    exists before x after days',
      l = (before ++ x :: after)%list /\
      add_segments fields flag (combine (seq n (List.length before)) before) days
      = Ok days' /\
      add_segment fields flag (n + List.length before) x days' = Raise e.
Proof.
  induction l as [ | y l IH]; intros n days e.
  - split; [discriminate | ]. intros (before & x & after & _ & E & _).
    now destruct before.
  - cbn [List.length seq combine add_segments]. split.
    + intros H. destruct (add_segment fields flag n y days) as [d1 | e1 | ] eqn:E1;
        cbn [bind] in H; [ | | discriminate].
      * apply IH in H as (before & x & after & days' & -> & E & R).
        exists (y :: before), x, after, days'. split; [reflexivity | ].
        cbn [List.length seq combine add_segments]. rewrite E1. cbn [bind].
        split; [exact E | ]. now rewrite Nat.add_succ_r.
      * injection H as ->. exists [], y, l, days. split; [reflexivity | ].
        split; [reflexivity | ]. simpl. now rewrite Nat.add_0_r.
    + intros (before & x & after & days' & L & E & R).
      destruct before as [ | y' before]; simpl in L; injection L as -> ->.
      * simpl in E. injection E as ->. simpl in R. rewrite Nat.add_0_r in R.
        now rewrite R.
      * cbn [List.length seq combine add_segments] in E.
        destruct (add_segment fields flag n y' days) as [d1 | e1 | ];
          cbn [bind] in *; try discriminate.
        apply IH. exists before, x, after, days'. split; [reflexivity | ].
        split; [exact E | ]. cbn [List.length] in R.
        rewrite Nat.add_succ_r in R. exact R.
Qed.

End Errors.

(** X11: [parse_by_day] raises exactly the error of the first segment,
    in input order, whose processing raises: the segments before it
    were processed without error, and the segments after it play no
    part. *)
Theorem X11_first_error_is_raised (fields : string -> option datetime)
        (flag : bool) (segments : list json) (e : exn) :
  parse_by_day fields flag segments = Raise e <->
  exists before x after days,
    segments = (before ++ x :: after)%list /\
    add_segments fields flag (enumerate before) [] = Ok days /\
    add_segment fields flag (List.length before) x days = Raise e.
Proof.
  unfold parse_by_day, parse_indexed, enumerate.
  rewrite <- (add_segments_raise fields flag segments 0 [] e).
  destruct (add_segments fields flag (combine (seq 0 (List.length segments)) segments) []);
    cbn [bind]; split; congruence.
Qed.

(* ------------------------------------------------------------------ *)
(** ** The counts of the document *)

Lemma buckets_le_slices (out : buckets) :
  Forall (fun kb => snd kb <> []) out ->
  (List.length out <= List.length (all_slices out))%nat.
Proof.
  unfold all_slices. induction 1 as [ | [k b] out N F IH]; simpl; [lia | ].
  rewrite length_app. destruct b; [now elim N | simpl; lia].
Qed.

(** X12: in the document [main] builds there are at least as many
    slices as days and as many as segments, and [dayCount] is zero
    exactly when [segmentCount] is. *)
Theorem X12_counts_and_slices (fields : string -> option datetime) (flag : bool)
        (input_path : string) (data : json) (doc : output) :
  build_output fields flag input_path data = Ok doc ->
  (dayCount doc <= List.length (all_slices (days_of doc)))%nat /\
  (segmentCount doc <= List.length (all_slices (days_of doc)))%nat /\
  (dayCount doc = 0%nat <-> segmentCount doc = 0%nat).
Proof.
  unfold build_output. intros H.
  apply bind_ok in H as (v & Ev & H).
  destruct v as [ | | | | | segments | ]; try discriminate.
  apply bind_ok in H as (out & Eo & H). injection H as <-. simpl.
  assert (D : (List.length out <= List.length (all_slices out))%nat).
  { pose proof Eo as Eo'. apply parse_indexed_ok in Eo' as (es & _ & Hes & ->).
    apply buckets_le_slices.
    eapply Forall_impl; [ | exact (finish_buckets es Hes)]. now intros kb (N & _). }
  assert (S : (List.length segments <= List.length (all_slices out))%nat).
  { pose proof Eo as Eo'.
    pose proof (@NoDup_incl_length _ (seq 0 (List.length segments))
                  (map segmentIndex (all_slices out))
                  (seq_NoDup (List.length segments) 0)) as L.
    rewrite length_seq, length_map in L. apply L.
    intros i Hi. apply in_seq in Hi.
    apply parse_indexed_ok in Eo' as (es & E & _ & Eout).
    destruct (nth_error segments i) as [v | ] eqn:N;
      [ | apply nth_error_None in N; lia].
    apply enumerate_in in N.
    destruct (indexed_has_entry fields flag _ es _ E N) as (e & I & Ei).
    cbn [fst] in Ei. rewrite <- Ei.
    apply in_map. rewrite Eout. apply finish_slices. now apply in_map. }
  split; [exact D | ]. split; [exact S | ]. split.
  - intros Z. destruct out; [ | discriminate]. simpl in S. lia.
  - intros Z. destruct segments; [ | discriminate].
    vm_compute in Eo. now injection Eo as <-.
Qed.

(** X12 on the visit and the activity: three days and two segments, so
    at least three slices. *)
Lemma X12_counts_and_slices_witness :
  exists doc,
    build_output Iso8601.fields false "timeline.json" SampleRuns.document = Ok doc /\
    dayCount doc = 3%nat /\ segmentCount doc = 2%nat /\
    (3 <= List.length (all_slices (days_of doc)))%nat.
Proof.
  assert (E : exists doc,
             build_output Iso8601.fields false "timeline.json" SampleRuns.document
             = Ok doc /\ dayCount doc = 3%nat /\ segmentCount doc = 2%nat)
    by (vm_compute; eexists; repeat split).
  destruct E as (doc & E & D & S). exists doc.
  destruct (X12_counts_and_slices _ _ _ _ _ E) as (L & _).
  rewrite D in L. auto.
Defined.

(* ------------------------------------------------------------------ *)
(** ** How a split can end *)

(** X13: for valid instants the generator ends in one of three ways
    only: it returns, and then [end_ >= start]; it raises the
    [ValueError] of the order, and then [end_ < start]; or it raises a
    [TypeError], and then one value is naive and the other aware.  It
    never overflows the calendar in [current.date() + timedelta(days=1)]
    and its loop always comes to an end. *)
Theorem X13_split_endings (start end_ : datetime) :
  datetime_ok start = true -> datetime_ok end_ = true ->
  ending_allowed start end_ (ending (split_segment_by_day start end_)).
Proof.
  intros Hs He.
  destruct (split_outcome start end_ Hs He)
    as [(e & R & N) | (ys & R & L & _)]; rewrite R; cbn [ending ending_allowed];
    [ | exact L].
  revert R. unfold split_segment_by_day.
  destruct (dt_lt end_ start) as [e' | [ | ]] eqn:L; [ | | contradiction].
  - intros [= <-]. revert L. unfold dt_lt, dt_compare, aware.
    destruct (tzinfo end_), (tzinfo start);
      try (destruct (_ =? _)); try (destruct (naive_compare _ _));
      try (destruct (_ ?= _)); intros L; try discriminate L;
      injection L as <-; discriminate.
  - intros [= <-]. auto.
Qed.

(** X13 on a naive start and an aware end: a [TypeError]. *)
Lemma X13_split_endings_witness :
  ending_allowed (Datetime (Date 2024 1 1) 10 0 0 0 None) Samples.after_midnight
                 (Raised TypeError).
Proof.
  exact (X13_split_endings (Datetime (Date 2024 1 1) 10 0 0 0 None)
                           Samples.after_midnight eq_refl eq_refl).
Defined.

(* ------------------------------------------------------------------ *)
(** ** A segment that ends on a midnight *)

Lemma iter_tomorrow (d : date) (i : nat) :
  date_ok d = true -> toordinal d + Z.of_nat i <= MAXORDINAL ->
  date_ok (Nat.iter i tomorrow d) = true /\
  toordinal (Nat.iter i tomorrow d) = toordinal d + Z.of_nat i.
Proof.
  intros Hd. induction i as [ | i IH]; intros B.
  - simpl. split; [exact Hd | lia].
  - destruct IH as (O & T); [lia | ].
    change (Nat.iter (S i) tomorrow d) with (tomorrow (Nat.iter i tomorrow d)).
    split.
    + apply tomorrow_ok; [exact O | lia].
    + rewrite toordinal_tomorrow by exact O. lia.
Qed.

Lemma toordinal_inj (a b : date) :
  date_ok a = true -> date_ok b = true -> toordinal a = toordinal b -> a = b.
Proof.
  intros Ha Hb E. apply date_compare_eq.
  rewrite date_compare_toordinal by assumption. rewrite E. apply Z.compare_refl.
Qed.

Lemma combine_snoc {A B} (l : list A) (l' : list B) (x : A) (y : B) :
  List.length l = List.length l' ->
  combine (l ++ [x]) (l' ++ [y]) = (combine l l' ++ [(x, y)])%list.
Proof.
  revert l'. induction l as [ | a l IH]; intros [ | b l'] E; try discriminate.
  - reflexivity.
  - simpl. f_equal. apply IH. now injection E.
Qed.

Lemma cut_at_midnights_last (start end_ : datetime) (k : nat) :
  exists ys,
    cut_at_midnights start end_ (S k)
    = (ys ++ [(midnight_after start (S k), end_)])%list /\
    List.length ys = S k.
Proof.
  unfold cut_at_midnights. cbv zeta. rewrite seq_S, map_app. cbn [map].
  set (cuts := map (midnight_after start) (seq 1 k)).
  exists (combine (start :: cuts) (cuts ++ [midnight_after start (1 + k)])).
  split.
  - rewrite app_comm_cons. apply combine_snoc.
    cbn [List.length]. rewrite length_app. cbn [List.length]. lia.
  - rewrite length_combine. cbn [List.length]. rewrite length_app.
    cbn [List.length]. unfold cuts. rewrite length_map, length_seq. lia.
Qed.

(** X14: a segment that ends exactly on a midnight of its own clock,
    on a later date than it starts, gets one more slice on the end's
    date: the last interval yielded is [(end_, end_)], of no length,
    after one interval for each day before. *)
Theorem X14_midnight_end (start end_ : datetime) :
  datetime_ok start = true -> datetime_ok end_ = true ->
  tzinfo end_ = tzinfo start -> is_midnight end_ ->
  toordinal (date_of start) < toordinal (date_of end_) ->
  exists ys,
    split_segment_by_day start end_ = Gen (ys ++ [(end_, end_)])%list Returned /\
    List.length ys = midnights_between start end_ /\
    dt_sub end_ end_ = inr 0.
Proof.
  intros Hs He Tz (Mh & Mm & Ms & Mu) L.
  destruct (datetime_ok_parts _ Hs) as (Ds & _ & _).
  destruct (datetime_ok_parts _ He) as (De & _ & _).
  assert (C : dt_compare end_ start = Some Gt).
  { unfold dt_compare. rewrite Tz.
    assert (N : naive_compare end_ start = Gt).
    { unfold naive_compare. rewrite date_compare_toordinal by assumption.
      now apply Z.compare_gt_iff in L as ->. }
    destruct (tzinfo start); [rewrite Z.eqb_refl | ]; now rewrite N. }
  unfold split_segment_by_day, dt_lt, dt_eq. rewrite C.
  rewrite (split_loop_closed end_ He _ start Hs (loop_bound_enough start end_)).
  unfold midnights_between.
  destruct (Z.to_nat (toordinal (date_of end_) - toordinal (date_of start)))
    as [ | k] eqn:K; [lia | ].
  destruct (cut_at_midnights_last start end_ k) as (ys & -> & Len).
  exists ys. split; [ | split; [exact Len | ]].
  - do 3 f_equal. unfold midnight_after, combine_min.
    pose proof (toordinal_bounds _ De) as Be.
    destruct (iter_tomorrow (date_of start) (S k) Ds) as (O & T); [lia | ].
    rewrite (toordinal_inj _ (date_of end_) O De) by lia.
    destruct end_ as [d h m s u tz]. simpl in *. now subst.
  - unfold dt_sub. destruct (tzinfo end_); f_equal; lia.
Qed.

(** X14 from 23:30 on 2024-01-01 to the midnight that follows. *)
Lemma X14_midnight_end_witness :
  exists ys,
    split_segment_by_day Samples.before_midnight
                         (Datetime (Date 2024 1 2) 0 0 0 0 (Some 0))
    = Gen (ys ++ [(Datetime (Date 2024 1 2) 0 0 0 0 (Some 0),
                   Datetime (Date 2024 1 2) 0 0 0 0 (Some 0))])%list Returned /\
    List.length ys = 1%nat.
Proof.
  destruct (X14_midnight_end Samples.before_midnight
              (Datetime (Date 2024 1 2) 0 0 0 0 (Some 0)) eq_refl eq_refl eq_refl)
    as (ys & E & Len & _).
  - repeat split.
  - reflexivity.
  - exists ys. split; [exact E | exact Len].
Defined.

(* ------------------------------------------------------------------ *)
(** ** Rounding does not cross a whole number *)

Lemma div_half_even_between (n d J : Z) :
  0 <= n -> 0 < d ->
  (n <= J * d -> div_half_even n d <= J) /\
  (J * d <= n -> J <= div_half_even n d).
Proof.
  intros Hn Hd. unfold div_half_even.
  pose proof (Z.div_mod n d ltac:(lia)) as E.
  pose proof (Z.mod_pos_bound n d Hd) as B.
  destruct (Z.compare_spec (2 * (n mod d)) d) as [C | C | C];
    [destruct (Z.even (n / d)) | | ]; split; intros Hside; nia.
Qed.

Lemma Qle_frac_int (a b K : Z) :
  0 < b -> ((a # Z.to_pos b <= inject_Z K)%Q <-> a <= K * b).
Proof.
  intros Hb. unfold Qle, inject_Z. cbn [Qnum Qden].
  rewrite Z2Pos.id by assumption. lia.
Qed.

Lemma Qle_int_frac (a b K : Z) :
  0 < b -> ((inject_Z K <= a # Z.to_pos b)%Q <-> K * b <= a).
Proof.
  intros Hb. unfold Qle, inject_Z. cbn [Qnum Qden].
  rewrite Z2Pos.id by assumption. lia.
Qed.

(** A quotient on one side of the integer [K] rounds to a float on the
    same side. *)
Lemma nearest_between (s : bool) (n d p K : Z) :
  0 <= n -> 0 < d -> n < d * 2 ^ p -> 0 <= p <= 51 -> 0 <= K ->
  (n <= K * d -> (mag (nearest s n d) <= inject_Z K)%Q) /\
  (K * d <= n -> (inject_Z K <= mag (nearest s n d))%Q).
Proof.
  intros Hn Hd Hlt Hp HK. unfold nearest.
  destruct (Z.eqb_spec n 0) as [-> | Nz].
  - cbn [mag]. unfold Qle, inject_Z. cbn [Qnum Qden]. split; intros Hside; nia.
  - pose proof (exponent_of_le n d p ltac:(lia) Hd Hlt ltac:(lia)) as He.
    set (e := exponent_of n d) in *.
    unfold scaled. destruct (Z.leb_spec 0 e) as [ | _]; [lia | ].
    set (T := 2 ^ (- e)).
    assert (T0 : 0 < T) by (apply Z.pow_pos_nonneg; lia).
    destruct (div_half_even_between (n * T) d (K * T) ltac:(nia) Hd) as (Up & Lo).
    destruct (div_half_even_close (n * T) d ltac:(nia) Hd) as (M0 & _).
    set (m := div_half_even (n * T) d) in *.
    unfold prec, emax.
    change (2 ^ 53) with 9007199254740992. change (2 ^ (53 - 1)) with 4503599627370496.
    destruct (Z.eqb_spec m 9007199254740992) as [Em | Nm].
    + destruct (Z.leb_spec (e + 1) (1024 - 53)) as [ | ]; [ | lia].
      unfold mag. destruct (Z.leb_spec 0 (e + 1)) as [ | _]; [lia | ].
      set (T' := 2 ^ (- (e + 1))).
      assert (T'0 : 0 < T') by (apply Z.pow_pos_nonneg; lia).
      assert (ET : T = 2 * T').
      { unfold T, T'. rewrite <- pow2_split by lia. f_equal. lia. }
      change (Z.pos 4503599627370496) with 4503599627370496.
      rewrite Qle_frac_int, Qle_int_frac by assumption.
      split; intros Hside; [specialize (Up ltac:(nia)) | specialize (Lo ltac:(nia))]; nia.
    + destruct m as [ | q | q]; [ | | lia].
      * cbn [mag]. unfold Qle, inject_Z. cbn [Qnum Qden].
        split; intros Hside; [nia | specialize (Lo ltac:(nia)); nia].
      * destruct (Z.leb_spec e (1024 - 53)) as [ | ]; [ | lia].
        unfold mag. destruct (Z.leb_spec 0 e) as [ | _]; [lia | ].
        fold T. rewrite Qle_frac_int, Qle_int_frac by assumption.
        split; intros Hside; [specialize (Up ltac:(nia)) | specialize (Lo ltac:(nia))]; nia.
Qed.

Lemma float_div_int_between (x : float) (c p K : Z) :
  finite x = true -> 0 < c -> 0 <= p <= 51 -> 0 <= K ->
  (mag x < inject_Z (c * 2 ^ p))%Q ->
  ((mag x <= inject_Z (K * c))%Q -> (mag (float_div_int x c) <= inject_Z K)%Q) /\
  ((inject_Z (K * c) <= mag x)%Q -> (inject_Z K <= mag (float_div_int x c))%Q).
Proof.
  intros Hf Hc Hp HK Hlt. destruct x as [s | s | | s m e]; try discriminate.
  - cbn [float_div_int mag]. unfold Qle, inject_Z. cbn [Qnum Qden].
    split; intros Hside; nia.
  - destruct (finite_fraction s m e 1 ltac:(lia)) as (n & d & Es & n0 & d0 & Em).
    rewrite Z.mul_1_r in Es. unfold float_div_int. rewrite Es.
    assert (Em' : (mag (S754_finite s m e) == n # Z.to_pos d)%Q).
    { rewrite <- Em. change (inject_Z 1) with 1%Q. lra. }
    rewrite Em' in *.
    assert (L : n < d * c * 2 ^ p).
    { unfold Qlt, inject_Z in Hlt. cbn [Qnum Qden] in Hlt.
      rewrite Z2Pos.id in Hlt by lia. lia. }
    destruct (nearest_between s n (d * c) p K ltac:(lia) ltac:(nia) L Hp HK)
      as (Up & Lo).
    rewrite Qle_frac_int, Qle_int_frac by assumption.
    split; intros Hside; [apply Up | apply Lo]; nia.
Qed.

Lemma round2_between (x : float) (p K : Z) :
  finite x = true -> 1 <= p <= 51 -> 0 <= K ->
  (mag x <= inject_Z (2 ^ (p - 1)))%Q ->
  ((mag x <= inject_Z K)%Q -> (mag (round2 x) <= inject_Z K)%Q) /\
  ((inject_Z K <= mag x)%Q -> (inject_Z K <= mag (round2 x))%Q).
Proof.
  intros Hf Hp HK Hle. destruct x as [s | s | | s m e]; try discriminate.
  - cbn [round2 mag]. tauto.
  - destruct (finite_fraction s m e 100 ltac:(lia)) as (n & d & Es & n0 & d0 & Em).
    unfold round2. rewrite Es.
    destruct (div_half_even_close n d ltac:(lia) d0) as (K0 & KC).
    destruct (div_half_even_between n d (K * 100) ltac:(lia) d0) as (Up & Lo).
    set (k := div_half_even n d) in *.
    assert (P0 : 0 < 2 ^ (p - 1)) by (apply Z.pow_pos_nonneg; lia).
    assert (P1 : 2 ^ p = 2 * 2 ^ (p - 1)).
    { rewrite <- pow2_split by lia. f_equal. lia. }
    assert (Ln : n <= 100 * 2 ^ (p - 1) * d).
    { assert (H : (n # Z.to_pos d <= inject_Z (2 ^ (p - 1)) * inject_Z 100)%Q).
      { rewrite <- Em. change (inject_Z 100) with 100%Q. lra. }
      unfold Qle, Qmult, inject_Z in H. cbn [Qnum Qden] in H.
      rewrite Z2Pos.id in H by lia. lia. }
    assert (Lk : k < 100 * 2 ^ p) by nia.
    destruct (nearest_between s k 100 p K K0 ltac:(lia) Lk ltac:(lia) HK)
      as (Up' & Lo').
    assert (Em' : (mag (S754_finite s m e) == n # Z.to_pos (100 * d))%Q).
    { assert (H : (n # Z.to_pos (100 * d) == (n # Z.to_pos d) * (1 # 100))%Q).
      { unfold Qeq, Qmult. cbn [Qnum Qden].
        rewrite Pos2Z.inj_mul. rewrite !Z2Pos.id by lia. ring. }
      rewrite H, <- Em. change (inject_Z 100) with 100%Q. field. }
    rewrite Em'. rewrite Qle_frac_int, Qle_int_frac by lia.
    split; intros Hside; [apply Up', Up | apply Lo', Lo]; lia.
Qed.

(** The rounded minutes of a span lie on the same side of a whole
    number of minutes as the span. *)
Lemma duration_between (us K : Z) :
  0 <= us < 2 ^ 59 -> 0 <= K ->
  finite (duration_minutes us) = true /\
  negative (duration_minutes us) = false /\
  (us <= K * 60000000 -> (to_Q (duration_minutes us) <= inject_Z K)%Q) /\
  (K * 60000000 <= us -> (inject_Z K <= to_Q (duration_minutes us))%Q).
Proof.
  intros B HK. unfold duration_minutes, int_true_divide, US_PER_SECOND.
  destruct (Z.ltb_spec us 0) as [ | _]; [lia | ].
  rewrite Z.abs_eq by lia.
  change (2 ^ 59) with 576460752303423488 in B.
  (* the seconds *)
  destruct (nearest_approx false us 1000000 40 ltac:(lia) ltac:(lia)) as (F1 & N1 & A1);
    [change (2 ^ 40) with 1099511627776; lia | lia | ].
  destruct (nearest_between false us 1000000 40 (K * 60) ltac:(lia) ltac:(lia))
    as (U1 & L1); [change (2 ^ 40) with 1099511627776; lia | lia | lia | ].
  set (x1 := nearest false us 1000000) in *.
  change (Z.to_pos 1000000) with 1000000%positive in A1.
  change (Z.to_pos (2 ^ (54 - 40))) with 16384%positive in A1.
  assert (Ba : (0 <= us # 1000000 /\ us # 1000000 <= 576460752303423488 # 1000000)%Q).
  { unfold Qle. cbn [Qnum Qden]. lia. }
  apply Qabs_Qle_condition in A1.
  (* the minutes *)
  assert (H1 : (mag x1 < inject_Z (60 * 2 ^ 35))%Q).
  { change (inject_Z (60 * 2 ^ 35)) with (2061584302080 # 1). lra. }
  destruct (float_div_int_approx x1 60 35 F1 ltac:(lia) ltac:(lia) H1) as (F2 & N2 & A2).
  destruct (float_div_int_between x1 60 35 K F1 ltac:(lia) ltac:(lia) HK H1)
    as (U2 & L2).
  set (x2 := float_div_int x1 60) in *.
  change (Z.to_pos 60) with 60%positive in A2.
  change (Z.to_pos (2 ^ (54 - 35))) with 524288%positive in A2.
  apply Qabs_Qle_condition in A2.
  (* the minutes to two decimals *)
  assert (H2 : (mag x2 <= inject_Z (2 ^ (36 - 1)))%Q).
  { change (inject_Z (2 ^ (36 - 1))) with (34359738368 # 1). lra. }
  destruct (round2_approx x2 36 F2 ltac:(lia) H2) as (F3 & N3 & _).
  destruct (round2_between x2 36 K F2 ltac:(lia) HK H2) as (U3 & L3).
  split; [exact F3 | ]. split; [now rewrite N3, N2, N1 | ].
  rewrite to_Q_mag, N3, N2, N1.
  split; intros Hside.
  - apply U3, U2, U1. lia.
  - apply L3, L2, L1. lia.
Qed.

(** X15: a span of a whole number of minutes is reported exactly: the
    three roundings (to seconds, to minutes, to two decimals) of
    [60 * K] seconds give the float [K], finite and not negative. *)
Theorem X15_whole_minutes_exact (K : Z) :
  0 <= K -> K * 60000000 < 2 ^ 59 ->
  finite (duration_minutes (K * 60000000)) = true /\
  negative (duration_minutes (K * 60000000)) = false /\
  (to_Q (duration_minutes (K * 60000000)) == inject_Z K)%Q.
Proof.
  intros HK B.
  destruct (duration_between (K * 60000000) K ltac:(lia) HK) as (F & N & U & L).
  split; [exact F | ]. split; [exact N | ].
  apply Qle_antisym; [apply U | apply L]; lia.
Qed.

(** X15 on half an hour: 30.0. *)
Lemma X15_whole_minutes_exact_witness :
  (to_Q (duration_minutes 1800000000) == 30)%Q.
Proof.
  destruct (X15_whole_minutes_exact 30) as (_ & _ & E).
  - lia.
  - reflexivity.
  - exact E.
Defined.

(* ------------------------------------------------------------------ *)
(** ** The minutes of a slice *)

Lemma split_within_day (start end_ : datetime) (ys : list interval) :
  datetime_ok start = true -> datetime_ok end_ = true ->
  tzinfo start = tzinfo end_ ->
  split_segment_by_day start end_ = Gen ys Returned ->
  Forall within_day ys.
Proof.
  intros Hs He Htz E. unfold split_segment_by_day in E.
  destruct (dt_lt end_ start) as [e | [ | ]] eqn:Hlt; try discriminate.
  pose proof (dt_lt_false_instant _ _ He Hs Hlt) as Hle.
  destruct (dt_eq end_ start) eqn:Q.
  - injection E as <-. constructor; [ | constructor].
    apply dt_eq_instant in Q; try assumption.
    destruct (datetime_ok_parts _ Hs) as (_ & Ts & _).
    pose proof (time_us_bounds _ Ts).
    unfold within_day, on_clock_of, day_start; simpl. rewrite Q.
    unfold instant, local_us in *. lia.
  - apply (split_loop_within end_ He (loop_bound start end_) start ys Hs Htz);
      [ | exact E].
    unfold instant, offset_us in Hle. rewrite Htz in Hle. lia.
Qed.

(** X16: when [start] and [end_] carry the same tzinfo, every interval
    of the split has a defined length between nothing and 24 hours,
    and its [durationMinutes] is a finite float, not negative (and not
    -0.0), between 0.0 and 1440.0. *)
Theorem X16_minutes_within_a_day (start end_ : datetime) (ys : list interval) :
  datetime_ok start = true -> datetime_ok end_ = true ->
  tzinfo start = tzinfo end_ ->
  split_segment_by_day start end_ = Gen ys Returned ->
  Forall minutes_in_day ys.
Proof.
  intros Hs He Htz E.
  pose proof (split_within_day _ _ _ Hs He Htz E) as W.
  destruct (split_outcome start end_ Hs He)
    as [(e & R & _) | (ys' & R & L & C & _ & P)]; rewrite R in E; [discriminate | ].
  injection E as ->.
  pose proof (pieces_aware _ _ _ L C P) as Aw.
  rewrite Forall_forall in *. intros iv Hiv.
  specialize (W _ Hiv). specialize (Aw _ Hiv). destruct (P _ Hiv) as (Oa & Ob & _).
  exists (instant (snd iv) - instant (fst iv)).
  split; [now apply dt_sub_instant | ].
  assert (B : 0 <= instant (snd iv) - instant (fst iv) <= US_PER_DAY).
  { unfold within_day, on_clock_of, instant in *. lia. }
  split; [exact B | ].
  assert (B59 : 0 <= instant (snd iv) - instant (fst iv) < 2 ^ 59).
  { change (2 ^ 59) with 576460752303423488.
    unfold US_PER_DAY, US_PER_SECOND in B. lia. }
  destruct (duration_between _ 1440 B59 ltac:(lia)) as (F & N & U & _).
  destruct (duration_between _ 0 B59 ltac:(lia)) as (_ & _ & _ & Lo).
  split; [exact F | ]. split; [exact N | ]. split.
  - apply Lo. lia.
  - apply U. unfold US_PER_DAY, US_PER_SECOND in B. lia.
Qed.

(** X16 at 23:30 to 00:30 across one midnight. *)
Lemma X16_minutes_within_a_day_witness :
  exists ys,
    split_segment_by_day Samples.before_midnight Samples.after_midnight
    = Gen ys Returned /\
    Forall minutes_in_day ys.
Proof.
  assert (E : exists ys,
             split_segment_by_day Samples.before_midnight Samples.after_midnight
             = Gen ys Returned) by (vm_compute; eexists; reflexivity).
  destruct E as (ys & E). exists ys. split; [exact E | ].
  exact (X16_minutes_within_a_day Samples.before_midnight Samples.after_midnight
           ys eq_refl eq_refl eq_refl E).
Defined.

(* ------------------------------------------------------------------ *)
(** ** The summary of a path *)

(** X17: for a record with neither [activity] nor [visit] whose
    [timelinePath] is a non-empty list with mappings at both ends, the
    summary counts the points and holds the [point] of the first and of
    the last element, null where an element has none. *)
Theorem X17_path_ends (segment : dict) (flag : bool) (points : list json)
        (p0 pn : dict) :
  contains "activity" segment = false -> contains "visit" segment = false ->
  lookup "timelinePath" segment = Some (JArr points) ->
  hd_error points = Some (JObj p0) -> last points JNull = JObj pn ->
  exists d,
    build_segment_details segment flag = Ok d /\
    lookup "pointCount" d = Some (JInt (Z.of_nat (List.length points))) /\
    lookup "firstPoint" d = Some (dict_get p0 "point" JNull) /\
    lookup "lastPoint" d = Some (dict_get pn "point" JNull).
Proof.
  intros Ha Hv Hp H0 Hn. unfold build_segment_details. rewrite Ha, Hv.
  unfold path_details, dict_get at 1 2 3. rewrite Hp.
  destruct points as [ | x points]; [discriminate | ]. injection H0 as ->.
  cbn [py_len bind]. change (0 <? List.length (JObj p0 :: points))%nat with true.
  cbv iota. unfold py_first, py_last. rewrite Hn.
  cbn [hd bind py_get]. eexists. split; [reflexivity | ].
  destruct flag; repeat split; reflexivity.
Qed.

(** X17 on a path of two points. *)
Lemma X17_path_ends_witness :
  exists d,
    build_segment_details
      [("timelinePath",
        JArr [JObj [("point", JStr "60.1,24.9"); ("time", JStr "t0")];
              JObj [("time", JStr "t1")]])] true = Ok d /\
    lookup "pointCount" d = Some (JInt 2) /\
    lookup "firstPoint" d = Some (JStr "60.1,24.9") /\
    lookup "lastPoint" d = Some JNull.
Proof.
  exact (X17_path_ends
           [("timelinePath",
             JArr [JObj [("point", JStr "60.1,24.9"); ("time", JStr "t0")];
                   JObj [("time", JStr "t1")]])] true
           [JObj [("point", JStr "60.1,24.9"); ("time", JStr "t0")];
            JObj [("time", JStr "t1")]]
           [("point", JStr "60.1,24.9"); ("time", JStr "t0")]
           [("time", JStr "t1")]
           eq_refl eq_refl eq_refl eq_refl eq_refl).
Defined.
